(** * ObsidianTools: a shallow embedding of the vault scanning, metadata
    extraction and bulk-mutation code, with the properties of its
    specification.

    A JavaScript string is a [string]: a sequence of code units, each below
    256.  A JavaScript object used as an ordered map is an association list
    updated in place.  The file system and the logger are an explicit
    state. *)

From Stdlib Require Import ZArith Lia Bool Ascii String DecimalString Sorted.
From stdpp Require Import gmap strings list.

Set Warnings "-register-all".

(** ** JavaScript string primitives *)
Module JS.

(** The class [\s] of regular expressions, which is also what
    [String.prototype.trim] strips, among the code units below 256: tab,
    line feed, vertical tab, form feed, carriage return, space and the
    no-break space. *)
Definition isWhiteSpace (c : ascii) : bool :=
  match c with
  | "009"%char | "010"%char | "011"%char | "012"%char | "013"%char
  | " "%char | "160"%char => true
  | _ => false
  end.

(** [s.replace(/P/g, r)] for a one-character class [P]. *)
Fixpoint replaceEach (p : ascii -> bool) (r : ascii) (s : string) : string :=
  match s with
  | "" => ""
  | String c s' => String (if p c then r else c) (replaceEach p r s')
  end.

(** [s.replace(/P+/g, r)]: every maximal run of characters of the class
    [P] becomes one [r].  [inRun] tells that the previous character was
    part of the run being replaced. *)
Fixpoint replaceRuns (p : ascii -> bool) (r : ascii) (inRun : bool)
    (s : string) : string :=
  match s with
  | "" => ""
  | String c s' =>
      if p c
      then (if inRun then replaceRuns p r true s'
            else String r (replaceRuns p r true s'))
      else String c (replaceRuns p r false s')
  end.

(** The alternative [^c] of [s.replace(/^c|c$/g, '')]. *)
Definition dropFirst (p : ascii -> bool) (s : string) : string :=
  match s with
  | "" => ""
  | String c s' => if p c then s' else s
  end.

(** The alternative [c$] of [s.replace(/^c|c$/g, '')]. *)
Fixpoint dropLast (p : ascii -> bool) (s : string) : string :=
  match s with
  | "" => ""
  | String c "" => if p c then "" else s
  | String c s' => String c (dropLast p s')
  end.

(** [s.replace(/^c|c$/g, '')]: the scan removes a first character of the
    class, then, among the characters after it, a last one. *)
Definition dropEnds (p : ascii -> bool) (s : string) : string :=
  dropLast p (dropFirst p s).

Fixpoint string_drop (n : nat) (s : string) : string :=
  match n, s with
  | O, _ => s
  | S n', String _ s' => string_drop n' s'
  | S _, "" => ""
  end.

(** [s.trimStart()], [s.trimEnd()] and [s.trim()]. *)
Fixpoint trimStart (s : string) : string :=
  match s with
  | "" => ""
  | String c s' => if isWhiteSpace c then trimStart s' else s
  end.

Fixpoint trimEnd (s : string) : string :=
  match s with
  | "" => ""
  | String c s' =>
      match trimEnd s' with
      | "" => if isWhiteSpace c then "" else String c ""
      | t => String c t
      end
  end.

Definition trim (s : string) : string := trimEnd (trimStart s).

(** [s.startsWith(p)]. *)
Fixpoint startsWith (p s : string) : bool :=
  match p, s with
  | "", _ => true
  | String a p', String b s' => Ascii.eqb a b && startsWith p' s'
  | String _ _, "" => false
  end.

(** [s.endsWith(c)] for a one-character [c]. *)
Fixpoint endsWith (c : ascii) (s : string) : bool :=
  match s with
  | "" => false
  | String d "" => Ascii.eqb d c
  | String _ s' => endsWith c s'
  end.

(** [s.includes(c)] for a one-character [c]. *)
Fixpoint includes (c : ascii) (s : string) : bool :=
  match s with
  | "" => false
  | String d s' => Ascii.eqb d c || includes c s'
  end.

Fixpoint removeLast (s : string) : string :=
  match s with
  | "" => ""
  | String _ "" => ""
  | String c s' => String c (removeLast s')
  end.

(** [s.slice(1, -1)]. *)
Definition slice1 (s : string) : string :=
  match s with
  | "" => ""
  | String _ s' => removeLast s'
  end.

(** [s.split(c)] for a one-character separator: at least one piece. *)
Fixpoint split (sep : ascii) (s : string) : list string :=
  match s with
  | "" => [""]
  | String c s' =>
      if Ascii.eqb c sep then "" :: split sep s'
      else match split sep s' with
           | h :: t => String c h :: t
           | [] => [String c ""]
           end
  end.

(** With [i = s.indexOf(c)]: [None] when [i === -1], otherwise
    [s.substring(0, i)] and [s.substring(i + 1)]. *)
Fixpoint cutAt (c : ascii) (s : string) : option (string * string) :=
  match s with
  | "" => None
  | String d s' =>
      if Ascii.eqb d c then Some ("", s')
      else match cutAt c s' with
           | Some (a, b) => Some (String d a, b)
           | None => None
           end
  end.

(** [s.toLowerCase()] on code units below 256, where the lower case of a
    text is that of its characters, one by one: the letters A to Z, and the
    capital letters of the range 192 to 222 (215, the multiplication sign,
    is not one).  Above 255 the lower case of a character can depend on its
    neighbours (the final sigma); such texts are outside the model. *)
Definition lowerChar (c : ascii) : ascii :=
  let n := nat_of_ascii c in
  if ((65 <=? n)%nat && (n <=? 90)%nat)
     || ((192 <=? n)%nat && (n <=? 222)%nat && negb (n =? 215)%nat)
  then ascii_of_nat (n + 32) else c.

Fixpoint toLowerCase (s : string) : string :=
  match s with
  | "" => ""
  | String c s' => String (lowerChar c) (toLowerCase s')
  end.

(** [s.replace(/P/g, '')] for a one-character class [P]. *)
Fixpoint removeEach (p : ascii -> bool) (s : string) : string :=
  match s with
  | "" => ""
  | String c s' => if p c then removeEach p s' else String c (removeEach p s')
  end.

(** *** Numbers

    The numbers of the model are the integers.  [Number] reads an
    optionally signed decimal integer literal, surrounded by white space,
    and the empty text as 0; [None] stands for NaN.  The other numeric
    literals of JavaScript (fractions, exponents, radix prefixes,
    Infinity) are outside the model, which answers NaN on them. *)
Definition digit (c : ascii) : option Z :=
  let n := nat_of_ascii c in
  if (48 <=? n)%nat && (n <=? 57)%nat then Some (Z.of_nat (n - 48)) else None.

Fixpoint digits (acc : Z) (s : string) : option Z :=
  match s with
  | "" => Some acc
  | String c s' =>
      match digit c with
      | Some d => digits (10 * acc + d) s'
      | None => None
      end
  end.

Definition Number (s : string) : option Z :=
  match trim s with
  | "" => Some 0%Z
  | String "-" "" | String "+" "" => None
  | String "-" r => option_map Z.opp (digits 0 r)
  | String "+" r => digits 0 r
  | t => digits 0 t
  end.

(** [n.toString()] and [String(n)] on integers. *)
Definition numberToString (n : Z) : string :=
  NilZero.string_of_int (Z.to_int n).

(** *** Values and objects *)
Inductive value :=
| VNull
| VBool (b : bool)
| VNum (n : Z)
| VStr (s : string)
| VArr (items : list value).

(** [!!v]. *)
Definition truthy (v : value) : bool :=
  match v with
  | VNull => false
  | VBool b => b
  | VNum n => negb (n =? 0)%Z
  | VStr s => negb (String.eqb s "")
  | VArr _ => true
  end.

Definition isArray (v : value) : bool :=
  match v with VArr _ => true | _ => false end.

(** Equality of values, as [===] and [Array.prototype.includes] decide it
    on null, booleans, numbers and strings. *)
Fixpoint value_eqb (a b : value) : bool :=
  match a, b with
  | VNull, VNull => true
  | VBool x, VBool y => Bool.eqb x y
  | VNum x, VNum y => (x =? y)%Z
  | VStr x, VStr y => String.eqb x y
  | VArr xs, VArr ys =>
      (fix go (xs ys : list value) : bool :=
         match xs, ys with
         | [], [] => true
         | x :: xs', y :: ys' => value_eqb x y && go xs' ys'
         | _, _ => false
         end) xs ys
  | _, _ => false
  end.

(** An object with string keys: its own properties in insertion order
    (the order of [Object.entries] for keys that are not array indices). *)
Definition object := list (string * value).

(** The keys for which an object is that list.  An assignment to
    [__proto__] goes to the setter of the prototype and makes no property,
    and [Object.entries] lists the properties whose keys are integer indices
    before the others; [isOrdinaryKey] leaves out [__proto__] and every
    text made of digits only, which covers the integer indices. *)
Fixpoint allDigits (s : string) : bool :=
  match s with
  | "" => true
  | String c s' =>
      match digit c with Some _ => allDigits s' | None => false end
  end.

Definition isOrdinaryKey (k : string) : bool :=
  negb (String.eqb k "__proto__") && (String.eqb k "" || negb (allDigits k)).

(** [o[k]], [None] standing for [undefined]. *)
Fixpoint get (o : object) (k : string) : option value :=
  match o with
  | [] => None
  | (k', v) :: o' => if String.eqb k' k then Some v else get o' k
  end.

(** [o.hasOwnProperty(k)], for an object none of whose properties is
    named [hasOwnProperty]. *)
Definition has (o : object) (k : string) : bool :=
  match get o k with Some _ => true | None => false end.

(** [o[k] = v] for an ordinary key: an existing property keeps its place.
    (An assignment to [__proto__] makes no property.) *)
Fixpoint set (o : object) (k : string) (v : value) : object :=
  match o with
  | [] => [(k, v)]
  | (k', v') :: o' =>
      if String.eqb k' k then (k', v) :: o' else (k', v') :: set o' k v
  end.

(** An object has each key once. *)
Definition wf (o : object) : Prop := NoDup (List.map fst o).

(** [{ ...a, ...b }]: the properties of [b] are assigned, in order, to a
    copy of [a]. *)
Definition spread (a b : object) : object :=
  fold_left (fun acc kv => set acc (fst kv) (snd kv)) b a.

(** [!o[k]]. *)
Definition falsyAt (o : object) (k : string) : bool :=
  match get o k with Some v => negb (truthy v) | None => true end.

(** *** The frontmatter pattern [/^---\s*\n([\s\S]*?)\n---\s*\n/] *)

Definition newline : ascii := "010".

(** [\s*\n] at the start of [t], the star taking as much as it can: what
    follows the last line feed of the leading white space. *)
Fixpoint afterSpaceNewline (t : string) : option string :=
  match t with
  | "" => None
  | String c t' =>
      if isWhiteSpace c then
        match afterSpaceNewline t' with
        | Some r => Some r
        | None => if Ascii.eqb c newline then Some t' else None
        end
      else None
  end.

(** All the ways [\s*\n] matches at the start of [t], in the order the
    backtracking tries them (longest first): what follows each. *)
Fixpoint afterSpaceNewlineAll (t : string) : list string :=
  match t with
  | "" => []
  | String c t' =>
      if isWhiteSpace c
      then afterSpaceNewlineAll t' ++ (if Ascii.eqb c newline then [t'] else [])
      else []
  end.

(** [([\s\S]*?)\n---\s*\n] at the start of [t], the lazy star taking as
    little as it can: the group and what follows the match. *)
Fixpoint lazyUntilClose (t : string) : option (string * string) :=
  match (if startsWith (String newline "---") t
         then afterSpaceNewline (string_drop 4 t) else None) with
  | Some rest => Some ("", rest)
  | None =>
      match t with
      | "" => None
      | String c t' =>
          match lazyUntilClose t' with
          | Some (g, rest) => Some (String c g, rest)
          | None => None
          end
      end
  end.

Fixpoint firstSome {A B} (f : A -> option B) (l : list A) : option B :=
  match l with
  | [] => None
  | x :: l' => match f x with Some y => Some y | None => firstSome f l' end
  end.

(** [content.match(/^---\s*\n([\s\S]*?)\n---\s*\n/)]: group 1 and the
    text after the match, which is what [content.replace] of the same
    pattern by [''] leaves. *)
Definition matchFrontmatter (content : string) : option (string * string) :=
  if startsWith "---" content
  then firstSome lazyUntilClose (afterSpaceNewlineAll (string_drop 3 content))
  else None.

Definition carriageReturn : ascii := "013".

(** [s.includes(sub)]. *)
Fixpoint includesString (sub s : string) : bool :=
  startsWith sub s
  || match s with
     | "" => false
     | String _ s' => includesString sub s'
     end.

(** [lines.join(sep)] for a one-character separator. *)
Fixpoint join (sep : ascii) (l : list string) : string :=
  match l with
  | [] => ""
  | [x] => x
  | x :: l' => x +:+ String sep (join sep l')
  end.

(** [s.repeat(n)]. *)
Fixpoint repeatString (s : string) (n : nat) : string :=
  match n with
  | O => ""
  | S n' => s +:+ repeatString s n'
  end.

End JS.

(** ** src/utils/file-utils.js *)
Module FileUtils.

(** The class of [/[<>:.../\\|?*]/]: the nine characters that are
    replaced, the double quote (code 34) among them. *)
Definition isInvalidChar (c : ascii) : bool :=
  match c with
  | "<"%char | ">"%char | ":"%char | "034"%char | "/"%char | "\"%char
  | "|"%char | "?"%char | "*"%char => true
  | _ => false
  end.

Definition isHyphen (c : ascii) : bool :=
  match c with "-"%char => true | _ => false end.

Definition sanitizeFilename (filename : string) : string :=
  JS.dropEnds isHyphen
    (JS.replaceRuns isHyphen "-" false
      (JS.replaceRuns JS.isWhiteSpace "-" false
        (JS.replaceEach isInvalidChar "-" filename))).

(** Predicates on file names, to state what [sanitizeFilename] returns. *)
Fixpoint allChars (p : ascii -> bool) (s : string) : bool :=
  match s with
  | "" => true
  | String c s' => p c && allChars p s'
  end.

(** No two consecutive hyphens, [prev] telling that a hyphen precedes. *)
Fixpoint noDouble (prev : bool) (s : string) : bool :=
  match s with
  | "" => true
  | String c s' =>
      if isHyphen c then negb prev && noDouble true s' else noDouble false s'
  end.

Definition startsHyphen (s : string) : bool :=
  match s with String c _ => isHyphen c | "" => false end.

Fixpoint endsHyphen (s : string) : bool :=
  match s with
  | "" => false
  | String c "" => isHyphen c
  | String _ s' => endsHyphen s'
  end.

(** The shape every result of [sanitizeFilename] has. *)
Definition isSanitized (s : string) : bool :=
  allChars (fun c => negb (isInvalidChar c)) s
  && allChars (fun c => negb (JS.isWhiteSpace c)) s
  && noDouble false s
  && negb (startsHyphen s)
  && negb (endsHyphen s).

(** [path.basename] and [path.extname] of node, on POSIX paths. *)
Fixpoint afterLastSlash (acc s : string) : string :=
  match s with
  | "" => acc
  | String c s' =>
      if Ascii.eqb c "/" then afterLastSlash s' s' else afterLastSlash acc s'
  end.

Fixpoint stripTrailingSlashes (s : string) : string :=
  match s with
  | "" => ""
  | String c s' =>
      match stripTrailingSlashes s' with
      | "" => if Ascii.eqb c "/" then "" else String c ""
      | t => String c t
      end
  end.

Definition basename (p : string) : string :=
  let q := stripTrailingSlashes p in afterLastSlash q q.

(** The text from the last dot of a name on, when that dot is not the first
    character. *)
Fixpoint fromLastDot (s : string) : option string :=
  match s with
  | "" => None
  | String c s' =>
      match fromLastDot s' with
      | Some e => Some e
      | None => if Ascii.eqb c "." then Some s else None
      end
  end.

Definition extname (p : string) : string :=
  match basename p with
  | "" | ".." => ""
  | String _ rest => match fromLastDot rest with Some e => e | None => "" end
  end.

Definition isMarkdownFile (filePath : string) : bool :=
  let ext := JS.toLowerCase (extname filePath) in
  existsb (String.eqb ext) [".md"; ".markdown"; ".mdown"; ".mkd"].

(** *** analyzeMarkdownFile: frontmatter and tags

    The word count, the headings and the links of the analysis are not
    part of the model. *)

Definition isLineTerminator (c : ascii) : bool :=
  match c with "010"%char | "013"%char => true | _ => false end.

Definition isQuote (c : ascii) : bool :=
  match c with "034"%char | "'"%char => true | _ => false end.

Fixpoint existsChar (p : ascii -> bool) (s : string) : bool :=
  match s with
  | "" => false
  | String c s' => p c || existsChar p s'
  end.

Fixpoint lastChar (s : string) : string :=
  match s with
  | "" => ""
  | String c "" => s
  | String _ s' => lastChar s'
  end.

(** The pattern of a frontmatter line: white space, a group of one or more
    characters other than a colon, a colon, white space, and a group of any
    characters up to the end of the line.  Groups 1 and 2.  The colon is the
    first one of the line and something stands before it; group 1 starts
    after the leading white space (with its last character when there is
    nothing else); group 2 starts after the white space that follows the
    colon and has to reach the end of the line, which the dot allows when no
    line terminator is left. *)
Definition matchProperty (line : string) : option (string * string) :=
  match JS.cutAt ":" line with
  | None => None
  | Some (before, after) =>
      if String.eqb before "" then None
      else
        let g2 := JS.trimStart after in
        if existsChar isLineTerminator g2 then None
        else
          let g1 := match JS.trimStart before with
                    | "" => lastChar before
                    | g => g
                    end in
          Some (g1, g2)
  end.

(** The replacement of a leading and of a trailing quote, double or
    single, by nothing. *)
Definition stripQuotes (s : string) : string := JS.dropEnds isQuote s.

(** The typed value of a frontmatter line. *)
Definition parsePropertyValue (text : string) : JS.value :=
  if JS.startsWith "[" text && JS.endsWith "]" text then
    JS.VArr (List.map (fun s => JS.VStr (stripQuotes (JS.trim s)))
                      (JS.split "," (JS.slice1 text)))
  else if String.eqb text "true" || String.eqb text "false" then
    JS.VBool (String.eqb text "true")
  else match JS.Number text with
       | Some n =>
           if String.eqb text "" then JS.VStr (stripQuotes text) else JS.VNum n
       | None => JS.VStr (stripQuotes text)
       end.

Definition parsePropertyLine (fm : JS.object) (line : string) : JS.object :=
  match matchProperty line with
  | Some (g1, g2) => JS.set fm (JS.trim g1) (parsePropertyValue (JS.trim g2))
  | None => fm
  end.

(** The class [[a-zA-Z0-9_-]]. *)
Definition isTagChar (c : ascii) : bool :=
  let n := nat_of_ascii c in
  ((97 <=? n)%nat && (n <=? 122)%nat) || ((65 <=? n)%nat && (n <=? 90)%nat)
  || ((48 <=? n)%nat && (n <=? 57)%nat)
  || Ascii.eqb c "_" || Ascii.eqb c "-".

Definition emitTag (cur : option string) : list string :=
  match cur with
  | Some (String c t) => [String c t]
  | _ => []
  end.

(** Group 1 of the matches of [/#([a-zA-Z0-9_-]+)/g], left to right.  [cur]
    holds the tag characters read since a [#], when the scan is after one. *)
Fixpoint scanTags (cur : option string) (s : string) : list string :=
  match s with
  | "" => emitTag cur
  | String c s' =>
      match cur with
      | Some t =>
          if isTagChar c then scanTags (Some (t +:+ String c "")) s'
          else emitTag cur
                 ++ scanTags (if Ascii.eqb c "#" then Some "" else None) s'
      | None => scanTags (if Ascii.eqb c "#" then Some "" else None) s'
      end
  end.

Definition hashtags (body : string) : list string := scanTags None body.

(** [if (!tags.includes(t)) tags.push(t)]. *)
Definition pushUnique (tags : list JS.value) (t : JS.value) : list JS.value :=
  if existsb (JS.value_eqb t) tags then tags else tags ++ [t].

(** What the [tags] property of the frontmatter adds: nothing when it is
    absent or falsy, its elements when it is an array, itself otherwise. *)
Definition frontmatterTags (fm : JS.object) : list JS.value :=
  match JS.get fm "tags" with
  | Some v =>
      if JS.truthy v
      then match v with JS.VArr items => items | _ => [v] end
      else []
  | None => []
  end.

Record Analysis := {
  lineCount : nat;
  characterCount : nat;
  frontmatter : JS.object;
  frontmatterRaw : option string;
  tags : list JS.value
}.

Definition analyzeMarkdownFile (content : string) : Analysis :=
  let frontmatterMatch := JS.matchFrontmatter content in
  let fm :=
    match frontmatterMatch with
    | Some (raw, _) => fold_left parsePropertyLine (JS.split JS.newline raw) []
    | None => []
    end in
  let contentWithoutFrontmatter :=
    match frontmatterMatch with
    | Some (_, rest) => rest
    | None => content
    end in
  let inlineTags :=
    fold_left pushUnique
      (List.map JS.VStr (hashtags contentWithoutFrontmatter)) [] in
  {| lineCount := length (JS.split JS.newline content);
     characterCount := String.length content;
     frontmatter := fm;
     frontmatterRaw := option_map fst frontmatterMatch;
     tags := fold_left pushUnique (frontmatterTags fm) inlineTags |}.

(** The body the tags are searched in. *)
Definition bodyOf (content : string) : string :=
  match JS.matchFrontmatter content with
  | Some (_, rest) => rest
  | None => content
  end.

(** [path.extname(filePath).slice(1).toLowerCase()]. *)
Definition getFileExtension (filePath : string) : string :=
  JS.toLowerCase (JS.string_drop 1 (extname filePath)).

Definition generateFilenameFromTitle (title : string) : string :=
  sanitizeFilename
    (JS.replaceRuns JS.isWhiteSpace "-" false (JS.toLowerCase title)).

(** *** [path.basename(path, suffix)] of node, on POSIX paths

    The loop of the library, which reads the path from its last character
    to its first: [start] and [end_] delimit the name, [extIdx] is the
    index in the suffix of the character that is expected next, [None]
    standing for -1. *)
Record BasenameState := {
  start : nat;
  end_ : option nat;
  matchedSlash : bool;
  extIdx : option nat;
  firstNonSlashEnd : option nat
}.

(** One turn of the loop, at the index [i] which holds [c]; the boolean
    tells that the loop breaks. *)
Definition basenameStep (suffix : string) (i : nat) (c : ascii)
    (st : BasenameState) : BasenameState * bool :=
  if Ascii.eqb c "/" then
    if negb (matchedSlash st)
    then ({| start := i + 1; end_ := end_ st; matchedSlash := matchedSlash st;
             extIdx := extIdx st; firstNonSlashEnd := firstNonSlashEnd st |},
          true)
    else (st, false)
  else
    let st1 :=
      match firstNonSlashEnd st with
      | None =>
          {| start := start st; end_ := end_ st; matchedSlash := false;
             extIdx := extIdx st; firstNonSlashEnd := Some (i + 1) |}
      | Some _ => st
      end in
    match extIdx st1 with
    | Some k =>
        if match String.get k suffix with
           | Some d => Ascii.eqb c d
           | None => false
           end
        then
          match k with
          | O =>
              ({| start := start st1; end_ := Some i;
                  matchedSlash := matchedSlash st1; extIdx := None;
                  firstNonSlashEnd := firstNonSlashEnd st1 |}, false)
          | S k' =>
              ({| start := start st1; end_ := end_ st1;
                  matchedSlash := matchedSlash st1; extIdx := Some k';
                  firstNonSlashEnd := firstNonSlashEnd st1 |}, false)
          end
        else
          ({| start := start st1; end_ := firstNonSlashEnd st1;
              matchedSlash := matchedSlash st1; extIdx := None;
              firstNonSlashEnd := firstNonSlashEnd st1 |}, false)
    | None => (st1, false)
    end.

(** The loop, on the characters of the path before the index [i], last
    first. *)
Fixpoint basenameLoop (suffix : string) (reversed : list ascii) (i : nat)
    (st : BasenameState) : BasenameState :=
  match reversed, i with
  | c :: rest, S i' =>
      let (st', stop) := basenameStep suffix i' c st in
      if stop then st' else basenameLoop suffix rest i' st'
  | _, _ => st
  end.

Definition basenameExt (p suffix : string) : string :=
  let n := String.length p in
  if (0 <? String.length suffix)%nat && (String.length suffix <=? n)%nat then
    if String.eqb suffix p then ""
    else
      let st :=
        basenameLoop suffix (rev (list_ascii_of_string p)) n
          {| start := 0; end_ := None; matchedSlash := true;
             extIdx := Some (String.length suffix - 1);
             firstNonSlashEnd := None |} in
      let stop :=
        match end_ st with
        | Some e =>
            if (start st =? e)%nat
            then match firstNonSlashEnd st with Some f => f | None => 0%nat end
            else e
        | None => n
        end in
      String.substring (start st) (stop - start st) p
  else basename p.

End FileUtils.

(** ** src/utils/markdown-utils.js *)
Module MarkdownUtils.
Import JS.

Definition dquote : ascii := "034".
Definition squote : ascii := "'".

(** [value.startsWith(q) && value.endsWith(q)]. *)
Definition isWrapped (l r : ascii) (value : string) : bool :=
  startsWith (String l "") value && endsWith r value.

(** [parseYamlValue]; the function calls itself on the items of an array,
    each shorter than the array text by two characters at least, so that a
    [fuel] of the length of the text is never used up.  The last test of
    the source (an ISO date) returns the text as the fall-through does. *)
Fixpoint parseYamlValue_fuel (fuel : nat) (text : string) : value :=
  if isWrapped dquote dquote text || isWrapped squote squote text
  then VStr (slice1 text)
  else if String.eqb text "true" then VBool true
  else if String.eqb text "false" then VBool false
  else if String.eqb text "null" then VNull
  else if isWrapped "[" "]" text then
    let arrayContent := slice1 text in
    if String.eqb (trim arrayContent) "" then VArr []
    else match fuel with
         | O => VArr []
         | S fuel' =>
             VArr (List.map (fun item => parseYamlValue_fuel fuel' (trim item))
                            (split "," arrayContent))
         end
  else match Number text with
       | Some n => if String.eqb text "" then VStr text else VNum n
       | None => VStr text
       end.

Definition parseYamlValue (text : string) : value :=
  parseYamlValue_fuel (String.length text) text.

(** The body of the loop of [parseYamlLike]. *)
Definition parseYamlLine (result : object) (line : string) : object :=
  let trimmed := trim line in
  if String.eqb trimmed "" || startsWith "#" trimmed then result
  else match cutAt ":" trimmed with
       | None => result
       | Some (k, v) => set result (trim k) (parseYamlValue (trim v))
       end.

Definition parseYamlLike (yamlContent : string) : object :=
  fold_left parseYamlLine (split newline yamlContent) [].

(** A backslash is put before every double quote. *)
Fixpoint escapeQuotes (s : string) : string :=
  match s with
  | "" => ""
  | String c s' =>
      if Ascii.eqb c dquote then String "\" (String dquote (escapeQuotes s'))
      else String c (escapeQuotes s')
  end.

(** [stringifyYamlValue]; the last line of the source, [String(value)],
    is for the values that are none of these (a date, a nested object),
    which the values of the model do not include. *)
Fixpoint stringifyYamlValue (v : value) : string :=
  match v with
  | VNull => "null"
  | VBool b => if b then "true" else "false"
  | VNum n => numberToString n
  | VArr [] => "[]"
  | VArr items =>
      "[" +:+ String.concat ", " (List.map stringifyYamlValue items) +:+ "]"
  | VStr s =>
      if includes ":" s || includes "#" s || includes newline s
      then String dquote (escapeQuotes s) +:+ String dquote ""
      else s
  end.

(** [stringifyYaml(obj)], with the default [indent = 0]. *)
Definition stringifyYaml (obj : object) : string :=
  fold_left
    (fun result kv =>
       result +:+ fst kv +:+ ": " +:+ stringifyYamlValue (snd kv)
         +:+ String newline "")
    obj "".

Record Parsed := {
  frontmatter : object;
  content : string;
  frontmatterRaw : option string
}.

Definition manualParse (text : string) : Parsed :=
  match matchFrontmatter text with
  | Some (raw, rest) =>
      {| frontmatter := parseYamlLike raw; content := rest;
         frontmatterRaw := Some raw |}
  | None => {| frontmatter := []; content := text; frontmatterRaw := None |}
  end.

(** [parseMarkdown]: the gray-matter library is the parser, [matter] giving
    what it returns and [None] when it throws; then the manual parser takes
    over. *)
Definition parseMarkdown (matter : string -> option Parsed) (text : string)
    : Parsed :=
  match matter text with
  | Some parsed => parsed
  | None => manualParse text
  end.

Definition stringifyMarkdown (fm : object) (body : string) : string :=
  match fm with
  | [] => body
  | _ =>
      "---" +:+ String newline (stringifyYaml fm) +:+ "---"
        +:+ String newline (String newline body)
  end.

(** Two frontmatter mappings are parse-equivalent when they have the same
    keys with the same typed values. *)
Definition parseEquivalent (a b : object) : Prop :=
  forall k, get a k = get b k.

(** *** Headings and tags *)

(** The class [\w]. *)
Definition isWordChar (c : ascii) : bool :=
  let n := nat_of_ascii c in
  ((97 <=? n)%nat && (n <=? 122)%nat) || ((65 <=? n)%nat && (n <=? 90)%nat)
  || ((48 <=? n)%nat && (n <=? 57)%nat) || Ascii.eqb c "_".

(** The class [[^\w\s-]]. *)
Definition isIdNoise (c : ascii) : bool :=
  negb (isWordChar c || isWhiteSpace c || FileUtils.isHyphen c).

Definition generateHeadingId (text : string) : string :=
  dropEnds FileUtils.isHyphen
    (replaceRuns FileUtils.isHyphen "-" false
      (replaceRuns isWhiteSpace "-" false
        (removeEach isIdNoise (toLowerCase text)))).

Fixpoint countHashes (s : string) : nat * string :=
  match s with
  | String "#" s' => let (n, rest) := countHashes s' in (S n, rest)
  | _ => (0, s)
  end.

(** The pattern of a heading line: one to six [#] from the start of the
    line, white space, and a group of one character at least up to the end
    of the line.  The number of [#] and the group.  The [#] are all the
    leading ones; the white space takes all it can and leaves the group one
    character, its last, when nothing else follows; the dot of the group
    matches no line terminator. *)
Definition matchHeading (line : string) : option (nat * string) :=
  let (n, rest) := countHashes line in
  if (1 <=? n)%nat && (n <=? 6)%nat then
    match rest with
    | String c rest' =>
        if isWhiteSpace c then
          match trimStart rest with
          | "" =>
              match rest' with
              | "" => None
              | _ =>
                  if FileUtils.existsChar FileUtils.isLineTerminator
                       (FileUtils.lastChar rest)
                  then None else Some (n, FileUtils.lastChar rest)
              end
          | group =>
              if FileUtils.existsChar FileUtils.isLineTerminator group
              then None else Some (n, group)
          end
        else None
    | "" => None
    end
  else None.

Record Heading := {
  level : nat;
  text : string;
  line : nat;
  id : string
}.

(** The loop of [extractHeadings], from the line of index [i]. *)
Fixpoint headingsFrom (i : nat) (lines : list string) : list Heading :=
  match lines with
  | [] => []
  | l :: lines' =>
      match matchHeading l with
      | Some (n, group) =>
          {| level := n; text := trim group; line := i + 1;
             id := generateHeadingId (trim group) |}
          :: headingsFrom (S i) lines'
      | None => headingsFrom (S i) lines'
      end
  end.

Definition extractHeadings (content : string) : list Heading :=
  headingsFrom 0 (split newline content).

(** [tags.add(t)] on a [Set], kept in insertion order. *)
Definition addToSet (tags : list string) (t : string) : list string :=
  if existsb (String.eqb t) tags then tags else tags ++ [t].

Definition extractTags (content : string) : list string :=
  fold_left addToSet (FileUtils.hashtags content) [].

(** The class [[a-z0-9_-]], to state what [generateHeadingId] returns. *)
Definition isIdChar (c : ascii) : bool :=
  let n := nat_of_ascii c in
  ((97 <=? n)%nat && (n <=? 122)%nat) || ((48 <=? n)%nat && (n <=? 57)%nat)
  || Ascii.eqb c "_" || Ascii.eqb c "-".

(** *** Frontmatter that survives a round trip *)

(** A key that a line of [stringifyYaml] gives back to [parseYamlLike]: it
    is not empty, has no white space at its ends, no colon and no line
    feed, does not start a comment, and is a key that [result[key] = value]
    stores as a property in its turn (not [__proto__], not an integer
    index). *)
Definition isPlainKey (k : string) : bool :=
  negb (String.eqb k "") && String.eqb (trim k) k && negb (includes ":" k)
  && negb (includes newline k) && negb (startsWith "#" k)
  && isOrdinaryKey k.

(** Whether a text starts as a numeric literal of JavaScript does: with a
    digit, a sign, a dot, or the I of Infinity. *)
Definition startsNumeric (s : string) : bool :=
  match s with
  | String c _ =>
      match digit c with Some _ => true | None => false end
      || Ascii.eqb c "+" || Ascii.eqb c "-" || Ascii.eqb c "." || Ascii.eqb c "I"
  | "" => false
  end.

(** A scalar whose printing and reading stay within the numbers of the
    model: an integer that JavaScript holds exactly and prints with all
    its digits, a string that no reading takes for a number (it does not
    start as one, or it is printed between quotes, which [quoted] allows). *)
Definition isModelScalar (quoted : bool) (v : value) : bool :=
  match v with
  | VNull | VBool _ => true
  | VNum n => (Z.abs n <? 9007199254740992)%Z
  | VStr s =>
      (quoted && (includes ":" s || includes "#" s || includes newline s))
      || negb (startsNumeric s)
  | VArr _ => false
  end.

(** A scalar, or an array of scalars. *)
Definition isModelValue (v : value) : bool :=
  match v with
  | VArr items => forallb (isModelScalar false) items
  | _ => isModelScalar true v
  end.

(** A value whose text, as [stringifyYamlValue] prints it, stays on one
    line, has no white space at its ends, and is read back by
    [parseYamlValue] as the value. *)
Definition isStableValue (v : value) : bool :=
  let text := stringifyYamlValue v in
  isModelValue v && negb (includes newline text) && String.eqb (trim text) text
  && value_eqb (parseYamlValue text) v.

(** *** generateTableOfContents *)

(** What the loop adds for a heading. *)
Definition tocLine (heading : Heading) : string :=
  repeatString "  " (level heading - 1) +:+ "- "
    +:+ "[" +:+ text heading +:+ "](#" +:+ id heading +:+ ")"
    +:+ String newline "".

Definition generateTableOfContents (content : string) : string :=
  trim (fold_left (fun toc heading => toc +:+ tocLine heading)
                  (extractHeadings content) "").

End MarkdownUtils.

(** ** src/core/property-manager.js *)
Module PropertyManager.
Import JS.

Inductive PropertyType := TDate | TArray | TString | TNumber.

Record Config := { type : PropertyType; aliases : list string }.

(** [this.standardProperties], a Map: its entries in insertion order. *)
Definition standardProperties : list (string * Config) :=
  [ ("created", {| type := TDate;
                   aliases := ["date-created"; "dateCreated"; "creation-date"] |});
    ("modified", {| type := TDate;
                    aliases := ["date-modified"; "dateModified"; "last-modified"] |});
    ("tags", {| type := TArray; aliases := ["tag"; "categories"; "category"] |});
    ("title", {| type := TString; aliases := ["name"; "heading"] |});
    ("author", {| type := TString; aliases := ["creator"; "writer"] |});
    ("status", {| type := TString; aliases := ["state"] |});
    ("priority", {| type := TNumber; aliases := ["importance"] |});
    ("type", {| type := TString; aliases := ["kind"; "category"] |});
    ("description", {| type := TString; aliases := ["summary"; "excerpt"] |});
    ("source", {| type := TString; aliases := ["reference"; "url"; "link"] |}) ].

(** [this.standardProperties.has(name)]. *)
Definition isStandard (name : string) : bool :=
  existsb (fun entry => String.eqb (fst entry) name) standardProperties.

(** The class [[-_\s]]. *)
Definition isSeparator (c : ascii) : bool :=
  Ascii.eqb c "-" || Ascii.eqb c "_" || isWhiteSpace c.

Definition normalize (str : string) : string :=
  removeEach isSeparator (toLowerCase str).

Definition arePropertiesSimilar (prop1 prop2 : string) : bool :=
  String.eqb (normalize prop1) (normalize prop2).

Definition findStandardProperty (propertyName : string) : string :=
  let lowerName := toLowerCase propertyName in
  if isStandard lowerName then lowerName
  else
    match List.find (fun entry => existsb (String.eqb lowerName) (aliases (snd entry)))
                    standardProperties with
    | Some entry => fst entry
    | None =>
        match List.find (fun entry => arePropertiesSimilar lowerName (fst entry))
                        standardProperties with
        | Some entry => fst entry
        | None => propertyName
        end
    end.

(** The canonical names. *)
Definition standardNames : list string := List.map fst standardProperties.

Record Mapping := { from : string; to : string }.

(** The body of the loop of [standardizePropertyNames]. *)
Definition standardizeEntry (acc : object * list Mapping) (kv : string * value)
    : object * list Mapping :=
  let standardKey := findStandardProperty (fst kv) in
  (set (fst acc) standardKey (snd kv),
   if String.eqb standardKey (fst kv) then snd acc
   else snd acc ++ [{| from := fst kv; to := standardKey |}]).

Definition standardizePropertyNames (frontmatter : object)
    : object * list Mapping :=
  fold_left standardizeEntry frontmatter ([], []).

(** *** Dates of the file statistics

    A date is its time value, the milliseconds since the epoch. *)
Definition Date := Z.

(** The civil date of a day number (days since 1970-01-01), in the
    proleptic Gregorian calendar. *)
Definition civilFromDays (days : Z) : Z * Z * Z :=
  let z := (days + 719468)%Z in
  let era := (z / 146097)%Z in
  let doe := (z - era * 146097)%Z in
  let yoe := ((doe - doe / 1460 + doe / 36524 - doe / 146096) / 365)%Z in
  let doy := (doe - (365 * yoe + yoe / 4 - yoe / 100))%Z in
  let mp := ((5 * doy + 2) / 153)%Z in
  let d := (doy - (153 * mp + 2) / 5 + 1)%Z in
  let m := (if (mp <? 10)%Z then mp + 3 else mp - 9)%Z in
  let y := (yoe + era * 400 + (if (m <=? 2)%Z then 1 else 0))%Z in
  (y, m, d).

Fixpoint zeros (n : nat) : string :=
  match n with O => "" | S n' => String "0" (zeros n') end.

(** [String(n).padStart(width, '0')] for [n >= 0]. *)
Definition padZero (width : nat) (n : Z) : string :=
  let digits := numberToString n in
  zeros (width - String.length digits) +:+ digits.

(** [date.toISOString().split('T')[0]]: four digits for the years 0 to
    9999, a sign and six digits for the others. *)
Definition isoDate (date : Date) : string :=
  let '(y, m, d) := civilFromDays (date / 86400000) in
  let year :=
    if (0 <=? y)%Z && (y <=? 9999)%Z then padZero 4 y
    else String (if (y <? 0)%Z then "-" else "+")%char (padZero 6 (Z.abs y)) in
  year +:+ "-" +:+ padZero 2 m +:+ "-" +:+ padZero 2 d.

(** The [fs.Stats] fields that are read; [None] is a field that is not
    there. *)
Record Stats := { birthtime : option Date; mtime : option Date }.

Record Addition := { property : string; value_ : value }.

(** One of the two date steps of [addMissingProperties]:
    [if (!updated.key && fileStats?.field) ...]. *)
Definition addDate (key : string) (field : option Date)
    (acc : object * list Addition) : object * list Addition :=
  match field with
  | Some date =>
      if falsyAt (fst acc) key then
        let text := VStr (isoDate date) in
        (set (fst acc) key text,
         snd acc ++ [{| property := key; value_ := text |}])
      else acc
  | None => acc
  end.

Definition addTags (acc : object * list Addition) : object * list Addition :=
  if falsyAt (fst acc) "tags" then
    (set (fst acc) "tags" (VArr []),
     snd acc ++ [{| property := "tags"; value_ := VArr [] |}])
  else acc.

(** Whether a date step fills its key. *)
Definition fillsDate (key : string) (field : option Date) (o : object) : bool :=
  match field with
  | Some _ => falsyAt o key
  | None => false
  end.

Definition addMissingProperties (frontmatter : object) (filePath : string)
    (fileStats : option Stats) : object * list Addition :=
  let updated := frontmatter in
  let s1 := addDate "created" (fileStats ≫= birthtime) (updated, []) in
  let s2 := addDate "modified" (fileStats ≫= mtime) s1 in
  addTags s2.

(** *** sortProperties *)

Definition propertyOrder : list string :=
  ["title"; "created"; "modified"; "author"; "tags"; "type"; "status";
   "priority"; "description"; "source"].

(** The body of the first loop of [sortProperties]:
    [if (frontmatter.hasOwnProperty(prop)) sorted[prop] = frontmatter[prop]]. *)
Definition takeOrdered (frontmatter sorted : object) (prop : string) : object :=
  match get frontmatter prop with
  | Some v => set sorted prop v
  | None => sorted
  end.

(** The body of the second loop:
    [if (!sorted.hasOwnProperty(key)) sorted[key] = value]. *)
Definition takeRemaining (sorted : object) (kv : string * value) : object :=
  if has sorted (fst kv) then sorted else set sorted (fst kv) (snd kv).

Definition sortProperties (frontmatter : object) : object :=
  fold_left takeRemaining frontmatter
    (fold_left (takeOrdered frontmatter) propertyOrder []).

(** The frontmatters on which [sortProperties] returns, and returns that:
    no key is [hasOwnProperty] (with such a property the call
    [frontmatter.hasOwnProperty(prop)] finds a value that is no function and
    throws a TypeError), and every key is an ordinary one, which
    [sorted[key] = value] stores in its turn. *)
Definition isSortable (frontmatter : object) : bool :=
  forallb (fun kv => isOrdinaryKey (fst kv)
                     && negb (String.eqb (fst kv) "hasOwnProperty"))
          frontmatter.

(** To say what [sortProperties] returns: whether a key is one of the
    ordered ones, and the ordered properties an object has, in that order. *)
Definition isOrdered (key : string) : bool :=
  existsb (String.eqb key) propertyOrder.

Fixpoint entriesOf (frontmatter : object) (props : list string) : object :=
  match props with
  | [] => []
  | prop :: props' =>
      match get frontmatter prop with
      | Some v => (prop, v) :: entriesOf frontmatter props'
      | None => entriesOf frontmatter props'
      end
  end.

Definition orderedEntries (frontmatter : object) : object :=
  entriesOf frontmatter propertyOrder.

End PropertyManager.

(** ** File system and logger effects *)
Module Effect.

Inductive Error :=
| ENOENT (path : string)
| EACCES (path : string)
| EEXIST (path : string)
| ENOTDIR (path : string).

Inductive LogEntry :=
| LogInfo (msg : string)
| LogWarn (msg : string)
| LogError (msg : string)
| LogSuccess (msg : string)
| LogProgress (current total : nat).

(** The files that can be read, each path with its content, and what the
    logger has printed.  Directories are implicit: the state holds none, a
    path is that of a directory when files lie below it. *)
Record World := { files : gmap string string; log : list LogEntry }.

Inductive Completion (A : Type) :=
| Returns (a : A)
| Throws (e : Error).
Arguments Returns {A} a.
Arguments Throws {A} e.

Definition M (A : Type) : Type := World -> World * Completion A.

Definition ret {A} (a : A) : M A := fun w => (w, Returns a).

Definition throw {A} (e : Error) : M A := fun w => (w, Throws e).

Definition bind {A B} (c : M A) (k : A -> M B) : M B :=
  fun w =>
    match c w with
    | (w', Returns a) => k a w'
    | (w', Throws e) => (w', Throws e)
    end.

(** [try { c } catch (error) { handler }]. *)
Definition tryCatch {A} (c : M A) (handler : Error -> M A) : M A :=
  fun w =>
    match c w with
    | (w', Returns a) => (w', Returns a)
    | (w', Throws e) => handler e w'
    end.

Definition logLine (entry : LogEntry) : M unit :=
  fun w => ({| files := files w; log := log w ++ [entry] |}, Returns tt).

(** [fs.readFile(path, 'utf-8')]: the text of a file; on any other path
    the call throws.  The model names the error ENOENT, whatever is in the
    way: the library reports EISDIR on a directory. *)
Definition readFile (path : string) : M string :=
  fun w =>
    match files w !! path with
    | Some text => (w, Returns text)
    | None => (w, Throws (ENOENT path))
    end.

Definition writeFile (path text : string) : M unit :=
  fun w => ({| files := <[path := text]> (files w); log := log w |}, Returns tt).

(** [fs.copy(src, dest)] for the path of a file, which overwrites. *)
Definition copy (src dest : string) : M unit :=
  fun w =>
    match files w !! src with
    | Some text =>
        ({| files := <[dest := text]> (files w); log := log w |}, Returns tt)
    | None => (w, Throws (ENOENT src))
    end.

(** Whether a path is that of a file. *)
Definition isFile (fs : gmap string string) (path : string) : bool :=
  match fs !! path with Some _ => true | None => false end.

(** The paths above a path: for [a/b/c], the paths [a] and [a/b]. *)
Fixpoint aboveFrom (before s : string) : list string :=
  match s with
  | "" => []
  | String c s' =>
      (if Ascii.eqb c "/" then [before] else [])
      ++ aboveFrom (before +:+ String c "") s'
  end.

Definition above (path : string) : list string := aboveFrom "" path.

(** Why a directory cannot be made: its path is that of a file, or a path
    above it is. *)
Definition dirError (fs : gmap string string) (dir : string) : option Error :=
  if isFile fs dir then Some (EEXIST dir)
  else if existsb (isFile fs) (above dir) then Some (ENOTDIR dir)
  else None.

(** [fs.ensureDir(dir)]: where directories are implicit there is nothing to
    make, but the call throws when the directory cannot be. *)
Definition ensureDir (dir : string) : M unit :=
  fun w =>
    match dirError (files w) dir with
    | Some e => (w, Throws e)
    | None => (w, Returns tt)
    end.

(** [fs.move(src, dest)] for the path of a file, which does not overwrite:
    it fails when no file is at the source and when the destination is
    taken. *)
Definition move (src dest : string) : M unit :=
  fun w =>
    match files w !! src with
    | None => (w, Throws (ENOENT src))
    | Some text =>
        match files w !! dest with
        | Some _ => (w, Throws (EEXIST dest))
        | None =>
            ({| files := <[dest := text]> (delete src (files w));
                log := log w |}, Returns tt)
        end
    end.

(** [fs.remove(path)] for the path of a file; a path at which nothing is
    is no error. *)
Definition remove (path : string) : M unit :=
  fun w => ({| files := delete path (files w); log := log w |}, Returns tt).

(** Nothing is at a path: no file there, and no file below it, as there is
    below a directory. *)
Definition nothingAt (fs : gmap string string) (path : string) : Prop :=
  forall q, q = path \/ JS.startsWith (path +:+ "/") q = true -> fs !! q = None.

End Effect.

Declare Scope effect_scope.
Delimit Scope effect_scope with effect.
Notation "'let!' x ':=' c 'in' k" := (Effect.bind c (fun x => k))
  (at level 10, x name, c at level 100, k at level 200) : effect_scope.
Notation "'do!' c 'in' k" := (Effect.bind c (fun _ => k))
  (at level 10, c at level 100, k at level 200) : effect_scope.

(** ** src/core/file-processor.js *)
Module FileProcessor.
Import JS Effect.
Local Open Scope effect_scope.

Record UpdateResult := { success : bool; backupPath : string }.

Record MoveResult := { moved : bool; newPath : string }.

(** [updateFile]; [now] is what [Date.now()] answers. *)
Definition updateFile (now : Z) (filePath newContent : string) : M UpdateResult :=
  tryCatch
    (let backup := filePath +:+ ".backup." +:+ numberToString now in
     do! copy filePath backup in
     do! writeFile filePath newContent in
     do! logLine (LogInfo ("Updated file: " +:+ filePath)) in
     ret {| success := true; backupPath := backup |})
    (fun error =>
       do! logLine (LogError ("Error updating file " +:+ filePath +:+ ":")) in
       throw error).

Definition updateFileFrontmatter (matter : string -> option MarkdownUtils.Parsed)
    (now : Z) (filePath : string) (newFrontmatter : object) : M UpdateResult :=
  tryCatch
    (let! text := readFile filePath in
     let parsed := MarkdownUtils.parseMarkdown matter text in
     let updatedContent :=
       MarkdownUtils.stringifyMarkdown
         (spread (MarkdownUtils.frontmatter parsed) newFrontmatter)
         (MarkdownUtils.content parsed) in
     updateFile now filePath updatedContent)
    (fun error =>
       do! logLine (LogError ("Error updating frontmatter for " +:+ filePath +:+ ":")) in
       throw error).

(** [path.dirname], on POSIX paths, for a path with a directory part. *)
Fixpoint beforeLastSlash (s : string) : option string :=
  match s with
  | "" => None
  | String c s' =>
      match beforeLastSlash s' with
      | Some d => Some (String c d)
      | None => if Ascii.eqb c "/" then Some "" else None
      end
  end.

Definition dirname (p : string) : string :=
  match beforeLastSlash p with
  | Some "" => "/"
  | Some d => d
  | None => "."
  end.

Definition moveFile (oldPath newPath : string) : M MoveResult :=
  tryCatch
    (do! ensureDir (dirname newPath) in
     do! move oldPath newPath in
     do! logLine (LogInfo ("Moved file: " +:+ oldPath +:+ " -> " +:+ newPath)) in
     ret {| moved := true; newPath := newPath |})
    (fun error =>
       do! logLine (LogError ("Error moving file " +:+ oldPath +:+ " to "
                               +:+ newPath +:+ ":")) in
       throw error).

(** *** processFile and processFiles *)

(** The fields of [fs.Stats] that [processFile] reads. *)
Record FileStats := {
  statSize : Z;
  birthtime : PropertyManager.Date;
  mtime : PropertyManager.Date
}.

(** The record of a file.  [processFile] spreads the result of
    [parseMarkdown] over it last, so that [content] is the body the parser
    gives and not the text read.  The tools also read [tags] and [headings],
    which [processFile] does not set: [None] is [undefined]. *)
Record FileInfo := {
  path : string;
  name : string;
  extension : string;
  size : Z;
  created : PropertyManager.Date;
  modified : PropertyManager.Date;
  content : string;
  frontmatter : object;
  frontmatterRaw : option string;
  tags : option (list string);
  headings : option (list MarkdownUtils.Heading)
}.

(** [processFile]; [statOf] is what [fs.stat] answers for a file that can
    be read. *)
Definition processFile (matter : string -> option MarkdownUtils.Parsed)
    (statOf : string -> FileStats) (filePath : string) : M FileInfo :=
  tryCatch
    (let! text := readFile filePath in
     let stats := statOf filePath in
     let parsed := MarkdownUtils.parseMarkdown matter text in
     ret {| path := filePath;
            name := FileUtils.basenameExt filePath ".md";
            extension := FileUtils.extname filePath;
            size := statSize stats;
            created := birthtime stats;
            modified := mtime stats;
            content := MarkdownUtils.content parsed;
            frontmatter := MarkdownUtils.frontmatter parsed;
            frontmatterRaw := MarkdownUtils.frontmatterRaw parsed;
            tags := None;
            headings := None |})
    (fun error =>
       do! logLine (LogError ("Error processing file " +:+ filePath +:+ ":")) in
       throw error).

Record ProcessError := { errorPath : string; error : Error }.

(** The two lists of [processFiles]. *)
Record Processed := { results : list FileInfo; errors : list ProcessError }.

(** The body of the loop of [processFiles]; [onProgress] tells that the
    caller has given the callback, which logs the progress. *)
Definition processOne (matter : string -> option MarkdownUtils.Parsed)
    (statOf : string -> FileStats) (onProgress : bool) (total : nat)
    (acc : Processed) (filePath : string) : M Processed :=
  tryCatch
    (let! fileInfo := processFile matter statOf filePath in
     let results' := results acc ++ [fileInfo] in
     do! (if onProgress then logLine (LogProgress (length results') total)
          else ret tt) in
     ret {| results := results'; errors := errors acc |})
    (fun e =>
       ret {| results := results acc;
              errors := errors acc ++ [{| errorPath := filePath; error := e |}] |}).

(** [for (const x of l) body]. *)
Fixpoint forOf {A S} (body : S -> A -> M S) (l : list A) (s : S) : M S :=
  match l with
  | [] => ret s
  | x :: l' => let! s' := body s x in forOf body l' s'
  end.

Definition processFiles (matter : string -> option MarkdownUtils.Parsed)
    (statOf : string -> FileStats) (onProgress : bool)
    (filePaths : list string) : M Processed :=
  forOf (processOne matter statOf onProgress (length filePaths)) filePaths
    {| results := []; errors := [] |}.

(** *** deleteFile *)

Record DeleteResult := { deleted : bool; deletedTo : option string }.

(** [deleteFile]; [now] is what [Date.now()] answers. *)
Definition deleteFile (now : Z) (filePath : string) (createBackup : bool)
    : M DeleteResult :=
  tryCatch
    (if createBackup then
       let backup := filePath +:+ ".deleted." +:+ numberToString now in
       do! move filePath backup in
       do! logLine (LogInfo ("File moved to backup: " +:+ backup)) in
       ret {| deleted := true; deletedTo := Some backup |}
     else
       do! remove filePath in
       do! logLine (LogInfo ("File deleted: " +:+ filePath)) in
       ret {| deleted := true; deletedTo := None |})
    (fun error =>
       do! logLine (LogError ("Error deleting file " +:+ filePath +:+ ":")) in
       throw error).

End FileProcessor.

(** ** src/tools/file-organizer.js *)
Module FileOrganizer.
Import JS Effect.
Local Open Scope effect_scope.

Record MoveOperation := { from : string; to : string; folder : string }.

Record MoveError := { operation : MoveOperation; error : Error }.

(** The two local variables of [executeMoveOperations]. *)
Record Tally := { successCount : nat; errors : list MoveError }.

(** The body of the loop: [try { await moveFile; successCount++;
    progress } catch (error) { errors.push }]; [moveFile] is the method
    [this.fileProcessor.moveFile] that the loop calls. *)
Definition moveOneWith (moveFile : string -> string -> M FileProcessor.MoveResult)
    (total : nat) (tally : Tally) (op : MoveOperation) : M Tally :=
  tryCatch
    (do! moveFile (from op) (to op) in
     let count := S (successCount tally) in
     do! logLine (LogProgress count total) in
     ret {| successCount := count; errors := errors tally |})
    (fun e =>
       ret {| successCount := successCount tally;
              errors := errors tally ++ [{| operation := op; error := e |}] |}).

(** The body of the loop, with the file processor of this repository. *)
Definition moveOne : nat -> Tally -> MoveOperation -> M Tally :=
  moveOneWith FileProcessor.moveFile.

Fixpoint forEach {A S} (body : S -> A -> M S) (l : list A) (s : S) : M S :=
  match l with
  | [] => ret s
  | x :: l' => let! s' := body s x in forEach body l' s'
  end.

Definition natToString (n : nat) : string := numberToString (Z.of_nat n).

(** [executeMoveOperations]; [moveFile] is the method
    [this.fileProcessor.moveFile], [shouldProceed] the answer to the
    preview.  The function returns nothing: the model returns the tally it
    has reported, [None] when the operator has cancelled. *)
Definition executeMoveOperationsWith
    (moveFile : string -> string -> M FileProcessor.MoveResult)
    (shouldProceed : bool) (operations : list MoveOperation)
    : M (option Tally) :=
  let total := length operations in
  do! logLine (LogInfo ("Executing " +:+ natToString total +:+ " move operations...")) in
  if negb shouldProceed then
    do! logLine (LogInfo "Operation cancelled by user") in
    ret None
  else
    let! tally := forEach (moveOneWith moveFile total) operations
                    {| successCount := 0; errors := [] |} in
    do! logLine (LogSuccess ("Moved " +:+ natToString (successCount tally)
                              +:+ " files successfully")) in
    do! (if (0 <? length (errors tally))%nat
         then logLine (LogWarn (natToString (length (errors tally))
                                  +:+ " move operations failed"))
         else ret tt) in
    ret (Some tally).

(** [executeMoveOperations], with the file processor of this repository. *)
Definition executeMoveOperations
    : bool -> list MoveOperation -> M (option Tally) :=
  executeMoveOperationsWith FileProcessor.moveFile.

(** *** The batch, said without the loop

    What each operation of a list comes to when the operations are tried
    in order, each in the world the ones before it have left: [None] for a
    move that returns, after which the progress is logged, and the error
    for a move that throws.  [done] counts the moves that have returned.
    The second component is the world after the last operation. *)
Fixpoint attempts (moveFile : string -> string -> M FileProcessor.MoveResult)
    (total done : nat) (ops : list MoveOperation) (w : World)
    : list (option Error) * World :=
  match ops with
  | [] => ([], w)
  | op :: ops' =>
      match moveFile (from op) (to op) w with
      | (w1, Returns _) =>
          let w2 := {| files := files w1;
                       log := log w1 ++ [LogProgress (S done) total] |} in
          let rest := attempts moveFile total (S done) ops' w2 in
          (None :: fst rest, snd rest)
      | (w1, Throws e) =>
          let rest := attempts moveFile total done ops' w1 in
          (Some e :: fst rest, snd rest)
      end
  end.

(** The operations that have failed, each with its error, in the order of
    the list. *)
Fixpoint failures (ops : list MoveOperation) (outs : list (option Error))
    : list MoveError :=
  match ops, outs with
  | op :: ops', Some e :: outs' =>
      {| operation := op; error := e |} :: failures ops' outs'
  | _ :: ops', None :: outs' => failures ops' outs'
  | _, _ => []
  end.

(** *** The batch, said on the files alone

    A move fails when the directory of its destination cannot be made,
    when no file is at its source, or when its destination is taken (the
    library does not overwrite); otherwise the content changes its path. *)
Definition moveError (fs : gmap string string) (op : MoveOperation)
    : option Error :=
  match dirError fs (FileProcessor.dirname (to op)) with
  | Some e => Some e
  | None =>
      match fs !! from op, fs !! to op with
      | None, _ => Some (ENOENT (from op))
      | Some _, Some _ => Some (EEXIST (to op))
      | Some _, None => None
      end
  end.

Definition isBlocked (fs : gmap string string) (op : MoveOperation) : bool :=
  match moveError fs op with Some _ => true | None => false end.

Definition filesAfter (fs : gmap string string) (op : MoveOperation)
    : gmap string string :=
  match moveError fs op, fs !! from op with
  | None, Some text => <[to op := text]> (delete (from op) fs)
  | _, _ => fs
  end.

(** Whether each operation of a list fails, when they are run in order,
    each on the files the ones before it have left. *)
Fixpoint outcomes (ops : list MoveOperation) (fs : gmap string string)
    : list bool :=
  match ops with
  | [] => []
  | op :: ops' => isBlocked fs op :: outcomes ops' (filesAfter fs op)
  end.

(** The operations that fail, in the order of the list. *)
Fixpoint failing (ops : list MoveOperation) (fs : gmap string string)
    : list MoveOperation :=
  match ops with
  | [] => []
  | op :: ops' =>
      (if isBlocked fs op then [op] else []) ++ failing ops' (filesAfter fs op)
  end.

(** The line [moveFile] logs for an operation, by its outcome. *)
Definition attemptLine (op : MoveOperation) (failed : bool) : LogEntry :=
  if failed
  then LogError ("Error moving file " +:+ from op +:+ " to " +:+ to op +:+ ":")
  else LogInfo ("Moved file: " +:+ from op +:+ " -> " +:+ to op).

Definition isAttempt (entry : LogEntry) : bool :=
  match entry with
  | LogInfo msg => startsWith "Moved file: " msg
  | LogError msg => startsWith "Error moving file " msg
  | _ => false
  end.

(** The lines that close the report. *)
Definition reportLines (moved failed : nat) : list LogEntry :=
  LogSuccess ("Moved " +:+ natToString moved +:+ " files successfully")
  :: (if (0 <? failed)%nat
      then [LogWarn (natToString failed +:+ " move operations failed")]
      else []).

(** *** organizeByTags and determineFileType *)

(** The operations [organizeByTags] plans; [pathJoin] is [path.join]. *)
Definition organizeByTagsOperations (pathJoin : list string -> string)
    (fileInfos : list FileProcessor.FileInfo) (vaultPath : string)
    : list MoveOperation :=
  List.map
    (fun fileInfo =>
       let tags :=
         match FileProcessor.tags fileInfo with Some l => l | None => [] end in
       let newFolder :=
         match tags with
         | [] => pathJoin [vaultPath; "organized"; "by-tags"; "untagged"]
         | tag :: _ =>
             pathJoin [vaultPath; "organized"; "by-tags";
                       FileUtils.sanitizeFilename tag]
         end in
       {| from := FileProcessor.path fileInfo;
          to := pathJoin [newFolder;
                          FileUtils.basename (FileProcessor.path fileInfo)];
          folder := newFolder |})
    fileInfos.

Definition organizeByTags (pathJoin : list string -> string)
    (shouldProceed : bool) (fileInfos : list FileProcessor.FileInfo)
    (vaultPath : string) : M (option Tally) :=
  do! logLine (LogInfo "Organizing by tags...") in
  executeMoveOperations shouldProceed
    (organizeByTagsOperations pathJoin fileInfos vaultPath).

Definition determineFileType (fileInfo : FileProcessor.FileInfo) : string :=
  let content := toLowerCase (FileProcessor.content fileInfo) in
  if includesString "todo" content || includesString "task" content
     || includesString "- [ ]" content
  then "tasks"
  else if includesString "daily note" content || includesString "journal" content
  then "journal"
  else if match FileProcessor.headings fileInfo with
          | Some (heading :: _) =>
              includesString "meeting" (MarkdownUtils.text heading)
          | _ => false
          end
  then "meetings"
  else if match FileProcessor.tags fileInfo with
          | Some l =>
              existsb (fun tag => existsb (String.eqb (toLowerCase tag))
                                          ["project"; "work"]) l
          | None => false
          end
  then "projects"
  else "notes".

(** *** renameFiles *)

(** The answers to the question of [renameFiles]. *)
Inductive RenamePattern :=
| ByTitle
| ByHeading
| ByDatePrefix
| BySanitize
| ByCustom.

(** What [generateNewFilename] gives: a name, [null], or the [TypeError]
    of [sanitizeFilename] on a title that is no string. *)
Inductive NewName :=
| Name (s : string)
| NoName
| NameTypeError.

Definition generateNewFilename (fileInfo : FileProcessor.FileInfo)
    (pattern : RenamePattern) : NewName :=
  match pattern with
  | ByTitle =>
      match get (FileProcessor.frontmatter fileInfo) "title" with
      | Some v =>
          if truthy v
          then match v with
               | VStr s => Name (FileUtils.sanitizeFilename s)
               | _ => NameTypeError
               end
          else NoName
      | None => NoName
      end
  | ByHeading =>
      match FileProcessor.headings fileInfo with
      | Some (heading :: _) =>
          if String.eqb (MarkdownUtils.text heading) "" then NoName
          else Name (FileUtils.sanitizeFilename (MarkdownUtils.text heading))
      | _ => NoName
      end
  | ByDatePrefix =>
      Name (PropertyManager.isoDate (FileProcessor.created fileInfo)
              +:+ "-" +:+ FileProcessor.name fileInfo)
  | BySanitize => Name (FileUtils.sanitizeFilename (FileProcessor.name fileInfo))
  | ByCustom => NoName
  end.

Record RenameOperation := {
  renameFrom : string;
  renameTo : string;
  oldName : string;
  newName : string
}.

(** The body of the loop of [renameFiles]; [None] is the [TypeError]
    thrown. *)
Definition planRename (pathJoin : list string -> string) (pattern : RenamePattern)
    (operations : option (list RenameOperation))
    (fileInfo : FileProcessor.FileInfo) : option (list RenameOperation) :=
  match operations, generateNewFilename fileInfo pattern with
  | None, _ => None
  | Some _, NameTypeError => None
  | Some ops, NoName => Some ops
  | Some ops, Name n =>
      if negb (String.eqb n "") && negb (String.eqb n (FileProcessor.name fileInfo))
      then Some (ops ++ [{| renameFrom := FileProcessor.path fileInfo;
                            renameTo :=
                              pathJoin [FileProcessor.dirname
                                          (FileProcessor.path fileInfo);
                                        n +:+ ".md"];
                            oldName := FileProcessor.name fileInfo;
                            newName := n |}])
      else Some ops
  end.

(** The operations [renameFiles] plans. *)
Definition renameOperations (pathJoin : list string -> string)
    (fileInfos : list FileProcessor.FileInfo) (pattern : RenamePattern)
    : option (list RenameOperation) :=
  fold_left (planRename pathJoin pattern) fileInfos (Some []).

End FileOrganizer.

(** ** src/tools/batch-processor.js *)
Module BatchProcessor.
Import JS Effect.
Local Open Scope effect_scope.

(** [content.split('\n').map(line => line.trimEnd()).join('\n')]. *)
Definition cleanedContent (content : string) : string :=
  join newline (List.map trimEnd (split newline content)).

Record ContentUpdate := { file : FileProcessor.FileInfo; newContent : string }.

(** The first loop of [removeTrailingWhitespace]. *)
Definition whitespaceUpdates (fileInfos : list FileProcessor.FileInfo)
    : list ContentUpdate :=
  flat_map
    (fun fileInfo =>
       let cleaned := cleanedContent (FileProcessor.content fileInfo) in
       if String.eqb cleaned (FileProcessor.content fileInfo) then []
       else [{| file := fileInfo; newContent := cleaned |}])
    fileInfos.

(** The loop that writes; [clock i] is what [Date.now()] answers in the
    turn of index [i]. *)
Fixpoint updateEach (clock : nat -> Z) (i : nat) (l : list ContentUpdate)
    : M unit :=
  match l with
  | [] => ret tt
  | u :: l' =>
      do! FileProcessor.updateFile (clock i)
            (FileProcessor.path (file u)) (newContent u) in
      updateEach clock (S i) l'
  end.

(** [removeTrailingWhitespace]; [shouldProceed] is the answer of the
    operator. *)
Definition removeTrailingWhitespace (clock : nat -> Z) (shouldProceed : bool)
    (fileInfos : list FileProcessor.FileInfo) : M unit :=
  let filesToUpdate := whitespaceUpdates fileInfos in
  if (length filesToUpdate =? 0)%nat then
    logLine (LogInfo "No trailing whitespace found")
  else if shouldProceed then
    do! updateEach clock 0 filesToUpdate in
    logLine (LogSuccess ("Cleaned "
                           +:+ FileOrganizer.natToString (length filesToUpdate)
                           +:+ " files"))
  else ret tt.

(** [!file.content || file.content.trim().length === 0]. *)
Definition isEmptyFile (fileInfo : FileProcessor.FileInfo) : bool :=
  String.eqb (FileProcessor.content fileInfo) ""
  || (String.length (trim (FileProcessor.content fileInfo)) =? 0)%nat.

Fixpoint deleteEach (clock : nat -> Z) (i : nat)
    (l : list FileProcessor.FileInfo) : M unit :=
  match l with
  | [] => ret tt
  | fileInfo :: l' =>
      do! FileProcessor.deleteFile (clock i) (FileProcessor.path fileInfo) true in
      deleteEach clock (S i) l'
  end.

Definition removeEmptyFiles (clock : nat -> Z) (shouldProceed : bool)
    (fileInfos : list FileProcessor.FileInfo) : M unit :=
  let emptyFiles := List.filter isEmptyFile fileInfos in
  if (length emptyFiles =? 0)%nat then
    logLine (LogInfo "No empty files found")
  else if shouldProceed then
    do! deleteEach clock 0 emptyFiles in
    logLine (LogSuccess ("Removed "
                           +:+ FileOrganizer.natToString (length emptyFiles)
                           +:+ " empty files"))
  else ret tt.

End BatchProcessor.

(** ** src/core/vault-manager.js *)
Module VaultManager.
Import JS Effect.

(** *** The analysis of a directory *)

(** What a directory holds: files and directories, by name. *)
Inductive Entry :=
| File (name : string)
| Dir (name : string) (children : list Entry).

Definition entryName (e : Entry) : string :=
  match e with File n => n | Dir n _ => n end.

(** What the file system has at the path given to [analyzeDirectory]. *)
Inductive Target :=
| Missing
| Inaccessible
| FileAt
| DirAt (children : list Entry).

Record Stats := { isDirectory : bool }.

(** [fs.stat(dirPath)]. *)
Definition stat (dirPath : string) (t : Target) : Completion Stats :=
  match t with
  | Missing => Throws (ENOENT dirPath)
  | Inaccessible => Throws (EACCES dirPath)
  | FileAt => Returns {| isDirectory := false |}
  | DirAt _ => Returns {| isDirectory := true |}
  end.

(** [fs.pathExists(path.join(dirPath, name))], which never throws. *)
Definition pathExists (t : Target) (name : string) : bool :=
  match t with
  | DirAt children => existsb (fun e => String.eqb (entryName e) name) children
  | _ => false
  end.

(** *** The glob library

    [glob('**/*.md', { cwd, ignore: ['node_modules/**', '.git/**',
    '.obsidian/**'] })].  [nocase] is the default of the platform: names are
    compared without regard to case on macOS and Windows.  The pattern has
    the option [dot] off: neither star matches a name that starts with a
    dot.  Directories match [*.md] as files do. *)

Definition foldCase (nocase : bool) (s : string) : string :=
  if nocase then toLowerCase s else s.

Definition isHidden (name : string) : bool := startsWith "." name.

Fixpoint hasSuffix (suffix s : string) : bool :=
  String.eqb suffix s
  || match s with
     | "" => false
     | String _ s' => hasSuffix suffix s'
     end.

(** [*.md] against one name. *)
Definition matchesStarMd (nocase : bool) (name : string) : bool :=
  negb (isHidden name) && hasSuffix ".md" (foldCase nocase name).

(** The matches of [**/*.md] at an entry and below it, relative to the
    directory that holds the entry. *)
Fixpoint globEntry (nocase : bool) (e : Entry) : list string :=
  match e with
  | File n => if matchesStarMd nocase n then [n] else []
  | Dir n children =>
      (if matchesStarMd nocase n then [n] else [])
      ++ (if isHidden n then []
          else List.map (fun p => n +:+ "/" +:+ p)
                        (flat_map (globEntry nocase) children))
  end.

Definition ignoredDirs : list string := ["node_modules"; ".git"; ".obsidian"].

(** Whether one of the [ignore] patterns covers everything below a name of
    the top level. *)
Definition isIgnored (nocase : bool) (name : string) : bool :=
  existsb (fun d => String.eqb (foldCase nocase d) (foldCase nocase name))
          ignoredDirs.

Definition glob (nocase : bool) (children : list Entry) : list string :=
  flat_map (globEntry nocase)
           (List.filter (fun e => negb (isIgnored nocase (entryName e))) children).

Record VaultInfo := {
  name : string;
  path : string;
  isVault : bool;
  hasObsidianFolder : bool;
  markdownFiles : nat;
  totalFiles : nat
}.

(** [analyzeDirectory]; the [structure] field, always empty, is left out.
    The handler of the [try] returns the descriptor as it stands when
    [fs.stat] throws, which is the initial one. *)
Definition analyzeDirectory (nocase : bool) (dirPath : string) (target : Target)
    : Completion VaultInfo :=
  let vaultInfo :=
    {| name := FileUtils.basename dirPath; path := dirPath; isVault := false;
       hasObsidianFolder := false; markdownFiles := 0; totalFiles := 0 |} in
  match stat dirPath target with
  | Throws _ => Returns vaultInfo
  | Returns stats =>
      if negb (isDirectory stats) then Returns vaultInfo
      else
        let obsidian := pathExists target ".obsidian" in
        let found :=
          match target with
          | DirAt children => glob nocase children
          | _ => []
          end in
        Returns
          {| name := name vaultInfo; path := path vaultInfo;
             isVault := obsidian || (0 <? length found)%nat;
             hasObsidianFolder := obsidian;
             markdownFiles := length found;
             totalFiles := length found |}
  end.

(** *** What is counted, said without the walk

    Every entry of a directory, at any depth, by the names on its path. *)
Fixpoint pathsOfEntry (e : Entry) : list (list string) :=
  match e with
  | File n => [[n]]
  | Dir n children =>
      [n] :: List.map (cons n) (flat_map pathsOfEntry children)
  end.

Definition allPaths (children : list Entry) : list (list string) :=
  flat_map pathsOfEntry children.

(** A path is counted when none of its names starts with a dot, its first
    name is not an ignored directory, and its last name ends in [.md]. *)
Definition isCounted (nocase : bool) (segments : list string) : bool :=
  forallb (fun n => negb (isHidden n)) segments
  && match segments with
     | first :: _ => negb (isIgnored nocase first)
     | [] => false
     end
  && match last segments with
     | Some n => hasSuffix ".md" (foldCase nocase n)
     | None => false
     end.

(** [isCounted] below the top level: no hidden name, and the suffix. *)
Definition isMatched (nocase : bool) (segments : list string) : bool :=
  forallb (fun n => negb (isHidden n)) segments
  && match last segments with
     | Some n => hasSuffix ".md" (foldCase nocase n)
     | None => false
     end.

(** The reading of the specification: a file is counted for its extension,
    one of the four of [isMarkdownFile]. *)
Fixpoint markdownNamesOfEntry (e : Entry) : list string :=
  match e with
  | File n => if FileUtils.isMarkdownFile n then [n] else []
  | Dir n children =>
      if existsb (String.eqb n) ignoredDirs then []
      else flat_map markdownNamesOfEntry children
  end.

Definition markdownFilesBySpec (children : list Entry) : nat :=
  length (flat_map markdownNamesOfEntry children).

(** *** The recent-vault history *)

(** The part of the file system the history code looks at: the content of
    [config/vault-history.json], when the file exists and holds a
    [recentVaults] list. *)
Record Disk := { historyFile : option (list string) }.

Record t := { recentVaults : list string }.

(** [constructor]: [this.recentVaults = []]. *)
Definition new : t := {| recentVaults := [] |}.

(** What [loadVaultHistory] assigns once it has read the file: the stored
    list, without the paths that no longer exist. *)
Definition loadVaultHistory (pathExists : string -> bool) (d : Disk) (vm : t) : t :=
  match historyFile d with
  | Some l => {| recentVaults := List.filter pathExists l |}
  | None => vm
  end.

(** [saveVaultHistory]; a failed write is caught and logged, the file
    keeps its content. *)
Definition saveVaultHistory (writeOk : bool) (vm : t) (d : Disk) : Disk :=
  if writeOk then {| historyFile := Some (recentVaults vm) |} else d.

(** The part of [addToHistory] that runs at the call: the three
    assignments to [this.recentVaults], before the save is awaited. *)
Definition pushRecent (vaultPath : string) (vm : t) : t :=
  let l1 := List.filter (fun p => negb (String.eqb p vaultPath)) (recentVaults vm) in
  let l2 := vaultPath :: l1 in
  {| recentVaults := firstn 10 l2 |}.

(** [addToHistory], awaited: the list is updated, then saved. *)
Definition addToHistory (writeOk : bool) (vaultPath : string) (st : t * Disk)
    : t * Disk :=
  let vm' := pushRecent vaultPath (fst st) in
  (vm', saveVaultHistory writeOk vm' (snd st)).

(** What happens to the manager and to the history file, one event at a
    time.  The constructor sets [recentVaults] to the empty list and calls
    [loadVaultHistory] without awaiting it, so that the load goes on when
    the program next waits: [OpLoaded] is the moment it has read the file
    and assigns.  [addToHistory] updates the list at the call ([OpPushed])
    and writes the file later ([OpSaved]). *)
Inductive Op :=
| OpNew
| OpLoaded (pathExists : string -> bool)
| OpPushed (vaultPath : string)
| OpSaved (writeOk : bool).

Definition step (st : t * Disk) (o : Op) : t * Disk :=
  match o with
  | OpNew => (new, snd st)
  | OpLoaded pathExists => (loadVaultHistory pathExists (snd st) (fst st), snd st)
  | OpPushed p => (pushRecent p (fst st), snd st)
  | OpSaved writeOk => (fst st, saveVaultHistory writeOk (fst st) (snd st))
  end.

(** A schedule: the events in the order they happen. *)
Definition run (ops : list Op) (st : t * Disk) : t * Disk :=
  fold_left step ops st.

(** What the history keeps true: no path twice, in the manager and in the
    file. *)
Definition historyInv (st : t * Disk) : Prop :=
  NoDup (recentVaults (fst st))
  /\ forall l, historyFile (snd st) = Some l -> NoDup l.

(** *** The current vault *)

(** The manager with its [currentVault] field, [None] standing for
    [null]. *)
Record Session := { manager : t; currentVault : option VaultInfo }.

(** [setCurrentVault]: the new state and the boolean returned; [target]
    is what the file system has at [vaultPath]. *)
Definition setCurrentVault (nocase : bool) (vaultPath : string)
    (target : Target) (s : Session) : Completion (Session * bool) :=
  match analyzeDirectory nocase vaultPath target with
  | Throws e => Throws e
  | Returns vaultInfo =>
      if isVault vaultInfo
      then Returns ({| manager := manager s; currentVault := Some vaultInfo |},
                    true)
      else Returns (s, false)
  end.

Definition setCurrentVaultWithHistory (nocase writeOk : bool)
    (vaultPath : string) (target : Target) (st : Session * Disk)
    : Completion (Session * Disk * bool) :=
  match setCurrentVault nocase vaultPath target (fst st) with
  | Throws e => Throws e
  | Returns (s, result) =>
      if result then
        let st' := addToHistory writeOk vaultPath (manager s, snd st) in
        Returns ({| manager := fst st'; currentVault := currentVault s |},
                 snd st', true)
      else Returns (s, snd st, false)
  end.

(** One call of [setCurrentVaultWithHistory]: the path, what the file
    system has there at that time, and whether the history file can be
    written. *)
Record Call := { callPath : string; callTarget : Target; callWriteOk : bool }.

(** A program that selects vaults one after the other. *)
Fixpoint selectAll (nocase : bool) (calls : list Call) (st : Session * Disk)
    : Completion (Session * Disk) :=
  match calls with
  | [] => Returns st
  | c :: calls' =>
      match setCurrentVaultWithHistory nocase (callWriteOk c) (callPath c)
              (callTarget c) st with
      | Throws e => Throws e
      | Returns (s, d, _) => selectAll nocase calls' (s, d)
      end
  end.

End VaultManager.

(** * Properties *)

(** ** sanitizeFilename *)
Section Sanitize.
Import JS FileUtils.

Lemma isHyphen_eq c : isHyphen c = true -> c = "-"%char.
Proof.
  destruct c as [[] [] [] [] [] [] [] []]; simpl; intros H;
    try discriminate H; reflexivity.
Qed.

Lemma allChars_replaceEach p q r s :
  (forall c, p c = false -> q c = true) -> q r = true ->
  allChars q (replaceEach p r s) = true.
Proof.
  intros Hpq Hr. induction s as [|c s IH]; simpl; [reflexivity|].
  rewrite IH, andb_true_r. destruct (p c) eqn:E; auto.
Qed.

Lemma allChars_replaceRuns_keep p q r b s :
  q r = true -> allChars q s = true ->
  allChars q (replaceRuns p r b s) = true.
Proof.
  intros Hr. revert b. induction s as [|c s IH]; intros b; simpl; [reflexivity|].
  intros [Hc Hs]%andb_true_iff.
  destruct (p c), b; simpl; rewrite ?Hr, ?Hc; simpl; auto.
Qed.

Lemma allChars_replaceRuns_gone p r b s :
  p r = false ->
  allChars (fun c => negb (p c)) (replaceRuns p r b s) = true.
Proof.
  intros Hr. revert b. induction s as [|c s IH]; intros b; simpl; [reflexivity|].
  destruct (p c) eqn:E, b; simpl; rewrite ?Hr, ?E; simpl; auto.
Qed.

Lemma noDouble_replaceRuns b s :
  noDouble b (replaceRuns isHyphen "-" b s) = true.
Proof.
  revert b. induction s as [|c s IH]; intros b; simpl; [reflexivity|].
  destruct (isHyphen c) eqn:E, b; simpl; rewrite ?E; simpl; auto.
Qed.

Lemma noDouble_weaken b s : noDouble b s = true -> noDouble false s = true.
Proof.
  destruct s as [|c s]; simpl; [reflexivity|].
  destruct (isHyphen c), b; simpl; auto; discriminate.
Qed.

Lemma allChars_dropFirst p q s :
  allChars q s = true -> allChars q (dropFirst p s) = true.
Proof.
  destruct s as [|c s]; simpl; [reflexivity|].
  intros [Hc Hs]%andb_true_iff. destruct (p c); simpl; rewrite ?Hc; auto.
Qed.

Lemma dropLast_cons p c d s :
  dropLast p (String c (String d s)) = String c (dropLast p (String d s)).
Proof. reflexivity. Qed.

Lemma endsHyphen_cons c d s :
  endsHyphen (String c (String d s)) = endsHyphen (String d s).
Proof. reflexivity. Qed.

Lemma allChars_dropLast p q s :
  allChars q s = true -> allChars q (dropLast p s) = true.
Proof.
  induction s as [|c s IH]; [reflexivity|].
  destruct s as [|d s].
  - simpl. destruct (p c); simpl; auto.
  - rewrite dropLast_cons. intros [Hc Hs]%andb_true_iff.
    change (q c && allChars q (dropLast p (String d s)) = true).
    rewrite Hc, (IH Hs). reflexivity.
Qed.

Lemma noDouble_dropFirst s :
  noDouble false s = true ->
  noDouble false (dropFirst isHyphen s) = true
  /\ startsHyphen (dropFirst isHyphen s) = false.
Proof.
  destruct s as [|c s]; simpl; [auto|].
  destruct (isHyphen c) eqn:E; simpl.
  - intros H. split; [exact (noDouble_weaken _ _ H)|].
    destruct s as [|d s]; simpl in *; [reflexivity|].
    destruct (isHyphen d); [discriminate H | reflexivity].
  - rewrite E. auto.
Qed.

Lemma noDouble_dropLast b s :
  noDouble b s = true -> noDouble b (dropLast isHyphen s) = true.
Proof.
  revert b. induction s as [|c s IH]; intros b; [reflexivity|].
  destruct s as [|d s].
  - simpl. destruct (isHyphen c) eqn:E; simpl; rewrite ?E; auto.
  - rewrite dropLast_cons. revert IH. generalize (String d s) as t.
    intros t IH. simpl.
    destruct (isHyphen c); [intros [-> H]%andb_true_iff; simpl|]; apply IH; auto.
Qed.

Lemma startsHyphen_dropLast s :
  startsHyphen s = false -> startsHyphen (dropLast isHyphen s) = false.
Proof.
  destruct s as [|c [|d s]]; [reflexivity| |].
  - simpl. intros H. rewrite H. exact H.
  - rewrite dropLast_cons. simpl. auto.
Qed.

Lemma dropLast_empty s :
  dropLast isHyphen s = "" -> s = "" \/ s = "-".
Proof.
  destruct s as [|c [|d s]]; [auto| |].
  - simpl. destruct (isHyphen c) eqn:E; [|discriminate].
    rewrite (isHyphen_eq _ E). auto.
  - rewrite dropLast_cons. discriminate.
Qed.

Lemma endsHyphen_dropLast s :
  noDouble false s = true -> endsHyphen (dropLast isHyphen s) = false.
Proof.
  induction s as [|c s IH]; [reflexivity|].
  destruct s as [|d s].
  - simpl. destruct (isHyphen c) eqn:E; simpl; rewrite ?E; reflexivity.
  - rewrite dropLast_cons. intros H.
    assert (Hd : noDouble false (String d s) = true).
    { revert H. generalize (String d s) as t. intros t. simpl.
      destruct (isHyphen c); intros H; exact (noDouble_weaken _ _ H). }
    specialize (IH Hd).
    destruct (dropLast isHyphen (String d s)) as [|e t] eqn:Ed.
    + apply dropLast_empty in Ed as [Ed|Ed]; [discriminate Ed|].
      injection Ed as -> ->. simpl in H |- *.
      destruct (isHyphen c); [discriminate H | reflexivity].
    + rewrite endsHyphen_cons. exact IH.
Qed.

Lemma sanitizeFilename_isSanitized s : isSanitized (sanitizeFilename s) = true.
Proof.
  unfold isSanitized, sanitizeFilename, dropEnds.
  set (s1 := replaceEach isInvalidChar "-" s).
  set (s2 := replaceRuns isWhiteSpace "-" false s1).
  set (s3 := replaceRuns isHyphen "-" false s2).
  assert (A1 : allChars (fun c => negb (isInvalidChar c)) s1 = true).
  { apply allChars_replaceEach; [intros c ->|]; reflexivity. }
  assert (A2 : allChars (fun c => negb (isInvalidChar c)) s3 = true).
  { do 2 (apply allChars_replaceRuns_keep; [reflexivity|]). exact A1. }
  assert (B2 : allChars (fun c => negb (isWhiteSpace c)) s3 = true).
  { apply allChars_replaceRuns_keep; [reflexivity|].
    apply allChars_replaceRuns_gone. reflexivity. }
  assert (C3 : noDouble false s3 = true) by apply noDouble_replaceRuns.
  destruct (noDouble_dropFirst _ C3) as [C4 D4].
  rewrite !allChars_dropLast, !noDouble_dropLast by
    (try apply allChars_dropFirst; assumption).
  rewrite startsHyphen_dropLast, endsHyphen_dropLast by assumption.
  reflexivity.
Qed.

Lemma replaceEach_id p r s :
  allChars (fun c => negb (p c)) s = true -> replaceEach p r s = s.
Proof.
  induction s as [|c s IH]; simpl; [reflexivity|].
  intros [Hc Hs]%andb_true_iff. rewrite (IH Hs).
  destruct (p c); [discriminate Hc | reflexivity].
Qed.

Lemma replaceRuns_id p r b s :
  allChars (fun c => negb (p c)) s = true -> replaceRuns p r b s = s.
Proof.
  revert b. induction s as [|c s IH]; intros b; simpl; [reflexivity|].
  intros [Hc Hs]%andb_true_iff.
  destruct (p c); [discriminate Hc|]. rewrite (IH _ Hs). reflexivity.
Qed.

Lemma replaceRuns_hyphen_id b s :
  noDouble b s = true -> replaceRuns isHyphen "-" b s = s.
Proof.
  revert b. induction s as [|c s IH]; intros b; simpl; [reflexivity|].
  destruct (isHyphen c) eqn:E.
  - intros [Hb Hs]%andb_true_iff. destruct b; [discriminate Hb|].
    rewrite (IH _ Hs), (isHyphen_eq _ E). reflexivity.
  - intros Hs. rewrite (IH _ Hs). reflexivity.
Qed.

Lemma dropFirst_id s : startsHyphen s = false -> dropFirst isHyphen s = s.
Proof. destruct s as [|c s]; simpl; [reflexivity|]. intros ->. reflexivity. Qed.

Lemma dropLast_id s : endsHyphen s = false -> dropLast isHyphen s = s.
Proof.
  induction s as [|c s IH]; [reflexivity|].
  destruct s as [|d s]; [simpl; intros ->; reflexivity|].
  rewrite endsHyphen_cons, dropLast_cons. intros H. rewrite (IH H). reflexivity.
Qed.

Lemma sanitizeFilename_fixes s :
  isSanitized s = true -> sanitizeFilename s = s.
Proof.
  unfold isSanitized. rewrite !andb_true_iff, !negb_true_iff.
  intros [[[[A B] C] D] E]. unfold sanitizeFilename, dropEnds.
  rewrite (replaceEach_id _ _ _ A), (replaceRuns_id _ _ _ _ B),
    (replaceRuns_hyphen_id _ _ C), (dropFirst_id _ D), (dropLast_id _ E).
  reflexivity.
Qed.

Lemma allChars_app p a b :
  allChars p (a +:+ b) = allChars p a && allChars p b.
Proof.
  induction a as [|c a IH]; simpl; [reflexivity|].
  rewrite IH, andb_assoc. reflexivity.
Qed.

Lemma noDouble_app_hyphens b pre post :
  noDouble b (pre +:+ "--" +:+ post) = false.
Proof.
  revert b. induction pre as [|c pre IH]; intros b; simpl.
  - rewrite andb_false_r. reflexivity.
  - rewrite !IH, andb_false_r. destruct (isHyphen c); reflexivity.
Qed.

Lemma endsHyphen_app_hyphen pre : endsHyphen (pre +:+ "-") = true.
Proof.
  induction pre as [|c pre IH]; [reflexivity|].
  change (String c pre +:+ "-") with (String c (pre +:+ "-")).
  destruct (pre +:+ "-") eqn:E; [destruct pre; discriminate E|].
  rewrite endsHyphen_cons. exact IH.
Qed.

End Sanitize.

(** The cases of [tests/utils/file-utils.test.js]. *)
Example sanitizeFilename_tests :
  FileUtils.sanitizeFilename "My File: With/Invalid\Characters|?*<>"
  = "My-File-With-Invalid-Characters"
  /\ FileUtils.sanitizeFilename "File   with    multiple   spaces"
     = "File-with-multiple-spaces"
  /\ FileUtils.sanitizeFilename "-file-name-" = "file-name".
Proof. repeat split; vm_compute; reflexivity. Qed.

Example isMarkdownFile_tests :
  List.map FileUtils.isMarkdownFile
    ["file.md"; "file.markdown"; "file.mdown"; "file.mkd"; "file.txt";
     "file.pdf"; "file"; "file.MD"; "file.Markdown"]
  = [true; true; true; true; false; false; false; true; true].
Proof. vm_compute. reflexivity. Qed.

(** C7: [sanitizeFilename] is idempotent, and its result holds none of the
    characters [< > : / \ | ? *] or the double quote, no white space, no two hyphens in a row,
    and neither starts nor ends with a hyphen. *)
Theorem sanitizeFilename_idempotent_clean (s : string) :
  FileUtils.sanitizeFilename (FileUtils.sanitizeFilename s)
    = FileUtils.sanitizeFilename s
  /\ (forall pre c post,
        FileUtils.sanitizeFilename s = pre +:+ String c post ->
        FileUtils.isInvalidChar c = false /\ JS.isWhiteSpace c = false)
  /\ (forall pre post, FileUtils.sanitizeFilename s <> pre +:+ "--" +:+ post)
  /\ (forall post, FileUtils.sanitizeFilename s <> "-" +:+ post)
  /\ (forall pre, FileUtils.sanitizeFilename s <> pre +:+ "-").
Proof.
  pose proof (sanitizeFilename_isSanitized s) as H.
  split; [apply sanitizeFilename_fixes, H|].
  unfold FileUtils.isSanitized in H. rewrite !andb_true_iff, !negb_true_iff in H.
  destruct H as [[[[A B] C] D] E].
  split; [|split; [|split]].
  - intros pre c post Heq. rewrite Heq, allChars_app in A, B.
    apply andb_true_iff in A as [_ A]. apply andb_true_iff in B as [_ B].
    simpl in A, B.
    apply andb_true_iff in A as [A _]. apply andb_true_iff in B as [B _].
    split; apply negb_true_iff; assumption.
  - intros pre post Heq. rewrite Heq, noDouble_app_hyphens in C. discriminate C.
  - intros post Heq. rewrite Heq in D. discriminate D.
  - intros pre Heq. rewrite Heq, endsHyphen_app_hyphen in E. discriminate E.
Qed.

(** ** The YAML-like parser and printer *)
Section Fuel.
Import JS MarkdownUtils.

Lemma trimStart_length s : String.length (trimStart s) <= String.length s.
Proof.
  induction s as [|c s IH]; cbn [trimStart String.length]; [lia|].
  destruct (isWhiteSpace c); cbn [String.length]; lia.
Qed.

Lemma trimEnd_length s : String.length (trimEnd s) <= String.length s.
Proof.
  induction s as [|c s IH]; cbn [trimEnd String.length]; [lia|].
  destruct (trimEnd s) as [|d t]; [destruct (isWhiteSpace c)|];
    cbn [String.length] in *; lia.
Qed.

Lemma trim_length s : String.length (trim s) <= String.length s.
Proof.
  unfold trim. pose proof (trimEnd_length (trimStart s)).
  pose proof (trimStart_length s). lia.
Qed.

Lemma removeLast_length s : String.length (removeLast s) <= String.length s.
Proof.
  induction s as [|c s IH]; [cbn; lia|].
  destruct s as [|d s]; [cbn; lia|].
  change (removeLast (String c (String d s)))
    with (String c (removeLast (String d s))).
  cbn [String.length] in *. lia.
Qed.

Lemma slice1_length c s : String.length (slice1 (String c s)) <= String.length s.
Proof. apply removeLast_length. Qed.

Lemma split_length sep s :
  Forall (fun item => String.length item <= String.length s) (split sep s).
Proof.
  induction s as [|c s IH]; cbn [split].
  - constructor; [cbn; lia | constructor].
  - destruct (Ascii.eqb c sep).
    + constructor; [cbn; lia|].
      eapply Forall_impl; [exact IH|]. cbn. intros; lia.
    + destruct (split sep s) as [|h t].
      * constructor; [cbn; lia | constructor].
      * apply Forall_cons in IH as [Hh Ht]. constructor; [cbn; lia|].
        eapply Forall_impl; [exact Ht|]. cbn. intros; lia.
Qed.

Lemma parseYamlValue_fuel_enough n : forall m text,
  String.length text <= n -> String.length text <= m ->
  parseYamlValue_fuel n text = parseYamlValue_fuel m text.
Proof.
  induction n as [|n IH]; intros m text Hn Hm.
  - destruct text; [|cbn in Hn; lia]. destruct m; reflexivity.
  - destruct m as [|m]; [destruct text; [reflexivity | cbn in Hm; lia]|].
    cbn [parseYamlValue_fuel].
    destruct (isWrapped dquote dquote text || isWrapped squote squote text);
      [reflexivity|].
    destruct (String.eqb text "true"); [reflexivity|].
    destruct (String.eqb text "false"); [reflexivity|].
    destruct (String.eqb text "null"); [reflexivity|].
    destruct (isWrapped "[" "]" text) eqn:W; [|reflexivity].
    destruct (String.eqb (trim (slice1 text)) ""); [reflexivity|].
    f_equal. apply map_ext_in. intros item Hitem.
    destruct text as [|c text]; [discriminate W|].
    pose proof (split_length "," (slice1 (String c text))) as Hs.
    rewrite Forall_forall in Hs. apply list_elem_of_In, Hs in Hitem.
    pose proof (slice1_length c text). pose proof (trim_length item).
    cbn [String.length] in Hn, Hm. apply IH; lia.
Qed.

(** The function satisfies the equation of the source: the fuel does not
    show. *)
Lemma parseYamlValue_equation text :
  parseYamlValue text
  = if isWrapped dquote dquote text || isWrapped squote squote text
    then VStr (slice1 text)
    else if String.eqb text "true" then VBool true
    else if String.eqb text "false" then VBool false
    else if String.eqb text "null" then VNull
    else if isWrapped "[" "]" text then
      if String.eqb (trim (slice1 text)) "" then VArr []
      else VArr (List.map (fun item => parseYamlValue (trim item))
                          (split "," (slice1 text)))
    else match Number text with
         | Some n => if String.eqb text "" then VStr text else VNum n
         | None => VStr text
         end.
Proof.
  unfold parseYamlValue. destruct text as [|c text]; [reflexivity|].
  cbn [String.length parseYamlValue_fuel].
  destruct (isWrapped dquote dquote (String c text)
            || isWrapped squote squote (String c text)); [reflexivity|].
  destruct (String.eqb (String c text) "true"); [reflexivity|].
  destruct (String.eqb (String c text) "false"); [reflexivity|].
  destruct (String.eqb (String c text) "null"); [reflexivity|].
  destruct (isWrapped "[" "]" (String c text)); [|reflexivity].
  destruct (String.eqb (trim (slice1 (String c text))) ""); [reflexivity|].
  f_equal. apply map_ext_in. intros item Hitem.
  pose proof (split_length "," (slice1 (String c text))) as Hs.
  rewrite Forall_forall in Hs. apply list_elem_of_In, Hs in Hitem.
  pose proof (slice1_length c text). pose proof (trim_length item).
  apply parseYamlValue_fuel_enough; lia.
Qed.

End Fuel.

Example parseYamlLike_sample :
  MarkdownUtils.parseYamlLike
    ("title: Test Note" +:+ String JS.newline
       ("tags: [test, example]" +:+ String JS.newline
          ("# a comment" +:+ String JS.newline "count: 42")))
  = [("title", JS.VStr "Test Note");
     ("tags", JS.VArr [JS.VStr "test"; JS.VStr "example"]);
     ("count", JS.VNum 42)].
Proof. vm_compute. reflexivity. Qed.

(** C1: a quoted text that reads as a boolean or as a number is a string
    for the parser, is printed without its quotes, and is read back as a
    boolean or a number: the round trip changes the typed value. *)
Theorem roundtrip_loses_quoted_scalars :
  let quoted (s : string) :=
    String MarkdownUtils.dquote s +:+ String MarkdownUtils.dquote "" in
  let text := "draft: " +:+ quoted "true" +:+ String JS.newline
              ("count: " +:+ quoted "123") in
  let parsed := MarkdownUtils.parseYamlLike text in
  parsed = [("draft", JS.VStr "true"); ("count", JS.VStr "123")]
  /\ MarkdownUtils.stringifyYaml parsed
     = "draft: true" +:+ String JS.newline ("count: 123" +:+ String JS.newline "")
  /\ MarkdownUtils.parseYamlLike (MarkdownUtils.stringifyYaml parsed)
     = [("draft", JS.VBool true); ("count", JS.VNum 123)]
  /\ ~ MarkdownUtils.parseEquivalent
         (MarkdownUtils.parseYamlLike (MarkdownUtils.stringifyYaml parsed))
         parsed.
Proof.
  cbv zeta. split; [vm_compute; reflexivity|].
  split; [vm_compute; reflexivity|].
  split; [vm_compute; reflexivity|].
  intros H. specialize (H "draft"). vm_compute in H. discriminate H.
Qed.

(** ** The recent-vault history *)
Section History.
Import VaultManager.

Lemma NoDup_firstn {A} n (l : list A) : NoDup l -> NoDup (firstn n l).
Proof.
  intros H. rewrite <- (firstn_skipn n l) in H.
  apply NoDup_app in H as [H _]. exact H.
Qed.

Lemma NoDup_List_filter {A} (f : A -> bool) (l : list A) :
  NoDup l -> NoDup (List.filter f l).
Proof.
  induction 1 as [|x l Hx Hl IH]; simpl; [constructor|].
  destruct (f x); [|exact IH].
  constructor; [|exact IH].
  rewrite list_elem_of_In, filter_In, <- list_elem_of_In. tauto.
Qed.

Lemma addToHistory_list w p st :
  recentVaults (fst (addToHistory w p st))
  = firstn 10 (p :: List.filter (fun q => negb (String.eqb q p))
                                (recentVaults (fst st))).
Proof. reflexivity. Qed.

Lemma addToHistory_NoDup w p st :
  NoDup (recentVaults (fst st)) ->
  NoDup (recentVaults (fst (addToHistory w p st))).
Proof.
  intros H. rewrite addToHistory_list. apply NoDup_firstn.
  apply NoDup_cons. split.
  - rewrite list_elem_of_In, filter_In, String.eqb_refl. intros [_ E].
    discriminate E.
  - apply NoDup_List_filter, H.
Qed.

Lemma pushRecent_NoDup p vm :
  NoDup (recentVaults vm) -> NoDup (recentVaults (pushRecent p vm)).
Proof. intros H. exact (addToHistory_NoDup false p (vm, {| historyFile := None |}) H). Qed.

(** No event brings a path twice into the list or into the file. *)
Lemma step_historyInv st o : historyInv st -> historyInv (step st o).
Proof.
  intros [Hvm Hd]. destruct o as [|ex|p|ok]; cbn [step].
  - split; [constructor | exact Hd].
  - split; [|exact Hd]. cbn [fst snd]. unfold loadVaultHistory.
    destruct (historyFile (snd st)) as [l|] eqn:E; cbn [recentVaults].
    + apply NoDup_List_filter, (Hd l eq_refl).
    + exact Hvm.
  - split; [apply pushRecent_NoDup, Hvm | exact Hd].
  - split; [exact Hvm|]. cbn [fst snd]. unfold saveVaultHistory.
    destruct ok; [intros l [= <-]; exact Hvm | exact Hd].
Qed.

Lemma run_historyInv ops st : historyInv st -> historyInv (run ops st).
Proof.
  revert st. induction ops as [|o ops IH]; intros st H; [exact H|].
  apply IH, step_historyInv, H.
Qed.

(** An awaited call is the update followed by the write. *)
Lemma addToHistory_events writeOk p st :
  addToHistory writeOk p st = run [OpPushed p; OpSaved writeOk] st.
Proof. reflexivity. Qed.

(** What a call of [addToHistory] leaves in the list, before anything else
    assigns to it: at most 10 paths, the path given first, and no path
    twice when none was there twice. *)
Lemma addToHistory_bounded_front writeOk p st :
  let recent := recentVaults (fst (addToHistory writeOk p st)) in
  length recent <= 10
  /\ head recent = Some p
  /\ (NoDup (recentVaults (fst st)) -> NoDup recent).
Proof.
  cbv zeta. split; [|split].
  - rewrite addToHistory_list. apply firstn_le_length.
  - rewrite addToHistory_list. reflexivity.
  - apply addToHistory_NoDup.
Qed.

End History.

(** C10: the path given to [addToHistory] does not stay first, and the list
    can hold a path twice.  On a machine whose history file holds a list
    (here with a path twice), a manager is built and [addToHistory] is
    called at once: the load that the constructor has started and not
    awaited assigns the stored list after that call, and the path just
    given is lost.  When the load comes first, the path given is first, and
    the repeated path of the file is still there twice. *)
Theorem addToHistory_loses_to_pending_load :
  let disk := {| VaultManager.historyFile := Some ["/a"; "/b"; "/a"] |} in
  let there := fun _ : string => true in
  let raced :=
    VaultManager.run
      [VaultManager.OpNew; VaultManager.OpPushed "/zz";
       VaultManager.OpLoaded there; VaultManager.OpSaved true]
      (VaultManager.new, disk) in
  let loadedFirst :=
    VaultManager.run
      [VaultManager.OpNew; VaultManager.OpLoaded there;
       VaultManager.OpPushed "/zz"; VaultManager.OpSaved true]
      (VaultManager.new, disk) in
  VaultManager.recentVaults (fst raced) = ["/a"; "/b"; "/a"]
  /\ head (VaultManager.recentVaults (fst raced)) <> Some "/zz"
  /\ VaultManager.recentVaults (fst loadedFirst) = ["/zz"; "/a"; "/b"; "/a"]
  /\ ~ NoDup (VaultManager.recentVaults (fst loadedFirst)).
Proof.
  cbv zeta. split; [vm_compute; reflexivity|].
  split; [vm_compute; discriminate|].
  split; [vm_compute; reflexivity|].
  vm_compute. intros H.
  apply NoDup_cons in H as [_ H]. apply NoDup_cons in H as [H _].
  apply H. right. left.
Qed.

(** ** The analysis of a directory *)
Section Scan.
Import JS Effect VaultManager.

Lemma Entry_induction (P : Entry -> Prop) :
  (forall n, P (File n)) ->
  (forall n children, Forall P children -> P (Dir n children)) ->
  forall e, P e.
Proof.
  intros HF HD. fix IH 1. intros [n|n children]; [apply HF|].
  apply HD. induction children as [|c children IHc]; constructor.
  - apply IH.
  - exact IHc.
Qed.

Lemma pathsOfEntry_nonempty e : Forall (fun p => p <> []) (pathsOfEntry e).
Proof.
  destruct e as [n|n children]; simpl.
  - constructor; [discriminate | constructor].
  - constructor; [discriminate|].
    apply Forall_forall. intros p [q [<- _]]%list_elem_of_In%in_map_iff.
    discriminate.
Qed.

Lemma allPaths_nonempty children : Forall (fun p => p <> []) (allPaths children).
Proof.
  unfold allPaths. induction children as [|c children IH]; simpl; [constructor|].
  apply Forall_app. split; [apply pathsOfEntry_nonempty | exact IH].
Qed.

Lemma isMatched_cons nocase n p :
  p <> [] -> isMatched nocase (n :: p) = negb (isHidden n) && isMatched nocase p.
Proof.
  intros Hp. unfold isMatched. destruct p as [|m p]; [contradiction|].
  cbn [forallb]. rewrite last_cons_cons, !andb_assoc. reflexivity.
Qed.

Lemma filter_isMatched_cons nocase n (l : list (list string)) :
  Forall (fun p => p <> []) l ->
  length (List.filter (isMatched nocase) (List.map (cons n) l))
  = if isHidden n then 0 else length (List.filter (isMatched nocase) l).
Proof.
  induction 1 as [|p l Hp _ IH]; simpl; [destruct (isHidden n); reflexivity|].
  rewrite (isMatched_cons _ _ _ Hp).
  destruct (isHidden n); simpl in *; [exact IH|].
  destruct (isMatched nocase p); simpl; rewrite IH; reflexivity.
Qed.

Lemma filter_flat_map_length {A B C} (f : A -> list C) (g : A -> list B)
    (p : B -> bool) (l : list A) :
  Forall (fun x => length (f x) = length (List.filter p (g x))) l ->
  length (flat_map f l) = length (List.filter p (flat_map g l)).
Proof.
  induction 1 as [|x l Hx _ IH]; simpl; [reflexivity|].
  rewrite List.filter_app, !length_app, Hx, IH. reflexivity.
Qed.

Lemma globEntry_length nocase e :
  length (globEntry nocase e)
  = length (List.filter (isMatched nocase) (pathsOfEntry e)).
Proof.
  induction e as [n|n children IH] using Entry_induction.
  - simpl. unfold isMatched, matchesStarMd. simpl. rewrite andb_true_r.
    destruct (negb (isHidden n) && hasSuffix ".md" (foldCase nocase n));
      reflexivity.
  - cbn [globEntry pathsOfEntry List.filter].
    assert (Hn : isMatched nocase [n] = matchesStarMd nocase n).
    { unfold isMatched, matchesStarMd. simpl. rewrite andb_true_r. reflexivity. }
    rewrite Hn, length_app.
    pose proof (filter_isMatched_cons nocase n _ (allPaths_nonempty children)) as Hc.
    unfold allPaths in Hc.
    pose proof (filter_flat_map_length (globEntry nocase) pathsOfEntry
                  (isMatched nocase) children IH) as Hl.
    destruct (matchesStarMd nocase n); cbn [length]; rewrite Hc;
      destruct (isHidden n); cbn [length]; rewrite ?length_map, ?Hl; lia.
Qed.

Lemma isCounted_pathsOfEntry nocase e :
  List.filter (isCounted nocase) (pathsOfEntry e)
  = if isIgnored nocase (entryName e) then []
    else List.filter (isMatched nocase) (pathsOfEntry e).
Proof.
  assert (H : forall l : list (list string),
            List.filter (isCounted nocase) (List.map (cons (entryName e)) l)
            = if isIgnored nocase (entryName e) then []
              else List.filter (isMatched nocase) (List.map (cons (entryName e)) l)).
  { induction l as [|p l IH]; simpl; [destruct isIgnored; reflexivity|].
    rewrite IH. unfold isCounted at 1, isMatched at 2.
    destruct (isIgnored nocase (entryName e)); simpl.
    - rewrite andb_false_r. reflexivity.
    - rewrite andb_true_r. reflexivity. }
  destruct e as [n|n children].
  - exact (H [[]]).
  - exact (H ([] :: flat_map pathsOfEntry children)).
Qed.

Lemma glob_length nocase children :
  length (glob nocase children)
  = length (List.filter (isCounted nocase) (allPaths children)).
Proof.
  unfold glob, allPaths. induction children as [|c children IH]; [reflexivity|].
  cbn [List.filter flat_map]. rewrite List.filter_app, length_app, <- IH.
  rewrite isCounted_pathsOfEntry.
  destruct (isIgnored nocase (entryName c)); cbn [negb flat_map length];
    rewrite ?length_app, ?globEntry_length; reflexivity.
Qed.

End Scan.

(** The scenarios of the tests of [analyzeDirectory]. *)
Example analyzeDirectory_scenarios :
  let verdict (t : VaultManager.Target) :=
    match VaultManager.analyzeDirectory false "/fixtures/vault" t with
    | Effect.Returns info =>
        Some (VaultManager.isVault info, VaultManager.hasObsidianFolder info,
              VaultManager.markdownFiles info)
    | Effect.Throws _ => None
    end in
  verdict (VaultManager.DirAt [VaultManager.Dir ".obsidian" []])
  = Some (true, true, 0)
  /\ verdict (VaultManager.DirAt [VaultManager.File "Simple File.md";
                                  VaultManager.File "Another File.md"])
     = Some (true, false, 2)
  /\ verdict VaultManager.Missing = Some (false, false, 0)
  /\ verdict VaultManager.FileAt = Some (false, false, 0).
Proof. repeat split; vm_compute; reflexivity. Qed.

(** C3: [analyzeDirectory] never raises.  For a path that is missing,
    inaccessible or not a directory the descriptor says no vault, no
    [.obsidian] folder and 0 markdown files; for a directory [isVault] is
    true exactly when [hasObsidianFolder] is or [markdownFiles] is
    positive. *)
Theorem analyzeDirectory_fails_soft
    (nocase : bool) (dirPath : string) (target : VaultManager.Target) :
  exists info,
    VaultManager.analyzeDirectory nocase dirPath target = Effect.Returns info
    /\ match target with
       | VaultManager.DirAt _ =>
           VaultManager.isVault info = true
           <-> (VaultManager.hasObsidianFolder info = true
                \/ 0 < VaultManager.markdownFiles info)
       | _ =>
           VaultManager.isVault info = false
           /\ VaultManager.hasObsidianFolder info = false
           /\ VaultManager.markdownFiles info = 0
       end.
Proof.
  destruct target as [| | |children]; simpl; eexists; (split; [reflexivity|]);
    simpl; auto.
  rewrite orb_true_iff, Nat.ltb_lt. reflexivity.
Qed.




(** ** The move loop *)
Section Moves.
Import JS Effect FileProcessor FileOrganizer.

Lemma moveFile_run op w :
  moveFile (from op) (to op) w
  = ({| files := filesAfter (files w) op;
        log := log w ++ [attemptLine op (isBlocked (files w) op)] |},
     match moveError (files w) op with
     | Some e => Throws e
     | None => Returns {| moved := true; newPath := to op |}
     end).
Proof.
  unfold moveFile, tryCatch, bind, ensureDir, ret, move, logLine, throw,
    isBlocked, filesAfter, moveError, attemptLine.
  destruct w as [fs lg]. cbn [files log].
  destruct (dirError fs (dirname (to op))) as [e|]; cbn [files log].
  - destruct (fs !! from op); reflexivity.
  - destruct (fs !! from op) as [text|]; [destruct (fs !! to op) as [other|]|];
      reflexivity.
Qed.

Lemma startsWith_app p s : startsWith p (p +:+ s) = true.
Proof.
  induction p as [|c p IH]; [reflexivity|].
  change (String c p +:+ s) with (String c (p +:+ s)). cbn [startsWith].
  rewrite IH, Ascii.eqb_refl. reflexivity.
Qed.

Lemma isAttempt_attemptLine op failed : isAttempt (attemptLine op failed) = true.
Proof. destruct failed; apply startsWith_app. Qed.

Lemma moveOne_run total tally op w :
  moveOne total tally op w
  = ({| files := filesAfter (files w) op;
        log := log w ++ attemptLine op (isBlocked (files w) op)
                 :: (if isBlocked (files w) op then []
                     else [LogProgress (S (successCount tally)) total]) |},
     Returns
       {| successCount :=
            (if isBlocked (files w) op then 0 else 1) + successCount tally;
          errors :=
            errors tally
            ++ match moveError (files w) op with
               | Some e => [{| operation := op; error := e |}]
               | None => []
               end |}).
Proof.
  unfold moveOne, moveOneWith, tryCatch, bind. rewrite moveFile_run.
  unfold isBlocked.
  destruct (moveError (files w) op); cbn [logLine ret files log].
  - reflexivity.
  - rewrite <- app_assoc, app_nil_r. reflexivity.
Qed.

Lemma forEach_moveOne total ops : forall tally w,
  exists w' tally' lines,
    forEach (moveOne total) ops tally w = (w', Returns tally')
    /\ files w' = fold_left filesAfter ops (files w)
    /\ log w' = log w ++ lines
    /\ List.filter isAttempt lines
       = List.map (fun x => attemptLine (fst x) (snd x))
                  (combine ops (outcomes ops (files w)))
    /\ successCount tally' + length (failing ops (files w))
       = successCount tally + length ops
    /\ List.map operation (errors tally')
       = List.map operation (errors tally) ++ failing ops (files w).
Proof.
  induction ops as [|op ops IH]; intros tally w.
  - exists w, tally, []. cbn. rewrite !app_nil_r. repeat split; lia.
  - cbn [forEach]. unfold bind at 1. rewrite moveOne_run.
    match goal with |- context [forEach _ ops ?t ?w1] =>
      destruct (IH t w1) as (w' & tally' & lines & Hrun & Hfs & Hlog & Hatt & Hcnt & Herr)
    end.
    exists w', tally'. eexists. split; [exact Hrun|].
    cbn [files log successCount errors] in *.
    split; [exact Hfs|].
    split; [rewrite Hlog, <- app_assoc; reflexivity|].
    split; [|split].
    + cbn [outcomes combine List.map fst snd app List.filter].
      rewrite List.filter_app, Hatt. cbn [List.filter].
      rewrite isAttempt_attemptLine.
      unfold isBlocked in *; destruct (moveError (files w) op); reflexivity.
    + cbn [failing length]. rewrite length_app.
      unfold isBlocked in *; destruct (moveError (files w) op); cbn [length] in *; lia.
    + rewrite Herr, List.map_app. cbn [failing].
      unfold isBlocked in *; destruct (moveError (files w) op); cbn [List.map operation];
        rewrite <- ?app_assoc, ?app_nil_r; reflexivity.
Qed.

(** The loop, for any [moveFile]: it ends, whatever the moves come to, and
    its two variables hold what the outcomes say. *)
Lemma forEach_moveOneWith mv total ops : forall tally w,
  let rest := attempts mv total (successCount tally) ops w in
  exists tally',
    forEach (moveOneWith mv total) ops tally w = (snd rest, Returns tally')
    /\ length (fst rest) = length ops
    /\ errors tally' = errors tally ++ failures ops (fst rest)
    /\ successCount tally' + length (failures ops (fst rest))
       = successCount tally + length ops.
Proof.
  induction ops as [|op ops IH]; intros tally w; cbv zeta.
  - exists tally. cbn. rewrite app_nil_r. repeat split; lia.
  - cbn [forEach attempts]. unfold bind at 1. unfold moveOneWith at 1.
    unfold tryCatch, bind.
    destruct (mv (from op) (to op) w) as [w1 [r|e]].
    + cbn [logLine ret].
      match goal with |- context [forEach _ ops ?t ?w2] =>
        destruct (IH t w2) as (tally' & Hrun & Hlen & Herr & Hcnt)
      end.
      cbn [successCount errors] in *.
      exists tally'. cbn [fst snd failures length].
      split; [exact Hrun|]. split; [rewrite Hlen; reflexivity|].
      split; [exact Herr | lia].
    + cbn [ret].
      match goal with |- context [forEach _ ops ?t ?w2] =>
        destruct (IH t w2) as (tally' & Hrun & Hlen & Herr & Hcnt)
      end.
      cbn [successCount errors] in *.
      exists tally'. cbn [fst snd failures length].
      split; [exact Hrun|]. split; [rewrite Hlen; reflexivity|].
      split; [rewrite Herr, <- app_assoc; reflexivity | lia].
Qed.

(** The failures are the operations whose outcome is an error. *)
Lemma failures_operations ops : forall outs,
  length outs = length ops ->
  List.map operation (failures ops outs)
  = List.map fst (List.filter (fun x => match snd x with
                                        | Some _ => true
                                        | None => false
                                        end)
                              (combine ops outs)).
Proof.
  induction ops as [|op ops IH]; intros [|[e|] outs] Hlen;
    cbn [failures combine List.filter List.map fst snd operation];
    try reflexivity; try discriminate Hlen.
  - rewrite IH by (cbn [length] in Hlen; lia). reflexivity.
  - apply IH. cbn [length] in Hlen. lia.
Qed.

End Moves.

(** A batch in which the second move finds its destination taken and the
    third its source missing. *)
Example executeMoveOperations_sample :
  let op (a b : string) :=
    {| FileOrganizer.from := a; FileOrganizer.to := b;
       FileOrganizer.folder := "out" |} in
  let w := {| Effect.files := {[ "a.md" := "A"; "b.md" := "B"; "c.md" := "C" ]};
              Effect.log := [] |} in
  let run :=
    FileOrganizer.executeMoveOperations true
      [op "a.md" "out/a.md"; op "b.md" "out/a.md"; op "zz.md" "out/z.md";
       op "c.md" "out/c.md"] w in
  option_map FileOrganizer.successCount
    (match snd run with Effect.Returns t => t | Effect.Throws _ => None end)
  = Some 2
  /\ option_map (fun t => List.map FileOrganizer.error (FileOrganizer.errors t))
       (match snd run with Effect.Returns t => t | Effect.Throws _ => None end)
     = Some [Effect.EEXIST "out/a.md"; Effect.ENOENT "zz.md"]
  /\ Effect.files (fst run) !! "b.md" = Some "B"
  /\ Effect.files (fst run) !! "out/a.md" = Some "A"
  /\ Effect.files (fst run) !! "out/c.md" = Some "C".
Proof. repeat split; vm_compute; reflexivity. Qed.

(** A move whose destination lies below a file: the directory cannot be
    made, the move fails and the file stays where it is. *)
Example executeMoveOperations_below_a_file :
  let w := {| Effect.files := {[ "b.md" := "B"; "out/a.md" := "A" ]};
              Effect.log := [] |} in
  let run :=
    FileOrganizer.executeMoveOperations true
      [{| FileOrganizer.from := "b.md"; FileOrganizer.to := "out/a.md/b.md";
          FileOrganizer.folder := "out/a.md" |}] w in
  option_map (fun t => (FileOrganizer.successCount t,
                        List.map FileOrganizer.error (FileOrganizer.errors t)))
    (match snd run with Effect.Returns t => t | Effect.Throws _ => None end)
  = Some (0, [Effect.EEXIST "out/a.md"])
  /\ Effect.files (fst run) !! "b.md" = Some "B"
  /\ Effect.files (fst run) !! "out/a.md/b.md" = None.
Proof. repeat split; vm_compute; reflexivity. Qed.

(** C4: once the preview is accepted, and whatever [moveFile] does with a
    move (the library refuses to overwrite a destination that is taken; a
    source may be missing, a directory impossible to make), the loop tries
    every operation in the order of the list, each in the world the ones
    before it have left, and never stops early.  With [K] the number of
    operations on which [moveFile] throws, it counts [N - K] successes and
    holds a list of [K] failures: those operations, in order, each with the
    error thrown; the logger is given both counts. *)
Theorem executeMoveOperations_tally
    (moveFile : string -> string -> Effect.M FileProcessor.MoveResult)
    (operations : list FileOrganizer.MoveOperation) (w : Effect.World) :
  let n := length operations in
  let start :=
    {| Effect.files := Effect.files w;
       Effect.log :=
         Effect.log w
         ++ [Effect.LogInfo ("Executing " +:+ FileOrganizer.natToString n
                               +:+ " move operations...")] |} in
  let tried := fst (FileOrganizer.attempts moveFile n 0 operations start) in
  let after := snd (FileOrganizer.attempts moveFile n 0 operations start) in
  let failed := FileOrganizer.failures operations tried in
  let k := length failed in
  exists w' tally,
    FileOrganizer.executeMoveOperationsWith moveFile true operations w
    = (w', Effect.Returns (Some tally))
    /\ length tried = n
    /\ List.map FileOrganizer.operation failed
       = List.map fst
           (List.filter (fun x => match snd x with
                                  | Some _ => true
                                  | None => false
                                  end)
                        (combine operations tried))
    /\ k <= n
    /\ FileOrganizer.successCount tally = n - k
    /\ FileOrganizer.errors tally = failed
    /\ Effect.files w' = Effect.files after
    /\ Effect.log w' = Effect.log after ++ FileOrganizer.reportLines (n - k) k.
Proof.
  cbv zeta. unfold FileOrganizer.executeMoveOperationsWith.
  unfold Effect.bind at 1. cbn [Effect.logLine negb].
  unfold Effect.bind at 1.
  match goal with |- context [FileOrganizer.forEach _ _ ?t ?w1] =>
    destruct (forEach_moveOneWith moveFile (length operations) operations t w1)
      as (tally & Hrun & Hlen & Herr & Hcnt)
  end.
  cbn [FileOrganizer.successCount FileOrganizer.errors app] in *.
  rewrite Hrun.
  unfold Effect.bind, Effect.logLine, Effect.ret, FileOrganizer.reportLines.
  cbn [Effect.files Effect.log].
  set (rest := FileOrganizer.attempts moveFile (length operations) 0 operations _)
    in *.
  replace (length operations
           - length (FileOrganizer.failures operations (fst rest)))
    with (FileOrganizer.successCount tally) by lia.
  rewrite <- Herr.
  destruct (0 <? length (FileOrganizer.errors tally))%nat;
    (eexists _, tally; split; [reflexivity|]);
    (split; [exact Hlen|]);
    (split; [rewrite Herr; apply failures_operations, Hlen|]);
    (split; [rewrite Herr; lia|]); (split; [reflexivity|]);
    (split; [reflexivity|]); (split; [reflexivity|]);
    cbn [Effect.log]; rewrite <- ?app_assoc; reflexivity.
Qed.

(** ** Objects *)
Section Objects.
Import JS.

Lemma get_set o k v k' :
  get (set o k v) k' = if String.eqb k k' then Some v else get o k'.
Proof.
  induction o as [|[k0 v0] o IH]; cbn [set get].
  - destruct (String.eqb k k'); reflexivity.
  - destruct (String.eqb k0 k) eqn:E0; cbn [get].
    + apply String.eqb_eq in E0 as ->.
      destruct (String.eqb k k'); reflexivity.
    + rewrite IH. destruct (String.eqb k0 k') eqn:E1; [|reflexivity].
      apply String.eqb_eq in E1 as ->. rewrite String.eqb_sym, E0. reflexivity.
Qed.

Lemma get_None_notin o k : get o k = None -> ~ In k (List.map fst o).
Proof.
  induction o as [|[k0 v0] o IH]; cbn [get List.map fst]; [tauto|].
  destruct (String.eqb k0 k) eqn:E; [discriminate|].
  intros H [->|Hin]; [rewrite String.eqb_refl in E; discriminate E|].
  exact (IH H Hin).
Qed.

Lemma get_spread a b k :
  wf b ->
  get (spread a b) k = match get b k with Some v => Some v | None => get a k end.
Proof.
  unfold spread, wf. revert a.
  induction b as [|[k0 v0] b IH]; intros a Hb; cbn [fold_left get fst snd];
    [reflexivity|].
  cbn [List.map fst] in Hb. apply NoDup_cons in Hb as [Hk0 Hb].
  rewrite (IH _ Hb), get_set.
  destruct (String.eqb k0 k) eqn:E; [|reflexivity].
  apply String.eqb_eq in E as ->.
  destruct (get b k) as [v|] eqn:G; [|reflexivity].
  exfalso. apply Hk0. apply list_elem_of_In.
  clear -G. induction b as [|[k1 v1] b IH]; cbn [get] in G; [discriminate|].
  cbn [List.map fst]. destruct (String.eqb k1 k) eqn:E.
  - left. apply String.eqb_eq, E.
  - right. exact (IH G).
Qed.

Lemma append_cons c a b : String c a +:+ b = String c (a +:+ b).
Proof. reflexivity. Qed.

Lemma append_nil_r s : s +:+ "" = s.
Proof.
  induction s as [|c s IH]; [reflexivity|]. rewrite append_cons, IH. reflexivity.
Qed.

Lemma append_assoc a b c : (a +:+ b) +:+ c = a +:+ (b +:+ c).
Proof.
  induction a as [|x a IH]; [reflexivity|]. rewrite !append_cons, IH. reflexivity.
Qed.

Lemma append_length a b :
  String.length (a +:+ b) = String.length a + String.length b.
Proof.
  induction a as [|x a IH]; [reflexivity|]. rewrite append_cons. cbn [String.length].
  rewrite IH. reflexivity.
Qed.

Lemma append_neq s t : t <> "" -> s +:+ t <> s.
Proof.
  intros Ht H. apply (f_equal String.length) in H. rewrite append_length in H.
  destruct t; [contradiction|]. cbn in H. lia.
Qed.

Lemma stringifyMarkdown_keeps_body fm body :
  exists header,
    MarkdownUtils.stringifyMarkdown fm body = header +:+ body
    /\ (fm <> [] ->
        header = "---" +:+ String newline (MarkdownUtils.stringifyYaml fm)
                   +:+ "---" +:+ String newline (String newline "")).
Proof.
  destruct fm as [|kv fm].
  - exists "". split; [reflexivity | contradiction].
  - eexists ("---" +:+ String newline (MarkdownUtils.stringifyYaml (kv :: fm))
             +:+ "---" +:+ String newline (String newline "")).
    split; [|reflexivity].
    unfold MarkdownUtils.stringifyMarkdown.
    rewrite !append_assoc. reflexivity.
Qed.

End Objects.

(** What [updateFileFrontmatter] does for a file that is there: it reads
    the current text, parses it, merges the given map into the parsed
    frontmatter (a key of the given map wins, any other key keeps the value
    the parser has read), and writes the merged frontmatter as
    [stringifyYaml] prints it, between two fences, then a blank line and the
    parsed body; the text read is kept in the backup. *)
Lemma updateFileFrontmatter_merges
    (matter : string -> option MarkdownUtils.Parsed) (now : Z)
    (filePath : string) (newFrontmatter : JS.object) (w : Effect.World)
    (text : string) :
  Effect.files w !! filePath = Some text ->
  JS.wf newFrontmatter ->
  let parsed := MarkdownUtils.parseMarkdown matter text in
  let backup := filePath +:+ ".backup." +:+ JS.numberToString now in
  exists w' merged header,
    FileProcessor.updateFileFrontmatter matter now filePath newFrontmatter w
    = (w', Effect.Returns {| FileProcessor.success := true;
                             FileProcessor.backupPath := backup |})
    /\ (forall k,
          JS.get merged k
          = match JS.get newFrontmatter k with
            | Some v => Some v
            | None => JS.get (MarkdownUtils.frontmatter parsed) k
            end)
    /\ Effect.files w' !! filePath
       = Some (MarkdownUtils.stringifyMarkdown merged
                 (MarkdownUtils.content parsed))
    /\ MarkdownUtils.stringifyMarkdown merged (MarkdownUtils.content parsed)
       = header +:+ MarkdownUtils.content parsed
    /\ (merged <> [] ->
        header = "---" +:+ String JS.newline (MarkdownUtils.stringifyYaml merged)
                   +:+ "---" +:+ String JS.newline (String JS.newline ""))
    /\ Effect.files w' !! backup = Some text
    /\ forall other,
         other <> filePath -> other <> backup ->
         Effect.files w' !! other = Effect.files w !! other.
Proof.
  intros Hfile Hwf parsed backup.
  set (merged := JS.spread (MarkdownUtils.frontmatter parsed) newFrontmatter).
  destruct (stringifyMarkdown_keeps_body merged (MarkdownUtils.content parsed))
    as (header & Hheader & Hfences).
  eexists _, merged, header. split.
  { unfold FileProcessor.updateFileFrontmatter, FileProcessor.updateFile,
      Effect.tryCatch, Effect.bind, Effect.readFile, Effect.copy,
      Effect.writeFile, Effect.logLine, Effect.ret.
    rewrite Hfile. cbn [Effect.files Effect.log]. rewrite Hfile. reflexivity. }
  split; [intros k; apply get_spread, Hwf|].
  assert (Hne : backup <> filePath).
  { unfold backup. apply append_neq. discriminate. }
  cbn [Effect.files].
  split; [apply lookup_insert_eq|].
  split; [exact Hheader|].
  split; [exact Hfences|].
  split.
  - rewrite lookup_insert_ne by (intros E; apply Hne; symmetry; exact E).
    apply lookup_insert_eq.
  - intros other H1 H2.
    rewrite !lookup_insert_ne by (intros E; symmetry in E; contradiction).
    reflexivity.
Qed.

Lemma updateFileFrontmatter_merges_witness :
  let text := "---" +:+ String JS.newline
                ("title: T" +:+ String JS.newline
                   ("tags: [a]" +:+ String JS.newline
                      ("---" +:+ String JS.newline "Body"))) in
  let w := {| Effect.files := {[ "n.md" := text ]}; Effect.log := [] |} in
  exists w' merged,
    FileProcessor.updateFileFrontmatter (fun _ => None) 1700000000000
      "n.md" [("title", JS.VStr "U"); ("draft", JS.VBool true)] w
    = (w', Effect.Returns
             {| FileProcessor.success := true;
                FileProcessor.backupPath := "n.md.backup.1700000000000" |})
    /\ JS.get merged "title" = Some (JS.VStr "U")
    /\ JS.get merged "tags" = Some (JS.VArr [JS.VStr "a"])
    /\ JS.get merged "draft" = Some (JS.VBool true)
    /\ Effect.files w' !! "n.md.backup.1700000000000" = Some text.
Proof.
  cbv zeta.
  destruct (updateFileFrontmatter_merges (fun _ => None) 1700000000000 "n.md"
              [("title", JS.VStr "U"); ("draft", JS.VBool true)]
              {| Effect.files :=
                   {[ "n.md" := "---" +:+ String JS.newline
                        ("title: T" +:+ String JS.newline
                           ("tags: [a]" +:+ String JS.newline
                              ("---" +:+ String JS.newline "Body"))) ]};
                 Effect.log := [] |}
              ("---" +:+ String JS.newline
                 ("title: T" +:+ String JS.newline
                    ("tags: [a]" +:+ String JS.newline
                       ("---" +:+ String JS.newline "Body")))))
    as (w' & merged & header & Hrun & Hget & _ & _ & _ & Hbackup & _).
  - apply lookup_singleton_eq.
  - unfold JS.wf. cbn [List.map fst].
    apply NoDup_cons. split; [|apply NoDup_singleton].
    intros H%list_elem_of_singleton. discriminate H.
  - exists w', merged. split; [exact Hrun|].
    rewrite !Hget. split; [reflexivity|]. split; [reflexivity|].
    split; [reflexivity|]. exact Hbackup.
Defined.

(** C5: a key that the update does not name does not keep the value it
    has on disk.  The file holds the line  count: "123" , which gray-matter
    and the manual parser read as the string 123.  An update that names
    [title] alone writes the line  count: 123 , which they read as a
    number.  This is so whether gray-matter has parsed the text ([Some raw]
    standing for the raw frontmatter it keeps) or the manual parser has
    taken over.  In the text written, the body, which stood on the line
    after the closing fence, comes after a blank line. *)
Theorem updateFileFrontmatter_rewrites_untouched_keys :
  let quoted (s : string) :=
    String MarkdownUtils.dquote s +:+ String MarkdownUtils.dquote "" in
  let text := "---" +:+ String JS.newline
                ("count: " +:+ quoted "123" +:+ String JS.newline
                   ("---" +:+ String JS.newline "Body")) in
  let written := "---" +:+ String JS.newline
                   ("count: 123" +:+ String JS.newline
                      ("title: U" +:+ String JS.newline
                         ("---" +:+ String JS.newline
                            (String JS.newline "Body")))) in
  let w := {| Effect.files := {[ "n.md" := text ]}; Effect.log := [] |} in
  let matter (answer : option (option string)) :=
    fun _ : string =>
      option_map
        (fun raw => {| MarkdownUtils.frontmatter := [("count", JS.VStr "123")];
                       MarkdownUtils.content := "Body";
                       MarkdownUtils.frontmatterRaw := raw |})
        answer in
  MarkdownUtils.frontmatter (MarkdownUtils.manualParse text)
  = [("count", JS.VStr "123")]
  /\ MarkdownUtils.content (MarkdownUtils.manualParse text) = "Body"
  /\ (forall answer,
        Effect.files
          (fst (FileProcessor.updateFileFrontmatter (matter answer)
                  1700000000000 "n.md" [("title", JS.VStr "U")] w))
        !! "n.md"
        = Some written)
  /\ MarkdownUtils.frontmatter (MarkdownUtils.manualParse written)
     = [("count", JS.VNum 123); ("title", JS.VStr "U")]
  /\ JS.get (MarkdownUtils.frontmatter (MarkdownUtils.manualParse written))
            "count"
     <> JS.get (MarkdownUtils.frontmatter (MarkdownUtils.manualParse text))
              "count".
Proof.
  cbv zeta. split; [vm_compute; reflexivity|].
  split; [vm_compute; reflexivity|].
  split; [intros [raw|]; vm_compute; reflexivity|].
  split; [vm_compute; reflexivity|].
  vm_compute. discriminate.
Qed.

(** ** Tags *)
Section Tags.
Import JS FileUtils.

Lemma value_induction (P : value -> Prop) :
  P VNull -> (forall b, P (VBool b)) -> (forall n, P (VNum n)) ->
  (forall s, P (VStr s)) ->
  (forall items, Forall P items -> P (VArr items)) ->
  forall v, P v.
Proof.
  intros HN HB HZ HS HA. fix IH 1.
  intros [ | b | n | s | items]; [exact HN | apply HB | apply HZ | apply HS |].
  apply HA. induction items as [|x items IHi]; constructor; [apply IH | exact IHi].
Qed.

Lemma value_eqb_eq a b : value_eqb a b = true <-> a = b.
Proof.
  revert b. induction a as [ | x | x | x | xs IH] using value_induction;
    intros [ | y | y | y | ys]; cbn [value_eqb];
    try (split; [discriminate | intros [=]]); try tauto.
  - rewrite Bool.eqb_true_iff. split; [intros ->; reflexivity | intros [=]; assumption].
  - rewrite Z.eqb_eq. split; [intros ->; reflexivity | intros [=]; assumption].
  - rewrite String.eqb_eq. split; [intros ->; reflexivity | intros [=]; assumption].
  - revert ys. induction IH as [|x xs Hx _ IHxs]; intros [|y ys];
      try (split; [discriminate | intros [=]]); [tauto|].
    rewrite andb_true_iff, Hx, IHxs.
    split; [intros [-> [=]]; subst; reflexivity | intros [=]; subst; auto].
Qed.

Lemma existsb_value_eqb t l : existsb (value_eqb t) l = true <-> In t l.
Proof.
  rewrite existsb_exists. split.
  - intros [x [Hx E]]. apply value_eqb_eq in E as ->. exact Hx.
  - intros H. exists t. split; [exact H | apply value_eqb_eq; reflexivity].
Qed.

Lemma pushUnique_In acc t x : In x (pushUnique acc t) <-> In x acc \/ x = t.
Proof.
  unfold pushUnique. destruct (existsb (value_eqb t) acc) eqn:E.
  - apply existsb_value_eqb in E. split; [tauto | intros [H | ->]; assumption].
  - rewrite in_app_iff. cbn. split; [intros [H|[<-|[]]]; auto | intros [H | ->]; auto].
Qed.

Lemma pushUnique_NoDup acc t : NoDup acc -> NoDup (pushUnique acc t).
Proof.
  intros H. unfold pushUnique. destruct (existsb (value_eqb t) acc) eqn:E; [exact H|].
  apply NoDup_app. split; [exact H|]. split; [|apply NoDup_singleton].
  intros x Hx ->%list_elem_of_singleton.
  apply list_elem_of_In, existsb_value_eqb in Hx. congruence.
Qed.

Lemma fold_pushUnique l : forall acc,
  NoDup acc ->
  NoDup (fold_left pushUnique l acc)
  /\ forall x, In x (fold_left pushUnique l acc) <-> In x acc \/ In x l.
Proof.
  induction l as [|t l IH]; intros acc Hacc; cbn [fold_left].
  - split; [exact Hacc | intros x; cbn; tauto].
  - destruct (IH _ (pushUnique_NoDup acc t Hacc)) as [Hnd Hin].
    split; [exact Hnd|]. intros x. rewrite Hin, pushUnique_In. cbn.
    split; [intros [[H|H]|H] | intros [H|[H|H]]]; auto.
Qed.

End Tags.

(** C6, as the specification has it, fails: a [tags] line that is not an
    array is one tag, commas and all; it is not split. *)
Lemma analyzeMarkdownFile_keeps_comma_text :
  let content :=
    "---" +:+ String JS.newline
      ("tags: alpha, beta" +:+ String JS.newline
         ("---" +:+ String JS.newline "see #gamma")) in
  JS.get (FileUtils.frontmatter (FileUtils.analyzeMarkdownFile content)) "tags"
  = Some (JS.VStr "alpha, beta")
  /\ List.map JS.trim (JS.split "," "alpha, beta") = ["alpha"; "beta"]
  /\ FileUtils.tags (FileUtils.analyzeMarkdownFile content)
     = [JS.VStr "gamma"; JS.VStr "alpha, beta"]
  /\ ~ In (JS.VStr "alpha") (FileUtils.tags (FileUtils.analyzeMarkdownFile content)).
Proof.
  cbv zeta. split; [vm_compute; reflexivity|]. split; [vm_compute; reflexivity|].
  split; [vm_compute; reflexivity|].
  vm_compute. intros [H|[H|[]]]; discriminate H.
Qed.

(** C6, amended: the tags of a text are, each once, the inline hashtags of
    its body (a [#] followed by one or more letters, digits, underscores or
    hyphens) and what the [tags] entry of the frontmatter gives: the
    elements of an array, or the entry itself, as one tag, when it is
    another truthy value.  For the body [content with #tag1 and #tag2]
    under the frontmatter tags [tag2, tag3] they are tag1, tag2, tag3. *)
Theorem analyzeMarkdownFile_tags (content : string) :
  let analysis := FileUtils.analyzeMarkdownFile content in
  let fromFrontmatter :=
    match JS.get (FileUtils.frontmatter analysis) "tags" with
    | Some (JS.VArr items) => items
    | Some v => if JS.truthy v then [v] else []
    | None => []
    end in
  let quoted (s : string) :=
    String MarkdownUtils.dquote s +:+ String MarkdownUtils.dquote "" in
  NoDup (FileUtils.tags analysis)
  /\ (forall t,
        In t (FileUtils.tags analysis)
        <-> In t (List.map JS.VStr (FileUtils.hashtags (FileUtils.bodyOf content)))
            \/ In t fromFrontmatter)
  /\ FileUtils.tags
       (FileUtils.analyzeMarkdownFile
          ("---" +:+ String JS.newline
             ("tags: [" +:+ quoted "tag2" +:+ "," +:+ quoted "tag3" +:+ "]"
                +:+ String JS.newline
                  ("---" +:+ String JS.newline "content with #tag1 and #tag2"))))
     = [JS.VStr "tag1"; JS.VStr "tag2"; JS.VStr "tag3"].
Proof.
  cbv zeta. split; [|split; [|vm_compute; reflexivity]].
  - unfold FileUtils.analyzeMarkdownFile. cbn [FileUtils.tags].
    apply fold_pushUnique, fold_pushUnique. constructor.
  - intros t. unfold FileUtils.analyzeMarkdownFile, FileUtils.bodyOf.
    cbn [FileUtils.tags FileUtils.frontmatter].
    set (fm := match JS.matchFrontmatter content with
               | Some (raw, _) => _ | None => _ end).
    set (body := match JS.matchFrontmatter content with
                 | Some (_, rest) => rest | None => content end).
    destruct (fold_pushUnique (List.map JS.VStr (FileUtils.hashtags body)) [])
      as [Hnd Hin]; [constructor|].
    destruct (fold_pushUnique (FileUtils.frontmatterTags fm) _ Hnd) as [_ Hin2].
    rewrite Hin2, Hin. unfold FileUtils.frontmatterTags.
    assert (Hbody : body = match JS.matchFrontmatter content with
                           | Some (_, rest) => rest | None => content end)
      by reflexivity.
    destruct (JS.get fm "tags") as [[ | b | n | s | items]|];
      cbn [JS.truthy]; cbn; try tauto;
      match goal with |- context [if ?c then _ else _] => destruct c end;
      cbn; tauto.
Qed.

(** ** Property names *)
Section Names.
Import JS PropertyManager.

Lemma findStandardProperty_standard n :
  In n standardNames -> findStandardProperty n = n.
Proof.
  unfold standardNames. cbn [List.map fst standardProperties].
  intros H. repeat (destruct H as [<- | H]; [vm_compute; reflexivity|]).
  destruct H.
Qed.

Lemma find_fst_In {A} (f : string * A -> bool) (l : list (string * A)) e :
  List.find f l = Some e -> In (fst e) (List.map fst l).
Proof.
  intros H. apply find_some in H as [H _]. apply in_map, H.
Qed.

Lemma findStandardProperty_cases k :
  In (findStandardProperty k) standardNames \/ findStandardProperty k = k.
Proof.
  unfold findStandardProperty.
  destruct (isStandard (toLowerCase k)) eqn:E.
  - left. unfold isStandard in E. apply existsb_exists in E as [e [He Heq]].
    apply String.eqb_eq in Heq as <-. apply in_map, He.
  - destruct (List.find
                (fun entry => existsb (String.eqb (toLowerCase k))
                                      (aliases (snd entry)))
                standardProperties) as [e|] eqn:F1.
    + left. exact (find_fst_In _ _ _ F1).
    + destruct (List.find
                  (fun entry => arePropertiesSimilar (toLowerCase k) (fst entry))
                  standardProperties) as [e|] eqn:F2.
      * left. exact (find_fst_In _ _ _ F2).
      * right. reflexivity.
Qed.

Lemma findStandardProperty_idempotent k :
  findStandardProperty (findStandardProperty k) = findStandardProperty k.
Proof.
  destruct (findStandardProperty_cases k) as [H|H].
  - apply findStandardProperty_standard, H.
  - rewrite H. exact H.
Qed.

Lemma keys_set o k v x :
  In x (List.map fst (set o k v)) <-> In x (List.map fst o) \/ x = k.
Proof.
  induction o as [|[k0 v0] o IH]; cbn [set List.map fst In].
  - split; [intros [<-|[]]; auto | intros [[]| ->]; auto].
  - destruct (String.eqb k0 k) eqn:E; cbn [List.map fst In].
    + apply String.eqb_eq in E as ->. split; [tauto | intros [H| ->]; auto].
    + rewrite IH. tauto.
Qed.

Lemma wf_set o k v : wf o -> wf (set o k v).
Proof.
  unfold wf. induction o as [|[k0 v0] o IH]; cbn [set List.map fst].
  - intros _. apply NoDup_singleton.
  - intros [Hk0 Ho]%NoDup_cons.
    destruct (String.eqb k0 k) eqn:E; cbn [List.map fst].
    + apply NoDup_cons. split; assumption.
    + apply NoDup_cons. split; [|apply IH, Ho].
      rewrite list_elem_of_In, keys_set, <- list_elem_of_In.
      intros [H| ->]; [contradiction|]. rewrite String.eqb_refl in E. discriminate E.
Qed.

Lemma set_fresh o k v :
  ~ In k (List.map fst o) -> set o k v = o ++ [(k, v)].
Proof.
  induction o as [|[k0 v0] o IH]; cbn [set List.map fst In app]; [reflexivity|].
  intros H. destruct (String.eqb k0 k) eqn:E.
  - apply String.eqb_eq in E. tauto.
  - rewrite IH by tauto. reflexivity.
Qed.

(** The invariant of the loop: an object, every key of which is settled. *)
Lemma standardize_fold fm : forall acc,
  wf (fst acc) ->
  (forall k, In k (List.map fst (fst acc)) -> findStandardProperty k = k) ->
  wf (fst (fold_left standardizeEntry fm acc))
  /\ forall k, In k (List.map fst (fst (fold_left standardizeEntry fm acc))) ->
               findStandardProperty k = k.
Proof.
  induction fm as [|[k v] fm IH]; intros acc Hwf Hfix; [auto|].
  cbn [fold_left]. apply IH; unfold standardizeEntry; cbn [fst snd].
  - apply wf_set, Hwf.
  - intros x [H| ->]%keys_set; [apply Hfix, H|].
    apply findStandardProperty_idempotent.
Qed.

(** On an object whose keys are settled, the loop rebuilds the object. *)
Lemma standardize_settled fm : forall acc,
  wf (fst acc ++ fm) ->
  (forall k, In k (List.map fst fm) -> findStandardProperty k = k) ->
  fold_left standardizeEntry fm acc = (fst acc ++ fm, snd acc).
Proof.
  induction fm as [|[k v] fm IH]; intros [o ms] Hwf Hfix; cbn [fst snd] in *.
  - rewrite app_nil_r. reflexivity.
  - cbn [fold_left]. unfold standardizeEntry at 2. cbn [fst snd].
    rewrite (Hfix k) by (left; reflexivity). rewrite String.eqb_refl.
    assert (Hk : ~ In k (List.map fst o)).
    { unfold wf in Hwf. rewrite List.map_app in Hwf.
      apply NoDup_app in Hwf as (_ & Hdis & _).
      intros Hin. apply (Hdis k); [apply list_elem_of_In, Hin|].
      cbn [List.map fst]. left. }
    rewrite (set_fresh _ _ _ Hk), IH; cbn [fst snd].
    + rewrite <- app_assoc. reflexivity.
    + rewrite <- app_assoc. exact Hwf.
    + intros x Hx. apply Hfix. right. exact Hx.
Qed.

End Names.

Example standardizePropertyNames_date_created :
  PropertyManager.standardizePropertyNames [("date-created", JS.VStr "2024-03-01")]
  = ([("created", JS.VStr "2024-03-01")],
     [{| PropertyManager.from := "date-created"; PropertyManager.to := "created" |}]).
Proof. vm_compute. reflexivity. Qed.

(** C8: [standardizePropertyNames] is idempotent: on the frontmatter it has
    produced it changes nothing and renames nothing, every key of that
    frontmatter being a fixed point of [findStandardProperty]. *)
Theorem standardizePropertyNames_idempotent (frontmatter : JS.object) :
  let once := fst (PropertyManager.standardizePropertyNames frontmatter) in
  PropertyManager.standardizePropertyNames once = (once, [])
  /\ forall k, In k (List.map fst once) ->
               PropertyManager.findStandardProperty k = k.
Proof.
  cbv zeta. unfold PropertyManager.standardizePropertyNames.
  destruct (standardize_fold frontmatter ([], [])) as [Hwf Hfix].
  { apply NoDup_nil_2. }
  { intros k []. }
  split; [|exact Hfix].
  apply (standardize_settled _ ([], [])); assumption.
Qed.

(** ** Missing properties *)

(** Decides the comparisons of literal keys that stand in the goal. *)
Ltac norm_keys :=
  repeat match goal with
         | |- context [String.eqb ?a ?b] =>
             let v := eval vm_compute in (String.eqb a b) in
             change (String.eqb a b) with v
         end;
  cbn [andb option_map];
  rewrite ?andb_false_r, ?andb_true_r.

Section Missing.
Import JS PropertyManager.

Lemma falsyAt_set o k v k' :
  String.eqb k k' = false -> falsyAt (set o k v) k' = falsyAt o k'.
Proof. intros H. unfold falsyAt. rewrite get_set, H. reflexivity. Qed.

Lemma addDate_fst key field acc k :
  get (fst (addDate key field acc)) k
  = if fillsDate key field (fst acc) && String.eqb key k
    then option_map (fun d => VStr (isoDate d)) field
    else get (fst acc) k.
Proof.
  unfold addDate, fillsDate. destruct field as [d|]; [|reflexivity].
  destruct (falsyAt (fst acc) key); [|reflexivity].
  cbn [fst andb option_map]. apply get_set.
Qed.

Lemma addDate_snd key field acc :
  snd (addDate key field acc)
  = snd acc
    ++ match field with
       | Some d =>
           if falsyAt (fst acc) key
           then [{| property := key; value_ := VStr (isoDate d) |}]
           else []
       | None => []
       end.
Proof.
  unfold addDate. destruct field as [d|]; [|rewrite app_nil_r; reflexivity].
  destruct (falsyAt (fst acc) key); [reflexivity | rewrite app_nil_r; reflexivity].
Qed.

Lemma addDate_falsyAt key field acc k :
  String.eqb key k = false ->
  falsyAt (fst (addDate key field acc)) k = falsyAt (fst acc) k.
Proof.
  intros H. unfold falsyAt. rewrite addDate_fst, H, andb_false_r. reflexivity.
Qed.

Lemma addTags_fst acc k :
  get (fst (addTags acc)) k
  = if falsyAt (fst acc) "tags" && String.eqb "tags" k
    then Some (VArr [])
    else get (fst acc) k.
Proof.
  unfold addTags. destruct (falsyAt (fst acc) "tags"); [|reflexivity].
  cbn [fst andb]. apply get_set.
Qed.

Lemma addTags_snd acc :
  snd (addTags acc)
  = snd acc
    ++ (if falsyAt (fst acc) "tags"
        then [{| property := "tags"; value_ := VArr [] |}]
        else []).
Proof.
  unfold addTags. destruct (falsyAt (fst acc) "tags");
    [reflexivity | rewrite app_nil_r; reflexivity].
Qed.

End Missing.

Example isoDate_samples :
  List.map PropertyManager.isoDate
    [0; 1700000000000; 951782400000; 1709251199999; -1]%Z
  = ["1970-01-01"; "2023-11-14"; "2000-02-29"; "2024-02-29"; "1969-12-31"].
Proof. vm_compute. reflexivity. Qed.

(** C9, as the specification has it, fails: a [tags] entry that is there
    with the empty text is replaced by the empty array, and the addition is
    recorded. *)
Lemma addMissingProperties_replaces_empty_tags :
  JS.has [("tags", JS.VStr "")] "tags" = true
  /\ PropertyManager.addMissingProperties [("tags", JS.VStr "")] "note.md" None
     = ([("tags", JS.VArr [])],
        [{| PropertyManager.property := "tags";
            PropertyManager.value_ := JS.VArr [] |}]).
Proof. split; vm_compute; reflexivity. Qed.

(** C9, amended: [addMissingProperties] leaves a [tags] entry with a truthy
    value (any array, the empty one too) as it is and records nothing for
    it; it sets [tags] to the empty array, and records it, when the key is
    absent or its value falsy.  Likewise [created] and [modified] are set to
    the date of the file statistics, as text, and recorded, when the key is
    absent or falsy and the statistics have the time; they are left as they
    are otherwise.  No other key changes. *)
Theorem addMissingProperties_fills_falsy
    (frontmatter : JS.object) (filePath : string)
    (fileStats : option PropertyManager.Stats) :
  let result :=
    PropertyManager.addMissingProperties frontmatter filePath fileStats in
  let filled (key : string) (v : JS.value) :=
    JS.get (fst result) key = Some v
    /\ In {| PropertyManager.property := key; PropertyManager.value_ := v |}
          (snd result) in
  let kept (key : string) :=
    JS.get (fst result) key = JS.get frontmatter key
    /\ Forall (fun a => PropertyManager.property a <> key) (snd result) in
  let dated (key : string) (field : option PropertyManager.Date) :=
    match field with
    | Some date =>
        if JS.falsyAt frontmatter key
        then filled key (JS.VStr (PropertyManager.isoDate date))
        else kept key
    | None => kept key
    end in
  (if JS.falsyAt frontmatter "tags" then filled "tags" (JS.VArr []) else kept "tags")
  /\ dated "created" (fileStats ≫= PropertyManager.birthtime)
  /\ dated "modified" (fileStats ≫= PropertyManager.mtime)
  /\ forall k,
       JS.get (fst result) k
       = if existsb (String.eqb k) ["created"; "modified"; "tags"]
         then JS.get (fst result) k
         else JS.get frontmatter k.
Proof.
  cbv zeta. unfold PropertyManager.addMissingProperties.
  set (c := fileStats ≫= PropertyManager.birthtime).
  set (m := fileStats ≫= PropertyManager.mtime).
  set (s1 := PropertyManager.addDate "created" c (frontmatter, [])).
  set (s2 := PropertyManager.addDate "modified" m s1).
  assert (Ht : JS.falsyAt (fst s2) "tags" = JS.falsyAt frontmatter "tags").
  { unfold s2, s1. rewrite !addDate_falsyAt by reflexivity. reflexivity. }
  assert (Hm : JS.falsyAt (fst s1) "modified" = JS.falsyAt frontmatter "modified").
  { unfold s1. rewrite addDate_falsyAt by reflexivity. reflexivity. }
  assert (Hget : forall k,
            JS.get (fst (PropertyManager.addTags s2)) k
            = if JS.falsyAt frontmatter "tags" && String.eqb "tags" k
              then Some (JS.VArr [])
              else if PropertyManager.fillsDate "modified" m frontmatter
                      && String.eqb "modified" k
              then option_map (fun d => JS.VStr (PropertyManager.isoDate d)) m
              else if PropertyManager.fillsDate "created" c frontmatter
                      && String.eqb "created" k
              then option_map (fun d => JS.VStr (PropertyManager.isoDate d)) c
              else JS.get frontmatter k).
  { intros k. rewrite addTags_fst, Ht. unfold s2. rewrite addDate_fst.
    unfold s1 at 2. rewrite addDate_fst. cbn [fst].
    replace (PropertyManager.fillsDate "modified" m (fst s1))
      with (PropertyManager.fillsDate "modified" m frontmatter)
      by (unfold PropertyManager.fillsDate; destruct m; [symmetry; exact Hm | reflexivity]).
    reflexivity. }
  assert (Hadd : snd (PropertyManager.addTags s2)
            = (match c with
               | Some d =>
                   if JS.falsyAt frontmatter "created"
                   then [{| PropertyManager.property := "created";
                            PropertyManager.value_ :=
                              JS.VStr (PropertyManager.isoDate d) |}]
                   else []
               | None => []
               end)
              ++ (match m with
                  | Some d =>
                      if JS.falsyAt frontmatter "modified"
                      then [{| PropertyManager.property := "modified";
                               PropertyManager.value_ :=
                                 JS.VStr (PropertyManager.isoDate d) |}]
                      else []
                  | None => []
                  end)
              ++ (if JS.falsyAt frontmatter "tags"
                  then [{| PropertyManager.property := "tags";
                           PropertyManager.value_ := JS.VArr [] |}]
                  else [])).
  { rewrite addTags_snd, Ht. unfold s2. rewrite addDate_snd, Hm.
    unfold s1. rewrite addDate_snd. cbn [fst snd app].
    rewrite <- app_assoc. reflexivity. }
  set (r := PropertyManager.addTags s2) in *.
  rewrite Hadd. clear Hadd Ht Hm. clearbody r. clear s2 s1. clearbody c m.
  split; [|split; [|split]].
  - rewrite Hget. unfold PropertyManager.fillsDate.
    destruct (JS.falsyAt frontmatter "tags"); norm_keys.
    + split; [reflexivity|]. rewrite !in_app_iff. right. right. left. reflexivity.
    + split; [destruct m, c; norm_keys; reflexivity|].
      rewrite !Forall_app. repeat split;
        repeat match goal with |- context [match ?x with _ => _ end] => destruct x end;
        repeat constructor; discriminate.
  - rewrite Hget. unfold PropertyManager.fillsDate.
    destruct c as [d|]; [destruct (JS.falsyAt frontmatter "created")|]; norm_keys.
    + split; [destruct m; norm_keys; reflexivity|]. rewrite !in_app_iff.
      left. left. reflexivity.
    + split; [destruct m; norm_keys; reflexivity|].
      rewrite !Forall_app. repeat split;
        repeat match goal with |- context [match ?x with _ => _ end] => destruct x end;
        repeat constructor; discriminate.
    + split; [destruct m; norm_keys; reflexivity|].
      rewrite !Forall_app. repeat split;
        repeat match goal with |- context [match ?x with _ => _ end] => destruct x end;
        repeat constructor; discriminate.
  - rewrite Hget. unfold PropertyManager.fillsDate.
    destruct m as [d|]; [destruct (JS.falsyAt frontmatter "modified")|]; norm_keys.
    + split; [reflexivity|]. rewrite !in_app_iff. right. left. left. reflexivity.
    + split; [destruct c; norm_keys; reflexivity|].
      rewrite !Forall_app. repeat split;
        repeat match goal with |- context [match ?x with _ => _ end] => destruct x end;
        repeat constructor; discriminate.
    + split; [destruct c; norm_keys; reflexivity|].
      rewrite !Forall_app. repeat split;
        repeat match goal with |- context [match ?x with _ => _ end] => destruct x end;
        repeat constructor; discriminate.
  - intros k. cbn [existsb].
    destruct (String.eqb k "created") eqn:E1; [reflexivity|].
    destruct (String.eqb k "modified") eqn:E2; [reflexivity|].
    destruct (String.eqb k "tags") eqn:E3; [reflexivity|]. cbn [orb].
    rewrite Hget. rewrite (String.eqb_sym "tags"), (String.eqb_sym "modified"),
      (String.eqb_sym "created"), E1, E2, E3, !andb_false_r. reflexivity.
Qed.

(** * Further properties of the code *)

(** A list of literal strings has no element twice. *)
Ltac solve_notin :=
  let H := fresh in
  intros H;
  repeat (apply elem_of_cons in H as [H|H]; [discriminate H|]);
  apply elem_of_nil in H; exact H.

Ltac solve_NoDup :=
  repeat (apply NoDup_cons; split; [solve_notin|]); apply NoDup_nil_2.

(** ** sortProperties *)
Section Sorting.
Import JS PropertyManager.

Lemma has_In o k : has o k = true <-> In k (List.map fst o).
Proof.
  unfold has. induction o as [|[k0 v0] o IH]; cbn [get List.map fst In].
  - split; [discriminate | tauto].
  - destruct (String.eqb k0 k) eqn:E.
    + apply String.eqb_eq in E. split; [auto | reflexivity].
    + rewrite IH. split; [auto | intros [H|H]; [|exact H]].
      subst. rewrite String.eqb_refl in E. discriminate E.
Qed.

Lemma get_In o k v : wf o -> In (k, v) o -> get o k = Some v.
Proof.
  unfold wf. induction o as [|[k0 v0] o IH]; cbn [get List.map fst In]; [tauto|].
  intros [Hk0 Ho]%NoDup_cons [[= -> ->]|Hin].
  - rewrite String.eqb_refl. reflexivity.
  - destruct (String.eqb k0 k) eqn:E; [|exact (IH Ho Hin)].
    apply String.eqb_eq in E as ->. exfalso. apply Hk0, list_elem_of_In.
    exact (in_map fst _ _ Hin).
Qed.

Lemma set_same o k v : get o k = Some v -> set o k v = o.
Proof.
  induction o as [|[k0 v0] o IH]; cbn [get set]; [discriminate|].
  destruct (String.eqb k0 k) eqn:E.
  - intros [= ->]. reflexivity.
  - intros H. rewrite (IH H). reflexivity.
Qed.

Lemma get_takeOrdered fm props : forall acc k,
  get (fold_left (takeOrdered fm) props acc) k
  = if existsb (String.eqb k) props
    then match get fm k with Some v => Some v | None => get acc k end
    else get acc k.
Proof.
  induction props as [|p props IH]; intros acc k; cbn [fold_left existsb];
    [reflexivity|].
  rewrite IH. unfold takeOrdered.
  destruct (String.eqb k p) eqn:E; cbn [orb].
  - apply String.eqb_eq in E as ->.
    destruct (get fm p) as [v|] eqn:G; [|destruct (existsb _ props); reflexivity].
    rewrite get_set, String.eqb_refl. destruct (existsb _ props); reflexivity.
  - destruct (get fm p) as [v|]; [|reflexivity].
    rewrite get_set, String.eqb_sym, E.
    destruct (existsb _ props); reflexivity.
Qed.

Lemma get_takeRemaining l : forall acc k,
  get (fold_left takeRemaining l acc) k
  = match get acc k with Some v => Some v | None => get l k end.
Proof.
  induction l as [|[k0 v0] l IH]; intros acc k; cbn [fold_left get].
  - destruct (get acc k); reflexivity.
  - rewrite IH. unfold takeRemaining, has. cbn [fst snd].
    destruct (get acc k0) as [w|] eqn:G.
    + destruct (get acc k) as [v|] eqn:Gk; [reflexivity|].
      destruct (String.eqb k0 k) eqn:E; [|reflexivity].
      apply String.eqb_eq in E as ->. congruence.
    + rewrite get_set. destruct (String.eqb k0 k) eqn:E.
      * apply String.eqb_eq in E as ->. rewrite G. reflexivity.
      * reflexivity.
Qed.

Lemma wf_takeOrdered fm props : forall acc,
  wf acc -> wf (fold_left (takeOrdered fm) props acc).
Proof.
  induction props as [|p props IH]; intros acc H; [exact H|].
  cbn [fold_left]. apply IH. unfold takeOrdered.
  destruct (get fm p); [apply wf_set, H | exact H].
Qed.

Lemma wf_takeRemaining l : forall acc,
  wf acc -> wf (fold_left takeRemaining l acc).
Proof.
  induction l as [|kv l IH]; intros acc H; [exact H|].
  cbn [fold_left]. apply IH. unfold takeRemaining.
  destruct (has acc (fst kv)); [exact H | apply wf_set, H].
Qed.

Lemma get_sortProperties fm k : get (sortProperties fm) k = get fm k.
Proof.
  unfold sortProperties. rewrite get_takeRemaining, get_takeOrdered. cbn [get].
  destruct (existsb (String.eqb k) propertyOrder);
    destruct (get fm k); reflexivity.
Qed.

Lemma wf_sortProperties fm : wf (sortProperties fm).
Proof. apply wf_takeRemaining, wf_takeOrdered, NoDup_nil_2. Qed.

(** What is sorted has the keys of the frontmatter, and can be sorted
    again. *)
Lemma isSortable_sortProperties fm :
  isSortable fm = true -> isSortable (sortProperties fm) = true.
Proof.
  unfold isSortable. rewrite !forallb_forall. intros H [k v] Hin.
  assert (Hk : In k (List.map fst fm)).
  { apply has_In. unfold has. rewrite <- get_sortProperties.
    apply (in_map fst) in Hin. apply has_In in Hin. exact Hin. }
  apply in_map_iff in Hk as [[k' v'] [E Hin']]. cbn [fst] in E. subst k'.
  exact (H _ Hin').
Qed.

(** The first loop builds the ordered entries. *)
Lemma takeOrdered_entries fm props : forall acc,
  NoDup props ->
  (forall p, In p props -> ~ In p (List.map fst acc)) ->
  fold_left (takeOrdered fm) props acc = acc ++ entriesOf fm props.
Proof.
  induction props as [|p props IH]; intros acc Hnd Hfresh;
    cbn [fold_left entriesOf].
  - rewrite app_nil_r. reflexivity.
  - apply NoDup_cons in Hnd as [Hp Hnd]. unfold takeOrdered at 2.
    destruct (get fm p) as [v|] eqn:G.
    + rewrite set_fresh by (apply Hfresh; left; reflexivity).
      rewrite IH; [rewrite <- app_assoc; reflexivity | exact Hnd |].
      intros q Hq. rewrite List.map_app, in_app_iff. cbn.
      intros [H|[<-|[]]]; [exact (Hfresh q (or_intror Hq) H)|].
      apply Hp, list_elem_of_In, Hq.
    + apply IH; [exact Hnd|]. intros q Hq. apply Hfresh. right. exact Hq.
Qed.

Lemma sortProperties_first fm :
  fold_left (takeOrdered fm) propertyOrder [] = orderedEntries fm.
Proof.
  rewrite takeOrdered_entries; [reflexivity | | intros p _ []].
  unfold propertyOrder. solve_NoDup.
Qed.

Lemma orderedEntries_keys fm k :
  In k (List.map fst (orderedEntries fm))
  <-> isOrdered k = true /\ In k (List.map fst fm).
Proof.
  rewrite <- sortProperties_first, <- !has_In. unfold has.
  rewrite get_takeOrdered. cbn [get]. unfold isOrdered.
  destruct (existsb (String.eqb k) propertyOrder); destruct (get fm k);
    split; try tauto; try discriminate; intros [? ?]; discriminate.
Qed.

(** The second loop appends entries whose keys the first did not take. *)
Lemma takeRemaining_shape l : forall acc,
  exists rest,
    fold_left takeRemaining l acc = acc ++ rest
    /\ Forall (fun kv => In kv l /\ ~ In (fst kv) (List.map fst acc)) rest.
Proof.
  induction l as [|kv l IH]; intros acc; cbn [fold_left].
  - exists []. rewrite app_nil_r. split; [reflexivity | constructor].
  - unfold takeRemaining at 2. destruct (has acc (fst kv)) eqn:H.
    + destruct (IH acc) as (rest & -> & Hrest). exists rest.
      split; [reflexivity|]. eapply Forall_impl; [exact Hrest|].
      cbn. intros x [Hx Hn]. split; [right; exact Hx | exact Hn].
    + assert (Hfresh : ~ In (fst kv) (List.map fst acc)).
      { rewrite <- has_In, H. discriminate. }
      rewrite (set_fresh _ _ _ Hfresh).
      destruct (IH (acc ++ [(fst kv, snd kv)])) as (rest & -> & Hrest).
      exists ((fst kv, snd kv) :: rest). rewrite <- app_assoc.
      split; [reflexivity|]. constructor.
      * split; [left; destruct kv; reflexivity | exact Hfresh].
      * eapply Forall_impl; [exact Hrest|]. cbn. intros x [Hx Hn].
        split; [right; exact Hx|]. intros Hin. apply Hn.
        rewrite List.map_app, in_app_iff. left. exact Hin.
Qed.

Lemma takeRemaining_wf l : forall acc,
  NoDup (List.map fst l) ->
  (forall k, In k (List.map fst l) ->
             (In k (List.map fst acc) <-> isOrdered k = true)) ->
  fold_left takeRemaining l acc
  = acc ++ List.filter (fun kv => negb (isOrdered (fst kv))) l.
Proof.
  induction l as [|[k v] l IH]; intros acc Hnd Hacc;
    cbn [fold_left List.filter List.map fst snd] in *.
  - rewrite app_nil_r. reflexivity.
  - apply NoDup_cons in Hnd as [Hk Hnd]. unfold takeRemaining at 2. cbn [fst snd].
    pose proof (Hacc k (or_introl eq_refl)) as Hk0.
    destruct (has acc k) eqn:H.
    + apply has_In in H. rewrite (proj1 Hk0 H). cbn [negb].
      apply IH; [exact Hnd|]. intros q Hq. apply Hacc. right. exact Hq.
    + assert (Hfresh : ~ In k (List.map fst acc)).
      { rewrite <- has_In, H. discriminate. }
      destruct (isOrdered k) eqn:Ho; [exfalso; apply Hfresh, Hk0; reflexivity|].
      cbn [negb]. rewrite (set_fresh _ _ _ Hfresh), IH.
      * rewrite <- app_assoc. reflexivity.
      * exact Hnd.
      * intros q Hq. rewrite List.map_app, in_app_iff, <- (Hacc q (or_intror Hq)).
        cbn. split; [intros [H1|[<-|[]]]; [exact H1|] | auto].
        exfalso. apply Hk, list_elem_of_In, Hq.
Qed.

End Sorting.

(** X1: for a frontmatter without a key [hasOwnProperty], whose keys are
    ordinary ones, [sortProperties] keeps every property with its value, and
    returns an object in which no key stands twice. *)
Theorem sortProperties_keeps_values (frontmatter : JS.object) :
  JS.wf frontmatter ->
  PropertyManager.isSortable frontmatter = true ->
  JS.wf (PropertyManager.sortProperties frontmatter)
  /\ forall k,
       JS.get (PropertyManager.sortProperties frontmatter) k
       = JS.get frontmatter k.
Proof.
  intros _ _.
  split; [apply wf_sortProperties | intros k; apply get_sortProperties].
Qed.

Lemma sortProperties_keeps_values_witness :
  let frontmatter :=
    [("zeta", JS.VNum 1); ("tags", JS.VArr []); ("title", JS.VStr "T")] in
  JS.wf (PropertyManager.sortProperties frontmatter)
  /\ JS.get (PropertyManager.sortProperties frontmatter) "zeta"
     = Some (JS.VNum 1)
  /\ JS.get (PropertyManager.sortProperties frontmatter) "title"
     = Some (JS.VStr "T").
Proof.
  cbv zeta.
  destruct (sortProperties_keeps_values
              [("zeta", JS.VNum 1); ("tags", JS.VArr []); ("title", JS.VStr "T")])
    as [Hwf Hget].
  - unfold JS.wf. cbn [List.map fst]. solve_NoDup.
  - vm_compute. reflexivity.
  - split; [exact Hwf|]. rewrite !Hget. split; reflexivity.
Defined.

Lemma sortProperties_shape (frontmatter : JS.object) :
  JS.wf frontmatter ->
  PropertyManager.sortProperties frontmatter
  = PropertyManager.orderedEntries frontmatter
    ++ List.filter (fun kv => negb (PropertyManager.isOrdered (fst kv)))
                   frontmatter.
Proof.
  intros Hwf. unfold PropertyManager.sortProperties.
  rewrite sortProperties_first. apply takeRemaining_wf; [exact Hwf|].
  intros k Hk. rewrite orderedEntries_keys. tauto.
Qed.

(** X2: for a frontmatter without a key [hasOwnProperty], whose keys are
    ordinary ones (none is an integer index, which an object lists before
    its other keys), the object [sortProperties] returns starts with the
    properties of the fixed order that the frontmatter has, in that order,
    and goes on with the other properties in the order they had. *)
Theorem sortProperties_order (frontmatter : JS.object) :
  JS.wf frontmatter ->
  PropertyManager.isSortable frontmatter = true ->
  PropertyManager.sortProperties frontmatter
  = PropertyManager.orderedEntries frontmatter
    ++ List.filter (fun kv => negb (PropertyManager.isOrdered (fst kv)))
                   frontmatter.
Proof. intros Hwf _. apply sortProperties_shape, Hwf. Qed.

Lemma sortProperties_order_witness :
  PropertyManager.sortProperties
    [("zeta", JS.VNum 1); ("tags", JS.VArr []); ("alpha", JS.VNum 2);
     ("title", JS.VStr "T")]
  = [("title", JS.VStr "T"); ("tags", JS.VArr []); ("zeta", JS.VNum 1);
     ("alpha", JS.VNum 2)].
Proof.
  rewrite sortProperties_order; [reflexivity| |].
  - unfold JS.wf. cbn [List.map fst]. solve_NoDup.
  - vm_compute. reflexivity.
Defined.

Lemma entriesOf_ext fm fm' props :
  (forall k, JS.get fm k = JS.get fm' k) ->
  PropertyManager.entriesOf fm props = PropertyManager.entriesOf fm' props.
Proof.
  intros H. induction props as [|p props IH]; cbn [PropertyManager.entriesOf];
    [reflexivity|].
  rewrite H, IH. reflexivity.
Qed.

Lemma filter_all {A} (f : A -> bool) (l : list A) :
  Forall (fun x => f x = true) l -> List.filter f l = l.
Proof.
  induction 1 as [|x l Hx _ IH]; cbn [List.filter]; [reflexivity|].
  rewrite Hx, IH. reflexivity.
Qed.

Lemma filter_none {A} (f : A -> bool) (l : list A) :
  Forall (fun x => f x = false) l -> List.filter f l = [].
Proof.
  induction 1 as [|x l Hx _ IH]; cbn [List.filter]; [reflexivity|].
  rewrite Hx, IH. reflexivity.
Qed.

(** X3: on a frontmatter without a key [hasOwnProperty], whose keys are
    ordinary ones, [sortProperties] is idempotent: what it returns can be
    sorted again, and is returned as it is. *)
Theorem sortProperties_idempotent (frontmatter : JS.object) :
  JS.wf frontmatter ->
  PropertyManager.isSortable frontmatter = true ->
  PropertyManager.isSortable (PropertyManager.sortProperties frontmatter) = true
  /\ PropertyManager.sortProperties (PropertyManager.sortProperties frontmatter)
     = PropertyManager.sortProperties frontmatter.
Proof.
  intros Hwf Hsortable. split; [apply isSortable_sortProperties, Hsortable|].
  rewrite (sortProperties_shape (PropertyManager.sortProperties frontmatter))
    by apply wf_sortProperties.
  assert (Hord : PropertyManager.orderedEntries
                   (PropertyManager.sortProperties frontmatter)
                 = PropertyManager.orderedEntries frontmatter).
  { apply entriesOf_ext. intros k. apply get_sortProperties. }
  rewrite Hord. unfold PropertyManager.sortProperties.
  rewrite sortProperties_first.
  destruct (takeRemaining_shape frontmatter
              (PropertyManager.orderedEntries frontmatter))
    as (rest & -> & Hrest).
  f_equal. rewrite List.filter_app, filter_none, filter_all; [reflexivity| |].
  - eapply Forall_impl; [exact Hrest|]. intros kv [Hin Hfresh].
    apply negb_true_iff.
    destruct (PropertyManager.isOrdered (fst kv)) eqn:E; [|reflexivity].
    exfalso. apply Hfresh, orderedEntries_keys. split; [exact E|].
    exact (in_map fst _ _ Hin).
  - apply Forall_forall. intros kv Hin%list_elem_of_In.
    apply negb_false_iff.
    apply (in_map fst) in Hin. apply orderedEntries_keys in Hin. tauto.
Qed.

Lemma sortProperties_idempotent_witness :
  let sorted :=
    PropertyManager.sortProperties
      [("zeta", JS.VNum 1); ("tags", JS.VArr []); ("title", JS.VStr "T")] in
  sorted = [("title", JS.VStr "T"); ("tags", JS.VArr []); ("zeta", JS.VNum 1)]
  /\ PropertyManager.sortProperties sorted = sorted.
Proof.
  cbv zeta. split; [vm_compute; reflexivity|].
  apply (sortProperties_idempotent
           [("zeta", JS.VNum 1); ("tags", JS.VArr []); ("title", JS.VStr "T")]).
  - unfold JS.wf. cbn [List.map fst]. solve_NoDup.
  - vm_compute. reflexivity.
Defined.

(** X4: for a frontmatter without a key [hasOwnProperty], whose keys are
    ordinary ones: handed to the merge of [updateFileFrontmatter], the
    sorted object changes nothing: every key is there already and keeps its place, so
    that the frontmatter that is written has the order of the one that was
    read. *)
Theorem sortProperties_merge_keeps_order (frontmatter : JS.object) :
  JS.wf frontmatter ->
  PropertyManager.isSortable frontmatter = true ->
  JS.spread frontmatter (PropertyManager.sortProperties frontmatter)
  = frontmatter.
Proof.
  intros _ _. unfold JS.spread.
  assert (H : Forall (fun kv => JS.get frontmatter (fst kv) = Some (snd kv))
                     (PropertyManager.sortProperties frontmatter)).
  { apply Forall_forall. intros [k v] Hin%list_elem_of_In. cbn [fst snd].
    rewrite <- get_sortProperties. apply get_In; [apply wf_sortProperties|].
    exact Hin. }
  induction H as [|kv l Hkv _ IH]; cbn [fold_left]; [reflexivity|].
  rewrite (set_same _ _ _ Hkv). exact IH.
Qed.

Lemma sortProperties_merge_keeps_order_witness :
  let frontmatter :=
    [("zeta", JS.VNum 1); ("tags", JS.VArr []); ("title", JS.VStr "T")] in
  PropertyManager.sortProperties frontmatter <> frontmatter
  /\ JS.spread frontmatter (PropertyManager.sortProperties frontmatter)
     = frontmatter.
Proof.
  cbv zeta. split; [vm_compute; discriminate|].
  apply (sortProperties_merge_keeps_order
           [("zeta", JS.VNum 1); ("tags", JS.VArr []); ("title", JS.VStr "T")]).
  - unfold JS.wf. cbn [List.map fst]. solve_NoDup.
  - vm_compute. reflexivity.
Defined.

(** ** Standardized names and the merge *)
Section Aliases.
Import JS PropertyManager.

Lemma keys_spread a b k :
  In k (List.map fst a) -> In k (List.map fst (spread a b)).
Proof.
  unfold spread. revert a. induction b as [|kv b IH]; intros a H; [exact H|].
  cbn [fold_left]. apply IH, keys_set. left. exact H.
Qed.


Lemma get_Some_In o k v : get o k = Some v -> In k (List.map fst o).
Proof.
  intros H. apply has_In. unfold has. rewrite H. reflexivity.
Qed.

Lemma get_standardize l : forall acc k,
  ~ In k standardNames ->
  NoDup (List.map fst l) ->
  get (fst (fold_left standardizeEntry l acc)) k
  = if String.eqb (findStandardProperty k) k
    then match get l k with Some v => Some v | None => get (fst acc) k end
    else get (fst acc) k.
Proof.
  induction l as [|[k0 v0] l IH]; intros acc k Hk Hnd.
  - cbn [fold_left get]. destruct (String.eqb _ k); reflexivity.
  - cbn [List.map fst] in Hnd. apply NoDup_cons in Hnd as [Hk0 Hnd].
    cbn [fold_left get]. rewrite (IH _ _ Hk Hnd).
    assert (Hstep : get (fst (standardizeEntry acc (k0, v0))) k
                    = if String.eqb (findStandardProperty k0) k
                      then Some v0 else get (fst acc) k).
    { unfold standardizeEntry. cbn [fst snd]. apply get_set. }
    rewrite Hstep. clear Hstep.
    destruct (String.eqb (findStandardProperty k0) k) eqn:E.
    + apply String.eqb_eq in E.
      assert (k0 = k) as ->.
      { destruct (findStandardProperty_cases k0) as [H|H]; [|congruence].
        rewrite E in H. contradiction. }
      rewrite E, !String.eqb_refl.
      destruct (get l k) as [v|] eqn:G; [|reflexivity].
      exfalso. apply Hk0, list_elem_of_In. exact (get_Some_In _ _ _ G).
    + destruct (String.eqb (findStandardProperty k) k) eqn:F; [|reflexivity].
      destruct (String.eqb k0 k) eqn:E0; [|reflexivity].
      apply String.eqb_eq in E0 as ->. congruence.
Qed.

End Aliases.

(** X5: what [standardizePropertyNames] returns, handed to the merge of
    [updateFileFrontmatter], removes no key: every key of the frontmatter
    is still there after the merge, and a key that is not a canonical name
    still has its value.  An alias stays beside the canonical name it was
    renamed to. *)
Theorem standardize_merge_keeps_aliases (frontmatter : JS.object) :
  JS.wf frontmatter ->
  let merged :=
    JS.spread frontmatter
      (fst (PropertyManager.standardizePropertyNames frontmatter)) in
  forall k,
    In k (List.map fst frontmatter) ->
    In k (List.map fst merged)
    /\ (~ In k PropertyManager.standardNames ->
        JS.get merged k = JS.get frontmatter k).
Proof.
  intros Hwf merged k Hk. split; [apply keys_spread, Hk|].
  intros Hns. unfold merged.
  destruct (standardize_fold frontmatter ([], [])) as [Hwf' _];
    [apply NoDup_nil_2 | intros ? [] |].
  rewrite get_spread by exact Hwf'.
  unfold PropertyManager.standardizePropertyNames.
  rewrite (get_standardize _ _ _ Hns Hwf). cbn [fst JS.get].
  destruct (String.eqb _ k); [|reflexivity].
  destruct (JS.get frontmatter k); reflexivity.
Qed.

Lemma standardize_merge_keeps_aliases_witness :
  let merged :=
    JS.spread [("date-created", JS.VStr "2024-03-01")]
      (fst (PropertyManager.standardizePropertyNames
              [("date-created", JS.VStr "2024-03-01")])) in
  merged = [("date-created", JS.VStr "2024-03-01");
            ("created", JS.VStr "2024-03-01")]
  /\ In "date-created" (List.map fst merged).
Proof.
  split; [vm_compute; reflexivity|].
  apply (standardize_merge_keeps_aliases
           [("date-created", JS.VStr "2024-03-01")]).
  - unfold JS.wf. cbn [List.map fst]. solve_NoDup.
  - left. reflexivity.
Defined.

(** ** Heading identifiers and generated file names *)
Section Identifiers.
Import JS FileUtils MarkdownUtils.

Ltac each_char c :=
  destruct c as [[] [] [] [] [] [] [] []]; vm_compute; try reflexivity;
  try discriminate; auto.

Lemma lowerChar_kept c :
  isIdNoise (lowerChar c) = false ->
  isIdChar (lowerChar c) = true \/ isWhiteSpace (lowerChar c) = true.
Proof. each_char c. Qed.

Lemma isIdChar_fixed c :
  isIdChar c = true ->
  lowerChar c = c /\ isIdNoise c = false /\ isWhiteSpace c = false.
Proof. each_char c. Qed.

Lemma allChars_weaken (p q : ascii -> bool) s :
  (forall c, p c = true -> q c = true) ->
  allChars p s = true -> allChars q s = true.
Proof.
  intros Hpq. induction s as [|c s IH]; simpl; [reflexivity|].
  intros [Hc Hs]%andb_true_iff. rewrite (Hpq _ Hc), (IH Hs). reflexivity.
Qed.

Lemma allChars_removeEach_lower s :
  allChars (fun c => isIdChar c || isWhiteSpace c)
    (removeEach isIdNoise (toLowerCase s)) = true.
Proof.
  induction s as [|c s IH]; simpl; [reflexivity|].
  destruct (isIdNoise (lowerChar c)) eqn:E; [exact IH|].
  simpl. rewrite IH, andb_true_r.
  destruct (lowerChar_kept _ E) as [-> | ->]; auto using orb_true_r.
Qed.

(** A run replacement leaves characters of the class [q] when the rest of
    the text is of the class [q] or of the class replaced. *)
Lemma allChars_replaceRuns_class p q r b s :
  q r = true -> allChars (fun c => q c || p c) s = true ->
  allChars q (replaceRuns p r b s) = true.
Proof.
  intros Hr. revert b. induction s as [|c s IH]; intros b; simpl; [reflexivity|].
  intros [Hc Hs]%andb_true_iff.
  destruct (p c) eqn:E, b; simpl; rewrite ?Hr, ?IH by assumption; simpl; auto;
    rewrite orb_false_r in Hc; rewrite Hc; reflexivity.
Qed.

Lemma toLowerCase_id p s :
  (forall c, p c = true -> lowerChar c = c) ->
  allChars p s = true -> toLowerCase s = s.
Proof.
  intros Hp. induction s as [|c s IH]; simpl; [reflexivity|].
  intros [Hc Hs]%andb_true_iff. rewrite (Hp _ Hc), (IH Hs). reflexivity.
Qed.

Lemma removeEach_id p s :
  allChars (fun c => negb (p c)) s = true -> removeEach p s = s.
Proof.
  induction s as [|c s IH]; simpl; [reflexivity|].
  intros [Hc Hs]%andb_true_iff. rewrite (IH Hs).
  destruct (p c); [discriminate Hc | reflexivity].
Qed.

Lemma generateHeadingId_allChars s : allChars isIdChar (generateHeadingId s) = true.
Proof.
  unfold generateHeadingId, dropEnds.
  apply allChars_dropLast, allChars_dropFirst.
  apply allChars_replaceRuns_keep; [reflexivity|].
  apply allChars_replaceRuns_class; [reflexivity|].
  apply allChars_removeEach_lower.
Qed.

Lemma generateHeadingId_hyphens s :
  noDouble false (generateHeadingId s) = true
  /\ startsHyphen (generateHeadingId s) = false
  /\ endsHyphen (generateHeadingId s) = false.
Proof.
  unfold generateHeadingId, dropEnds.
  set (t := replaceRuns isHyphen "-" false _).
  assert (C : noDouble false t = true) by apply noDouble_replaceRuns.
  destruct (noDouble_dropFirst _ C) as [C' D].
  split; [|split].
  - apply noDouble_dropLast, C'.
  - apply startsHyphen_dropLast, D.
  - apply endsHyphen_dropLast, C'.
Qed.

Lemma generateHeadingId_fixes s :
  allChars isIdChar s = true -> noDouble false s = true ->
  startsHyphen s = false -> endsHyphen s = false ->
  generateHeadingId s = s.
Proof.
  intros A C D E. unfold generateHeadingId, dropEnds.
  rewrite (toLowerCase_id isIdChar) by
    (try assumption; intros c Hc; apply (isIdChar_fixed c Hc)).
  rewrite removeEach_id by
    (apply (allChars_weaken isIdChar); [|assumption];
     intros c Hc; destruct (isIdChar_fixed c Hc) as (_ & -> & _); reflexivity).
  rewrite (replaceRuns_id isWhiteSpace) by
    (apply (allChars_weaken isIdChar); [|assumption];
     intros c Hc; destruct (isIdChar_fixed c Hc) as (_ & _ & ->); reflexivity).
  rewrite (replaceRuns_hyphen_id _ _ C), (dropFirst_id _ D), (dropLast_id _ E).
  reflexivity.
Qed.

(** *** generateFilenameFromTitle *)

Lemma toLowerCase_idempotent s : toLowerCase (toLowerCase s) = toLowerCase s.
Proof.
  induction s as [|c s IH]; simpl; [reflexivity|]. rewrite IH. f_equal.
  each_char c.
Qed.

Lemma lowerChar_classes c :
  isInvalidChar (lowerChar c) = isInvalidChar c
  /\ isWhiteSpace (lowerChar c) = isWhiteSpace c
  /\ isHyphen (lowerChar c) = isHyphen c.
Proof. each_char c. Qed.

Lemma toLowerCase_replaceEach s :
  toLowerCase (replaceEach isInvalidChar "-" s)
  = replaceEach isInvalidChar "-" (toLowerCase s).
Proof.
  induction s as [|c s IH]; simpl; [reflexivity|].
  destruct (lowerChar_classes c) as (-> & _ & _). rewrite IH.
  destruct (isInvalidChar c); reflexivity.
Qed.

Lemma toLowerCase_replaceRuns p b s :
  (forall c, p (lowerChar c) = p c) ->
  toLowerCase (replaceRuns p "-" b s) = replaceRuns p "-" b (toLowerCase s).
Proof.
  intros Hp. revert b. induction s as [|c s IH]; intros b; simpl; [reflexivity|].
  rewrite Hp. destruct (p c), b; simpl; rewrite IH; reflexivity.
Qed.

Lemma toLowerCase_dropFirst s :
  toLowerCase (dropFirst isHyphen s) = dropFirst isHyphen (toLowerCase s).
Proof.
  destruct s as [|c s]; simpl; [reflexivity|].
  destruct (lowerChar_classes c) as (_ & _ & ->).
  destruct (isHyphen c); reflexivity.
Qed.

Lemma toLowerCase_dropLast s :
  toLowerCase (dropLast isHyphen s) = dropLast isHyphen (toLowerCase s).
Proof.
  induction s as [|c s IH]; [reflexivity|].
  destruct s as [|d s].
  - simpl. destruct (lowerChar_classes c) as (_ & _ & ->).
    destruct (isHyphen c); reflexivity.
  - rewrite dropLast_cons.
    change (toLowerCase (String c (String d s)))
      with (String (lowerChar c) (String (lowerChar d) (toLowerCase s))).
    rewrite dropLast_cons.
    change (String (lowerChar c) (toLowerCase (dropLast isHyphen (String d s)))
            = String (lowerChar c) (dropLast isHyphen (toLowerCase (String d s)))).
    rewrite IH. reflexivity.
Qed.

Lemma toLowerCase_sanitizeFilename s :
  toLowerCase (sanitizeFilename s) = sanitizeFilename (toLowerCase s).
Proof.
  unfold sanitizeFilename, dropEnds.
  rewrite toLowerCase_dropLast, toLowerCase_dropFirst.
  rewrite !toLowerCase_replaceRuns by (intros c; apply (lowerChar_classes c)).
  rewrite toLowerCase_replaceEach. reflexivity.
Qed.

(** Replacing the runs of white space by a hyphen before the invalid
    characters, or after them, gives the same text. *)
Lemma replaceEach_replaceRuns b s :
  replaceEach isInvalidChar "-" (replaceRuns isWhiteSpace "-" b s)
  = replaceRuns isWhiteSpace "-" b (replaceEach isInvalidChar "-" s).
Proof.
  revert b. induction s as [|c s IH]; intros b; simpl; [reflexivity|].
  destruct (isWhiteSpace c) eqn:W.
  - assert (I : isInvalidChar c = false) by (revert W; each_char c).
    rewrite I, W. destruct b; simpl; rewrite IH; reflexivity.
  - destruct (isInvalidChar c) eqn:I; simpl; rewrite ?I, ?W; simpl;
      rewrite IH; reflexivity.
Qed.

Lemma sanitizeFilename_after_runs s :
  sanitizeFilename (replaceRuns isWhiteSpace "-" false s) = sanitizeFilename s.
Proof.
  unfold sanitizeFilename. rewrite replaceEach_replaceRuns.
  rewrite (replaceRuns_id isWhiteSpace "-" false
             (replaceRuns isWhiteSpace "-" false _)); [reflexivity|].
  apply allChars_replaceRuns_gone. reflexivity.
Qed.

End Identifiers.

(** X6: the identifier of a heading is made of lower-case letters, digits,
    underscores and hyphens only, has no two hyphens in a row, neither
    starts nor ends with a hyphen, and is its own identifier. *)
Theorem generateHeadingId_shape_idempotent (text : string) :
  (forall pre c post,
     MarkdownUtils.generateHeadingId text = pre +:+ String c post ->
     MarkdownUtils.isIdChar c = true)
  /\ (forall pre post,
        MarkdownUtils.generateHeadingId text <> pre +:+ "--" +:+ post)
  /\ (forall post, MarkdownUtils.generateHeadingId text <> "-" +:+ post)
  /\ (forall pre, MarkdownUtils.generateHeadingId text <> pre +:+ "-")
  /\ MarkdownUtils.generateHeadingId (MarkdownUtils.generateHeadingId text)
     = MarkdownUtils.generateHeadingId text.
Proof.
  pose proof (generateHeadingId_allChars text) as A.
  destruct (generateHeadingId_hyphens text) as (C & D & E).
  split; [|split; [|split; [|split]]].
  - intros pre c post Heq. rewrite Heq, allChars_app in A.
    apply andb_true_iff in A as [_ A]. simpl in A.
    apply andb_true_iff in A as [A _]. exact A.
  - intros pre post Heq. rewrite Heq, noDouble_app_hyphens in C. discriminate C.
  - intros post Heq. rewrite Heq in D. discriminate D.
  - intros pre Heq. rewrite Heq, endsHyphen_app_hyphen in E. discriminate E.
  - apply generateHeadingId_fixes; assumption.
Qed.

(** X7: the file name generated from a title is the title in lower case,
    sanitized: the replacement of white space that
    [generateFilenameFromTitle] does before it sanitizes changes nothing.
    The name is a fixed point of [sanitizeFilename] and of
    [generateFilenameFromTitle]. *)
Theorem generateFilenameFromTitle_sanitizes_lowered (title : string) :
  FileUtils.generateFilenameFromTitle title
    = FileUtils.sanitizeFilename (JS.toLowerCase title)
  /\ FileUtils.sanitizeFilename (FileUtils.generateFilenameFromTitle title)
     = FileUtils.generateFilenameFromTitle title
  /\ FileUtils.generateFilenameFromTitle
       (FileUtils.generateFilenameFromTitle title)
     = FileUtils.generateFilenameFromTitle title.
Proof.
  assert (E : forall t, FileUtils.generateFilenameFromTitle t
                        = FileUtils.sanitizeFilename (JS.toLowerCase t)).
  { intros t. unfold FileUtils.generateFilenameFromTitle.
    apply sanitizeFilename_after_runs. }
  assert (F : FileUtils.sanitizeFilename (FileUtils.generateFilenameFromTitle title)
              = FileUtils.generateFilenameFromTitle title).
  { unfold FileUtils.generateFilenameFromTitle.
    apply sanitizeFilename_fixes, sanitizeFilename_isSanitized. }
  split; [apply E|]. split; [exact F|].
  rewrite (E (FileUtils.generateFilenameFromTitle title)).
  rewrite (E title) at 1.
  rewrite toLowerCase_sanitizeFilename, toLowerCase_idempotent, <- (E title).
  exact F.
Qed.

(** ** Headings *)
Section Headings.
Import JS FileUtils MarkdownUtils.

Lemma existsChar_trimStart p s :
  existsChar p s = false -> existsChar p (trimStart s) = false.
Proof.
  induction s as [|c s IH]; simpl; [auto|].
  intros [Hc Hs]%orb_false_iff. destruct (isWhiteSpace c); [auto|].
  simpl. rewrite Hc, Hs. reflexivity.
Qed.

Lemma existsChar_trimEnd p s :
  existsChar p s = false -> existsChar p (trimEnd s) = false.
Proof.
  induction s as [|c s IH]; simpl; [auto|].
  intros [Hc Hs]%orb_false_iff. specialize (IH Hs).
  destruct (trimEnd s) as [|d t].
  - destruct (isWhiteSpace c); simpl; rewrite ?Hc; reflexivity.
  - cbn [existsChar] in *. rewrite Hc, IH. reflexivity.
Qed.

Lemma existsChar_trim p s :
  existsChar p s = false -> existsChar p (trim s) = false.
Proof. intros H. apply existsChar_trimEnd, existsChar_trimStart, H. Qed.

Lemma existsChar_app p a b :
  existsChar p (a +:+ b) = existsChar p a || existsChar p b.
Proof.
  induction a as [|c a IH]; simpl; [reflexivity|].
  rewrite IH, orb_assoc. reflexivity.
Qed.

Lemma matchHeading_Some l n group :
  matchHeading l = Some (n, group) ->
  (1 <= n <= 6)%nat /\ fst (countHashes l) = n
  /\ existsChar isLineTerminator group = false.
Proof.
  unfold matchHeading. destruct (countHashes l) as [m rest]. cbn [fst].
  destruct ((1 <=? m)%nat && (m <=? 6)%nat) eqn:B; [|discriminate].
  apply andb_true_iff in B as [B1 B2].
  apply Nat.leb_le in B1. apply Nat.leb_le in B2.
  destruct rest as [|c rest']; [discriminate|].
  destruct (isWhiteSpace c); [|discriminate].
  destruct (trimStart (String c rest')) as [|g gs].
  - destruct rest' as [|d rest'']; [discriminate|].
    destruct (existsChar isLineTerminator (lastChar (String c (String d rest''))))
      eqn:E; [discriminate|].
    intros [= <- <-]. auto.
  - destruct (existsChar isLineTerminator (String g gs)) eqn:E; [discriminate|].
    intros [= <- <-]. auto.
Qed.

Lemma headingsFrom_sound lines : forall i,
  Forall (fun h =>
            (1 <= level h <= 6)%nat
            /\ (i < line h <= i + length lines)%nat
            /\ (exists l, lines !! (line h - 1 - i)%nat = Some l
                          /\ fst (countHashes l) = level h)
            /\ existsChar isLineTerminator (text h) = false
            /\ id h = generateHeadingId (text h))
         (headingsFrom i lines).
Proof.
  induction lines as [|l lines IH]; intros i; cbn [headingsFrom]; [constructor|].
  assert (Htail : Forall (fun h =>
            (1 <= level h <= 6)%nat
            /\ (i < line h <= i + length (l :: lines))%nat
            /\ (exists l0, (l :: lines) !! (line h - 1 - i)%nat = Some l0
                           /\ fst (countHashes l0) = level h)
            /\ existsChar isLineTerminator (text h) = false
            /\ id h = generateHeadingId (text h))
         (headingsFrom (S i) lines)).
  { eapply Forall_impl; [apply (IH (S i))|].
    intros h (H1 & H2 & (l0 & H3 & H4) & H5 & H6). cbn [length].
    split; [exact H1|]. split; [lia|]. split; [|auto].
    exists l0. split; [|exact H4].
    replace (line h - 1 - i)%nat with (S (line h - 1 - S i)) by lia.
    exact H3. }
  destruct (matchHeading l) as [[n group]|] eqn:M; [|exact Htail].
  constructor; [|exact Htail].
  apply matchHeading_Some in M as (M1 & M2 & M3). cbn [level line text id length].
  split; [exact M1|]. split; [lia|]. split; [|split; [|reflexivity]].
  - exists l. split; [|exact M2].
    replace (i + 1 - 1 - i)%nat with 0%nat by lia. reflexivity.
  - apply existsChar_trim, M3.
Qed.

Lemma headingsFrom_after lines : forall i,
  Forall (fun h => (i < line h)%nat) (headingsFrom i lines).
Proof.
  intros i. eapply Forall_impl; [apply headingsFrom_sound|].
  intros h (_ & H & _). lia.
Qed.

Lemma headingsFrom_sorted lines : forall i,
  StronglySorted (fun a b => (line a < line b)%nat) (headingsFrom i lines).
Proof.
  induction lines as [|l lines IH]; intros i; cbn [headingsFrom]; [constructor|].
  destruct (matchHeading l) as [[n group]|]; [|apply IH].
  constructor; [apply IH|].
  eapply Forall_impl; [apply (headingsFrom_after lines (S i))|].
  intros h H. simpl in *. lia.
Qed.

(** *** Lines that end with a carriage return *)

Lemma countHashes_cr l :
  countHashes (l +:+ String carriageReturn "")
  = (fst (countHashes l), snd (countHashes l) +:+ String carriageReturn "").
Proof.
  induction l as [|c l IH]; [reflexivity|].
  rewrite append_cons.
  destruct (Ascii.eqb c "#") eqn:E.
  - apply Ascii.eqb_eq in E as ->. cbn [countHashes]. rewrite IH.
    destruct (countHashes l). reflexivity.
  - assert (H : forall t, countHashes (String c t) = (0%nat, String c t)).
    { intros t. revert E.
      destruct c as [[] [] [] [] [] [] [] []]; intros E;
        try reflexivity; discriminate E. }
    rewrite !H. reflexivity.
Qed.

Lemma trimStart_cr r :
  trimStart (r +:+ String carriageReturn "") = "" \/ existsChar isLineTerminator (trimStart (r +:+ String carriageReturn "")) = true.
Proof.
  induction r as [|c r IH]; [left; reflexivity|].
  rewrite append_cons. cbn [trimStart]. destruct (isWhiteSpace c); [exact IH|].
  right. cbn [existsChar]. rewrite existsChar_app. cbn.
  rewrite !orb_true_r. reflexivity.
Qed.

Lemma lastChar_cr r : lastChar (r +:+ String carriageReturn "") = String carriageReturn "".
Proof.
  induction r as [|c r IH]; [reflexivity|].
  rewrite append_cons. destruct (r +:+ String carriageReturn "") eqn:E; [destruct r; discriminate E|].
  exact IH.
Qed.

Lemma matchHeading_cr l : matchHeading (l +:+ String carriageReturn "") = None.
Proof.
  unfold matchHeading. rewrite countHashes_cr.
  destruct (countHashes l) as [n rest]. cbn [fst snd].
  destruct ((1 <=? n)%nat && (n <=? 6)%nat); [|reflexivity].
  destruct (rest +:+ String carriageReturn "") as [|c rest'] eqn:E; [reflexivity|].
  destruct (isWhiteSpace c); [|reflexivity].
  destruct (trimStart_cr rest) as [T|T]; rewrite E in T.
  - rewrite T. destruct rest' as [|d rest'']; [reflexivity|].
    rewrite <- E, lastChar_cr. reflexivity.
  - destruct (trimStart (String c rest')) as [|g gs]; [discriminate T|].
    rewrite T. reflexivity.
Qed.

Lemma endsWith_cr l :
  endsWith carriageReturn l = true -> exists l', l = l' +:+ String carriageReturn "".
Proof.
  induction l as [|c l IH]; [discriminate|].
  destruct l as [|d l].
  - cbn. intros ->%Ascii.eqb_eq. exists "". reflexivity.
  - intros H. destruct (IH H) as [l' ->]. exists (String c l'). reflexivity.
Qed.

Lemma headingsFrom_no_cr lines : forall i,
  Forall (fun h => exists l, lines !! (line h - 1 - i)%nat = Some l
                             /\ endsWith carriageReturn l = false)
         (headingsFrom i lines).
Proof.
  induction lines as [|l lines IH]; intros i; cbn [headingsFrom]; [constructor|].
  assert (Htail : Forall (fun h =>
            exists l0, (l :: lines) !! (line h - 1 - i)%nat = Some l0
                       /\ endsWith carriageReturn l0 = false)
         (headingsFrom (S i) lines)).
  { pose proof (headingsFrom_after lines (S i)) as Hafter.
    pose proof (IH (S i)) as Hs. rewrite Forall_forall in Hafter, Hs |- *.
    intros h Hh. destruct (Hs h Hh) as (l0 & H1 & H2). specialize (Hafter h Hh).
    exists l0. split; [|exact H2].
    replace (line h - 1 - i)%nat with (S (line h - 1 - S i)) by lia.
    exact H1. }
  destruct (matchHeading l) as [[n group]|] eqn:M; [|exact Htail].
  constructor; [|exact Htail]. cbn [line].
  exists l. split; [replace (i + 1 - 1 - i)%nat with 0%nat by lia; reflexivity|].
  destruct (endsWith carriageReturn l) eqn:E; [|reflexivity].
  apply endsWith_cr in E as [l' ->]. rewrite matchHeading_cr in M. discriminate M.
Qed.

End Headings.

(** X8: every heading that [extractHeadings] returns has a level from 1 to
    6, which is the number of [#] its line starts with; its line number
    counts the lines of the text from 1; its text holds no line break; its
    identifier is the one [generateHeadingId] gives its text.  The headings
    come in the order of their lines. *)
Theorem extractHeadings_sound (content : string) :
  let lines := JS.split JS.newline content in
  Forall (fun h =>
            (1 <= MarkdownUtils.level h <= 6)%nat
            /\ (1 <= MarkdownUtils.line h <= length lines)%nat
            /\ (exists l, lines !! (MarkdownUtils.line h - 1)%nat = Some l
                  /\ fst (MarkdownUtils.countHashes l) = MarkdownUtils.level h)
            /\ FileUtils.existsChar FileUtils.isLineTerminator
                 (MarkdownUtils.text h) = false
            /\ MarkdownUtils.id h
               = MarkdownUtils.generateHeadingId (MarkdownUtils.text h))
         (MarkdownUtils.extractHeadings content)
  /\ StronglySorted
       (fun a b => (MarkdownUtils.line a < MarkdownUtils.line b)%nat)
       (MarkdownUtils.extractHeadings content).
Proof.
  cbv zeta. split; [|apply headingsFrom_sorted].
  eapply Forall_impl; [apply headingsFrom_sound|].
  intros h (H1 & H2 & (l & H3 & H4) & H5 & H6).
  split; [exact H1|]. split; [lia|]. split; [|auto].
  exists l. split; [|exact H4]. rewrite Nat.sub_0_r in H3. exact H3.
Qed.

(** X9: a line that ends with a carriage return is never a heading, so that
    in a text whose lines end with a carriage return and a line feed only
    the last line can be one. *)
Theorem extractHeadings_skips_carriage_returns (content : string) :
  Forall (fun h =>
            exists l,
              JS.split JS.newline content !! (MarkdownUtils.line h - 1)%nat
                = Some l
              /\ JS.endsWith JS.carriageReturn l = false)
         (MarkdownUtils.extractHeadings content).
Proof.
  eapply Forall_impl; [apply headingsFrom_no_cr|].
  intros h (l & H1 & H2). exists l. split; [|exact H2].
  rewrite Nat.sub_0_r in H1. exact H1.
Qed.

Example extractHeadings_sample :
  MarkdownUtils.extractHeadings
    ("# Title" +:+ String JS.newline
       ("text" +:+ String JS.newline
          ("## Sub Section!" +:+ String JS.newline "####### seven")))
  = [ {| MarkdownUtils.level := 1; MarkdownUtils.text := "Title";
         MarkdownUtils.line := 1; MarkdownUtils.id := "title" |};
      {| MarkdownUtils.level := 2; MarkdownUtils.text := "Sub Section!";
         MarkdownUtils.line := 3; MarkdownUtils.id := "sub-section" |} ]
  /\ MarkdownUtils.extractHeadings
       ("# One" +:+ String JS.carriageReturn (String JS.newline "# Two"))
     = [ {| MarkdownUtils.level := 1; MarkdownUtils.text := "Two";
            MarkdownUtils.line := 2; MarkdownUtils.id := "two" |} ].
Proof. split; vm_compute; reflexivity. Qed.

(** ** Inline tags *)
Section InlineTags.
Import JS FileUtils MarkdownUtils.

Lemma existsb_eqb_In t l : existsb (String.eqb t) l = true <-> In t l.
Proof.
  rewrite existsb_exists. split.
  - intros [x [Hx E]]. apply String.eqb_eq in E as ->. exact Hx.
  - intros H. exists t. split; [exact H | apply String.eqb_refl].
Qed.

Lemma existsb_VStr t l :
  existsb (value_eqb (VStr t)) (List.map VStr l) = existsb (String.eqb t) l.
Proof.
  induction l as [|x l IH]; [reflexivity|].
  change (existsb (value_eqb (VStr t)) (List.map VStr (x :: l)))
    with (value_eqb (VStr t) (VStr x)
          || existsb (value_eqb (VStr t)) (List.map VStr l)).
  rewrite IH. reflexivity.
Qed.

Lemma fold_addToSet_VStr l : forall acc,
  fold_left pushUnique (List.map VStr l) (List.map VStr acc)
  = List.map VStr (fold_left addToSet l acc).
Proof.
  induction l as [|t l IH]; intros acc; cbn [fold_left List.map]; [reflexivity|].
  rewrite <- IH. f_equal. unfold pushUnique, addToSet.
  rewrite existsb_VStr. destruct (existsb (String.eqb t) acc); [reflexivity|].
  rewrite List.map_app. reflexivity.
Qed.

Lemma addToSet_In acc t x : In x (addToSet acc t) <-> In x acc \/ x = t.
Proof.
  unfold addToSet. destruct (existsb (String.eqb t) acc) eqn:E.
  - apply existsb_eqb_In in E. split; [tauto | intros [H | ->]; assumption].
  - rewrite in_app_iff. cbn. split; [intros [H|[<-|[]]]; auto | intros [H | ->]; auto].
Qed.

Lemma addToSet_NoDup acc t : NoDup acc -> NoDup (addToSet acc t).
Proof.
  intros H. unfold addToSet. destruct (existsb (String.eqb t) acc) eqn:E; [exact H|].
  apply NoDup_app. split; [exact H|]. split; [|apply NoDup_singleton].
  intros x Hx ->%list_elem_of_singleton.
  apply list_elem_of_In, existsb_eqb_In in Hx. congruence.
Qed.

Lemma fold_addToSet l : forall acc,
  NoDup acc ->
  NoDup (fold_left addToSet l acc)
  /\ forall x, In x (fold_left addToSet l acc) <-> In x acc \/ In x l.
Proof.
  induction l as [|t l IH]; intros acc Hacc; cbn [fold_left].
  - split; [exact Hacc | intros x; cbn; tauto].
  - destruct (IH _ (addToSet_NoDup acc t Hacc)) as [Hnd Hin].
    split; [exact Hnd|]. intros x. rewrite Hin, addToSet_In. cbn.
    split; [intros [[H|H]|H] | intros [H|[H|H]]]; auto.
Qed.

Lemma fold_pushUnique_extends l : forall acc,
  exists more,
    fold_left pushUnique l acc = acc ++ more /\ forall x, In x more -> In x l.
Proof.
  induction l as [|t l IH]; intros acc; cbn [fold_left].
  - exists []. rewrite app_nil_r. split; [reflexivity | intros x []].
  - destruct (IH (pushUnique acc t)) as (more & -> & Hmore).
    unfold pushUnique. destruct (existsb (value_eqb t) acc).
    + exists more. split; [reflexivity|]. intros x Hx. right. auto.
    + exists (t :: more). rewrite <- app_assoc. split; [reflexivity|].
      intros x [<-|Hx]; [left; reflexivity | right; auto].
Qed.

Lemma append_nil_l s : "" +:+ s = s.
Proof. reflexivity. Qed.

Ltac norm_app :=
  repeat (rewrite append_assoc || rewrite append_cons || rewrite append_nil_l
          || rewrite append_nil_r).

Lemma emitTag_wellformed cur :
  (forall t, cur = Some t -> allChars isTagChar t = true) ->
  Forall (fun t => t <> "" /\ allChars isTagChar t = true) (emitTag cur).
Proof.
  intros H. destruct cur as [[|c t]|]; cbn; constructor; [|constructor].
  split; [discriminate | apply H; reflexivity].
Qed.

Lemma scanTags_wellformed s : forall cur,
  (forall t, cur = Some t -> allChars isTagChar t = true) ->
  Forall (fun t => t <> "" /\ allChars isTagChar t = true) (scanTags cur s).
Proof.
  assert (Hnext : forall c t,
            (if Ascii.eqb c "#" then Some "" else None) = Some t ->
            allChars isTagChar t = true).
  { intros c t. destruct (Ascii.eqb c "#"); [intros [= <-]; reflexivity | discriminate]. }
  induction s as [|c s IH]; intros cur H; cbn [scanTags].
  - apply emitTag_wellformed, H.
  - destruct cur as [t|].
    + destruct (isTagChar c) eqn:E.
      * apply IH. intros t' [= <-]. rewrite allChars_app, (H t eq_refl). cbn.
        rewrite E. reflexivity.
      * apply Forall_app. split; [apply emitTag_wellformed, H|].
        apply IH, Hnext.
    + apply IH, Hnext.
Qed.

(** Every tag of the scan stands in the text after a [#], and what follows
    it there is no tag character. *)
Lemma scanTags_occurs whole s : forall cur pre,
  whole = pre +:+ match cur with Some t => "#" +:+ t | None => "" end +:+ s ->
  Forall (fun t => exists a b,
            whole = a +:+ "#" +:+ t +:+ b
            /\ forall c b', b = String c b' -> isTagChar c = false)
         (scanTags cur s).
Proof.
  assert (Hemit : forall t pre rest,
            whole = pre +:+ ("#" +:+ t) +:+ rest ->
            (forall c b', rest = String c b' -> isTagChar c = false) ->
            Forall (fun t => exists a b,
                      whole = a +:+ "#" +:+ t +:+ b
                      /\ forall c b', b = String c b' -> isTagChar c = false)
                   (emitTag (Some t))).
  { intros [|c t] pre rest Hw Hrest; cbn; constructor; [|constructor].
    exists pre, rest. split; [|exact Hrest]. rewrite Hw. norm_app. reflexivity. }
  induction s as [|c s IH]; intros cur pre Hw; cbn [scanTags].
  - destruct cur as [t|]; [|constructor].
    apply (Hemit t pre ""); [exact Hw | discriminate].
  - assert (Hnext : forall pre',
              whole = pre' +:+ String c s ->
              Forall (fun t => exists a b,
                        whole = a +:+ "#" +:+ t +:+ b
                        /\ forall c b', b = String c b' -> isTagChar c = false)
                     (scanTags (if Ascii.eqb c "#" then Some "" else None) s)).
    { intros pre' Hw'. destruct (Ascii.eqb c "#") eqn:E.
      - apply Ascii.eqb_eq in E as ->. apply (IH _ pre'). rewrite Hw'.
        norm_app. reflexivity.
      - apply (IH _ (pre' +:+ String c "")). rewrite Hw'. norm_app. reflexivity. }
    destruct cur as [t|].
    + destruct (isTagChar c) eqn:E.
      * apply (IH _ pre). rewrite Hw. norm_app. reflexivity.
      * apply Forall_app. split.
        -- apply (Hemit t pre (String c s)); [exact Hw|].
           intros c' b' [= <- <-]. exact E.
        -- apply (Hnext (pre +:+ "#" +:+ t)). rewrite Hw. norm_app. reflexivity.
    + apply (Hnext pre). rewrite Hw. norm_app. reflexivity.
Qed.

End InlineTags.

(** X10: [extractTags] returns each tag once.  A tag is one or more letters,
    digits, underscores or hyphens; it stands in the text right after a [#]
    and ends where the text ends or another character follows. *)
Theorem extractTags_wellformed (content : string) :
  NoDup (MarkdownUtils.extractTags content)
  /\ Forall (fun t =>
               t <> ""
               /\ FileUtils.allChars FileUtils.isTagChar t = true
               /\ exists a b,
                    content = a +:+ "#" +:+ t +:+ b
                    /\ forall c b', b = String c b' -> FileUtils.isTagChar c = false)
            (MarkdownUtils.extractTags content).
Proof.
  unfold MarkdownUtils.extractTags.
  destruct (fold_addToSet (FileUtils.hashtags content) []) as [Hnd Hin];
    [constructor|].
  split; [exact Hnd|]. apply Forall_forall. intros t Ht.
  apply list_elem_of_In, Hin in Ht as [[]|Ht].
  pose proof (scanTags_wellformed content None) as W.
  pose proof (scanTags_occurs content content None "" eq_refl) as O.
  rewrite Forall_forall in W, O.
  apply list_elem_of_In in Ht.
  destruct (W ltac:(discriminate) t Ht) as [W1 W2]. auto.
Qed.

(** X11: the tags [analyzeMarkdownFile] gives start with the tags
    [extractTags] finds in the body, in the same order; what follows them
    comes from the [tags] entry of the frontmatter. *)
Theorem analyzeMarkdownFile_extends_extractTags (content : string) :
  let analysis := FileUtils.analyzeMarkdownFile content in
  exists more,
    FileUtils.tags analysis
    = List.map JS.VStr (MarkdownUtils.extractTags (FileUtils.bodyOf content))
        ++ more
    /\ forall t, In t more ->
         In t (FileUtils.frontmatterTags (FileUtils.frontmatter analysis)).
Proof.
  cbv zeta. unfold FileUtils.analyzeMarkdownFile, FileUtils.bodyOf.
  cbn [FileUtils.tags FileUtils.frontmatter].
  set (fm := match JS.matchFrontmatter content with
             | Some (raw, _) => _ | None => _ end).
  set (body := match JS.matchFrontmatter content with
               | Some (_, rest) => rest | None => content end).
  unfold MarkdownUtils.extractTags.
  rewrite <- fold_addToSet_VStr. cbn [List.map].
  apply fold_pushUnique_extends.
Qed.

(** ** File extensions *)
Section Extensions.
Import JS FileUtils.

Ltac by_char c :=
  destruct c as [[] [] [] [] [] [] [] []]; vm_compute; reflexivity.

Lemma lowerChar_slash c : Ascii.eqb (lowerChar c) "/" = Ascii.eqb c "/".
Proof. by_char c. Qed.

Lemma lowerChar_dot c : Ascii.eqb (lowerChar c) "." = Ascii.eqb c ".".
Proof. by_char c. Qed.

Lemma extname_cases p :
  extname p
  = if String.eqb (basename p) ".." then ""
    else match basename p with
         | "" => ""
         | String _ rest =>
             match fromLastDot rest with Some e => e | None => "" end
         end.
Proof.
  unfold extname. destruct (basename p) as [|c1 rest]; [reflexivity|].
  destruct (Ascii.eqb c1 ".") eqn:E1.
  - apply Ascii.eqb_eq in E1 as ->.
    destruct rest as [|c2 rest2]; [reflexivity|].
    destruct (Ascii.eqb c2 ".") eqn:E2.
    + apply Ascii.eqb_eq in E2 as ->. destruct rest2; reflexivity.
    + revert E2. destruct c2 as [[] [] [] [] [] [] [] []]; intros E2;
        try reflexivity; discriminate E2.
  - revert E1. destruct c1 as [[] [] [] [] [] [] [] []]; intros E1;
      try reflexivity; discriminate E1.
Qed.

Lemma fromLastDot_dot s e :
  fromLastDot s = Some e -> exists e', e = String "." e'.
Proof.
  revert e. induction s as [|c s IH]; intros e; cbn [fromLastDot]; [discriminate|].
  destruct (fromLastDot s) as [e0|].
  - intros [= <-]. apply IH. reflexivity.
  - destruct (Ascii.eqb c ".") eqn:E; [|discriminate].
    apply Ascii.eqb_eq in E as ->. intros [= <-]. eexists. reflexivity.
Qed.

Lemma extname_dot p : extname p = "" \/ exists e, extname p = String "." e.
Proof.
  rewrite extname_cases. destruct (String.eqb (basename p) ".."); [auto|].
  destruct (basename p) as [|c rest]; [auto|].
  destruct (fromLastDot rest) as [e|] eqn:E; [|auto].
  right. apply fromLastDot_dot in E as [e' ->]. eexists. reflexivity.
Qed.

Lemma toLowerCase_empty s : toLowerCase s = "" -> s = "".
Proof. destruct s; [reflexivity | discriminate]. Qed.

Lemma toLowerCase_stripTrailingSlashes s :
  stripTrailingSlashes (toLowerCase s) = toLowerCase (stripTrailingSlashes s).
Proof.
  induction s as [|c s IH]; [reflexivity|].
  cbn [toLowerCase stripTrailingSlashes]. rewrite IH, lowerChar_slash.
  destruct (stripTrailingSlashes s) as [|d t]; cbn [toLowerCase].
  - destruct (Ascii.eqb c "/"); reflexivity.
  - reflexivity.
Qed.

Lemma toLowerCase_afterLastSlash s : forall acc,
  afterLastSlash (toLowerCase acc) (toLowerCase s)
  = toLowerCase (afterLastSlash acc s).
Proof.
  induction s as [|c s IH]; intros acc; [reflexivity|].
  cbn [toLowerCase afterLastSlash]. rewrite lowerChar_slash.
  destruct (Ascii.eqb c "/"); apply IH.
Qed.

Lemma toLowerCase_basename p : basename (toLowerCase p) = toLowerCase (basename p).
Proof.
  unfold basename. rewrite toLowerCase_stripTrailingSlashes.
  apply toLowerCase_afterLastSlash.
Qed.

Lemma toLowerCase_fromLastDot s :
  fromLastDot (toLowerCase s) = option_map toLowerCase (fromLastDot s).
Proof.
  induction s as [|c s IH]; [reflexivity|].
  cbn [toLowerCase fromLastDot]. rewrite IH, lowerChar_dot.
  destruct (fromLastDot s); cbn [option_map]; [reflexivity|].
  destruct (Ascii.eqb c "."); reflexivity.
Qed.

Lemma toLowerCase_eqb_dots b :
  String.eqb (toLowerCase b) ".." = String.eqb b "..".
Proof.
  destruct b as [|c1 [|c2 [|c3 r]]]; cbn [toLowerCase String.eqb];
    rewrite ?lowerChar_dot; reflexivity.
Qed.

Lemma toLowerCase_extname p : extname (toLowerCase p) = toLowerCase (extname p).
Proof.
  rewrite !extname_cases, toLowerCase_basename, toLowerCase_eqb_dots.
  destruct (String.eqb (basename p) ".."); [reflexivity|].
  destruct (basename p) as [|c rest]; [reflexivity|].
  cbn [toLowerCase]. rewrite toLowerCase_fromLastDot.
  destruct (fromLastDot rest); reflexivity.
Qed.

End Extensions.

(** X12: [isMarkdownFile] tells whether [getFileExtension] gives md,
    markdown, mdown or mkd, and it does not depend on the case of the
    letters of the path. *)
Theorem isMarkdownFile_by_extension (filePath : string) :
  FileUtils.isMarkdownFile filePath
    = existsb (String.eqb (FileUtils.getFileExtension filePath))
        ["md"; "markdown"; "mdown"; "mkd"]
  /\ FileUtils.isMarkdownFile (JS.toLowerCase filePath)
     = FileUtils.isMarkdownFile filePath.
Proof.
  split.
  - unfold FileUtils.isMarkdownFile, FileUtils.getFileExtension.
    destruct (extname_dot filePath) as [-> | [e ->]]; reflexivity.
  - unfold FileUtils.isMarkdownFile.
    rewrite toLowerCase_extname, toLowerCase_idempotent. reflexivity.
Qed.

(** ** The files a batch of moves leaves *)
Section Contents.
Import JS Effect FileProcessor FileOrganizer.

Lemma filesAfter_contents fs op :
  (map_to_list (filesAfter fs op)).*2 ≡ₚ (map_to_list fs).*2.
Proof.
  unfold filesAfter, moveError.
  destruct (dirError fs (dirname (to op))) as [e|]; [reflexivity|].
  destruct (fs !! from op) as [text|] eqn:Hfrom; [|reflexivity].
  destruct (fs !! to op) as [other|] eqn:Hto; [reflexivity|].
  rewrite map_to_list_insert by (apply lookup_delete_None; auto).
  rewrite <- (map_to_list_delete fs (from op) text Hfrom).
  reflexivity.
Qed.

Lemma fold_filesAfter_contents ops : forall fs,
  (map_to_list (fold_left filesAfter ops fs)).*2 ≡ₚ (map_to_list fs).*2.
Proof.
  induction ops as [|op ops IH]; intros fs; cbn [fold_left]; [reflexivity|].
  rewrite IH. apply filesAfter_contents.
Qed.

Lemma executeMoveOperations_files shouldProceed ops w :
  files (fst (executeMoveOperations shouldProceed ops w))
  = if shouldProceed then fold_left filesAfter ops (files w) else files w.
Proof.
  unfold executeMoveOperations, executeMoveOperationsWith.
  change (moveOneWith moveFile) with moveOne.
  unfold bind at 1. cbn [logLine].
  destruct shouldProceed; cbn [negb].
  - unfold bind at 1.
    match goal with |- context [forEach _ _ ?t ?w1] =>
      destruct (forEach_moveOne (length ops) ops t w1)
        as (w' & tally & lines & Hrun & Hfs & _)
    end.
    rewrite Hrun. cbn [files] in Hfs. rewrite <- Hfs.
    unfold bind, logLine, ret. cbn [files log].
    destruct (0 <? length (errors tally))%nat; reflexivity.
  - reflexivity.
Qed.

End Contents.

(** X13: a batch of moves loses no content and makes none up: whatever the
    answer to the preview and whichever moves fail, the files hold after
    the batch the contents they held before it, each as many times. *)
Theorem executeMoveOperations_keeps_contents
    (shouldProceed : bool) (operations : list FileOrganizer.MoveOperation)
    (w : Effect.World) :
  let w' := fst (FileOrganizer.executeMoveOperations shouldProceed operations w) in
  (map_to_list (Effect.files w')).*2 ≡ₚ (map_to_list (Effect.files w)).*2
  /\ size (Effect.files w') = size (Effect.files w).
Proof.
  cbv zeta. rewrite executeMoveOperations_files.
  assert (H : (map_to_list (if shouldProceed
                            then fold_left FileOrganizer.filesAfter operations
                                   (Effect.files w)
                            else Effect.files w)).*2
              ≡ₚ (map_to_list (Effect.files w)).*2).
  { destruct shouldProceed; [apply fold_filesAfter_contents | reflexivity]. }
  split; [exact H|].
  apply Permutation_length in H. rewrite !length_fmap, !length_map_to_list in H.
  exact H.
Qed.

Example basenameExt_samples :
  List.map (fun p => FileUtils.basenameExt p ".md")
    ["/vault/notes/x.md"; "x.md"; "a/.md"; ".md"; "a/md/"; "a/x.md/";
     "plain"; "a.b/c.MD"; "///"]
  = ["x"; "x"; ".md"; ""; "md/"; "x"; "plain"; "c.MD"; "///"].
Proof. vm_compute. reflexivity. Qed.

(** ** The records of the files *)
Section Records.
Import JS Effect FileProcessor.
Variable matter : string -> option MarkdownUtils.Parsed.
Variable statOf : string -> FileStats.

Lemma processFile_run filePath w :
  processFile matter statOf filePath w
  = match files w !! filePath with
    | Some text =>
        let parsed := MarkdownUtils.parseMarkdown matter text in
        (w, Returns
              {| path := filePath;
                 name := FileUtils.basenameExt filePath ".md";
                 extension := FileUtils.extname filePath;
                 size := statSize (statOf filePath);
                 created := birthtime (statOf filePath);
                 modified := mtime (statOf filePath);
                 content := MarkdownUtils.content parsed;
                 frontmatter := MarkdownUtils.frontmatter parsed;
                 frontmatterRaw := MarkdownUtils.frontmatterRaw parsed;
                 tags := None;
                 headings := None |})
    | None =>
        ({| files := files w;
            log := log w ++ [LogError ("Error processing file " +:+ filePath +:+ ":")] |},
         Throws (ENOENT filePath))
    end.
Proof.
  unfold processFile, tryCatch, bind, readFile, ret, logLine, throw.
  destruct (files w !! filePath); reflexivity.
Qed.

(** What a record of [processFiles] is, for the files [fs]. *)
Lemma processOne_run onProgress total acc filePath w :
  exists w' acc',
    processOne matter statOf onProgress total acc filePath w = (w', Returns acc')
    /\ files w' = files w
    /\ match files w !! filePath with
       | Some text =>
           errors acc' = errors acc
           /\ exists fileInfo,
                results acc' = results acc ++ [fileInfo]
                /\ path fileInfo = filePath
                /\ content fileInfo
                   = MarkdownUtils.content (MarkdownUtils.parseMarkdown matter text)
                /\ frontmatter fileInfo
                   = MarkdownUtils.frontmatter (MarkdownUtils.parseMarkdown matter text)
                /\ tags fileInfo = None /\ headings fileInfo = None
       | None =>
           results acc' = results acc
           /\ errors acc'
              = errors acc ++ [{| errorPath := filePath; error := ENOENT filePath |}]
       end.
Proof.
  unfold processOne, tryCatch, bind. rewrite processFile_run.
  destruct (files w !! filePath) as [text|]; cbv zeta.
  - destruct onProgress; cbn [logLine ret];
      (eexists _, _; split; [reflexivity|]; split; [reflexivity|];
       cbn [results errors]; split; [reflexivity|];
       eexists; split; [reflexivity|]; cbn [path content frontmatter tags headings];
       auto).
  - eexists _, _. split; [reflexivity|]. cbn [files results errors]. auto.
Qed.

Lemma forOf_processOne fs onProgress total filePaths : forall acc w,
  files w = fs ->
  exists w' acc',
    forOf (processOne matter statOf onProgress total) filePaths acc w
    = (w', Returns acc')
    /\ files w' = fs
    /\ (exists more,
          results acc' = results acc ++ more
          /\ List.map path more = List.filter (isFile fs) filePaths
          /\ Forall (fun fileInfo =>
                       tags fileInfo = None /\ headings fileInfo = None
                       /\ exists text,
                            fs !! path fileInfo = Some text
                            /\ content fileInfo
                               = MarkdownUtils.content
                                   (MarkdownUtils.parseMarkdown matter text)
                            /\ frontmatter fileInfo
                               = MarkdownUtils.frontmatter
                                   (MarkdownUtils.parseMarkdown matter text))
                    more)
    /\ errors acc'
       = errors acc
         ++ List.map (fun p => {| errorPath := p; error := ENOENT p |})
              (List.filter (fun p => negb (isFile fs p)) filePaths).
Proof.
  induction filePaths as [|p filePaths IH]; intros acc w Hw; cbn [forOf].
  - exists w, acc. split; [reflexivity|]. split; [exact Hw|].
    split; [|cbn; rewrite app_nil_r; reflexivity].
    exists []. rewrite app_nil_r. repeat split. constructor.
  - unfold bind at 1.
    destruct (processOne_run onProgress total acc p w)
      as (w1 & acc1 & Hrun & Hfs & Hcase).
    rewrite Hrun. rewrite Hw in Hfs, Hcase.
    destruct (IH acc1 w1 Hfs) as (w' & acc' & Hrun' & Hfs' & (more & Hres & Hpaths & Hall) & Herr).
    exists w', acc'. split; [exact Hrun'|]. split; [exact Hfs'|].
    cbn [List.filter].
    assert (Hfile : isFile fs p = match fs !! p with Some _ => true | None => false end)
      by reflexivity.
    destruct (fs !! p) as [text|] eqn:Hp; rewrite Hfile; cbn [negb].
    + destruct Hcase as (He & fileInfo & Hr & Hpath & Hcontent & Hfm & Htags & Hhead).
      split.
      * exists (fileInfo :: more). rewrite Hres, Hr, <- app_assoc.
        split; [reflexivity|]. cbn [List.map]. rewrite Hpath, Hpaths.
        split; [reflexivity|]. constructor; [|exact Hall].
        rewrite Hpath. split; [exact Htags|]. split; [exact Hhead|].
        exists text. auto.
      * rewrite Herr, He. reflexivity.
    + destruct Hcase as (Hr & He). split.
      * exists more. rewrite Hres, Hr. auto.
      * rewrite Herr, He, <- app_assoc. reflexivity.
Qed.

Lemma processFiles_run onProgress filePaths w :
  exists w' processed,
    processFiles matter statOf onProgress filePaths w = (w', Returns processed)
    /\ files w' = files w
    /\ List.map path (results processed) = List.filter (isFile (files w)) filePaths
    /\ Forall (fun fileInfo =>
                 tags fileInfo = None /\ headings fileInfo = None
                 /\ exists text,
                      files w !! path fileInfo = Some text
                      /\ content fileInfo
                         = MarkdownUtils.content
                             (MarkdownUtils.parseMarkdown matter text)
                      /\ frontmatter fileInfo
                         = MarkdownUtils.frontmatter
                             (MarkdownUtils.parseMarkdown matter text))
              (results processed)
    /\ errors processed
       = List.map (fun p => {| errorPath := p; error := ENOENT p |})
           (List.filter (fun p => negb (isFile (files w) p)) filePaths).
Proof.
  unfold processFiles.
  destruct (forOf_processOne (files w) onProgress (length filePaths) filePaths
              {| results := []; errors := [] |} w eq_refl)
    as (w' & acc' & Hrun & Hfs & (more & Hres & Hpaths & Hall) & Herr).
  cbn [results errors app] in Hres, Herr. subst more.
  exists w', acc'. auto.
Qed.

Lemma filter_partition_length {A} (f : A -> bool) (l : list A) :
  length (List.filter f l) + length (List.filter (fun x => negb (f x)) l)
  = length l.
Proof.
  induction l as [|x l IH]; cbn [List.filter]; [reflexivity|].
  destruct (f x); cbn [negb length]; lia.
Qed.

End Records.

(** X14: [processFiles] never throws and changes no file.  Its results are
    the records of the paths at which a file is read, in the order of the
    list; its errors are the other paths, in order, each with the error the
    reading has thrown, whichever it is; the two lists together are as long
    as the list of paths.  The content of a record is the body the parser
    gives for the text of the file, not that text. *)
Theorem processFiles_partitions
    (matter : string -> option MarkdownUtils.Parsed)
    (statOf : string -> FileProcessor.FileStats) (onProgress : bool)
    (filePaths : list string) (w : Effect.World) :
  exists w' processed,
    FileProcessor.processFiles matter statOf onProgress filePaths w
    = (w', Effect.Returns processed)
    /\ Effect.files w' = Effect.files w
    /\ List.map FileProcessor.path (FileProcessor.results processed)
       = List.filter (Effect.isFile (Effect.files w)) filePaths
    /\ List.map FileProcessor.errorPath (FileProcessor.errors processed)
       = List.filter (fun p => negb (Effect.isFile (Effect.files w) p))
                     filePaths
    /\ length (FileProcessor.results processed)
       + length (FileProcessor.errors processed)
       = length filePaths
    /\ Forall (fun fileInfo =>
                 exists text,
                   Effect.files w !! FileProcessor.path fileInfo = Some text
                   /\ FileProcessor.content fileInfo
                      = MarkdownUtils.content
                          (MarkdownUtils.parseMarkdown matter text))
              (FileProcessor.results processed).
Proof.
  destruct (processFiles_run matter statOf onProgress filePaths w)
    as (w' & processed & Hrun & Hfs & Hpaths & Hall & Herr).
  exists w', processed. split; [exact Hrun|]. split; [exact Hfs|].
  assert (Herr' : List.map FileProcessor.errorPath (FileProcessor.errors processed)
                  = List.filter (fun p => negb (Effect.isFile (Effect.files w) p))
                                filePaths).
  { rewrite Herr, List.map_map. cbn [FileProcessor.errorPath]. apply List.map_id. }
  split; [exact Hpaths|]. split; [exact Herr'|]. split.
  - rewrite <- (length_map FileProcessor.path), Hpaths.
    rewrite <- (length_map FileProcessor.errorPath), Herr'.
    apply filter_partition_length.
  - eapply Forall_impl; [exact Hall|].
    intros fileInfo (_ & _ & text & H1 & H2 & _). exists text. auto.
Qed.

(** X15: [organizeByTags] sends every file that [processFiles] has read to
    the folder [untagged], whatever tags its text holds: the records carry no
    [tags] field. *)
Theorem organizeByTags_all_untagged
    (pathJoin : list string -> string)
    (matter : string -> option MarkdownUtils.Parsed)
    (statOf : string -> FileProcessor.FileStats) (onProgress : bool)
    (filePaths : list string) (vaultPath : string) (w : Effect.World) :
  let untagged := pathJoin [vaultPath; "organized"; "by-tags"; "untagged"] in
  exists w' processed,
    FileProcessor.processFiles matter statOf onProgress filePaths w
    = (w', Effect.Returns processed)
    /\ FileOrganizer.organizeByTagsOperations pathJoin
         (FileProcessor.results processed) vaultPath
       = List.map
           (fun p => {| FileOrganizer.from := p;
                        FileOrganizer.to := pathJoin [untagged; FileUtils.basename p];
                        FileOrganizer.folder := untagged |})
           (List.filter (Effect.isFile (Effect.files w)) filePaths).
Proof.
  cbv zeta.
  destruct (processFiles_run matter statOf onProgress filePaths w)
    as (w' & processed & Hrun & Hfs & Hpaths & Hall & Herr).
  exists w', processed. split; [exact Hrun|].
  rewrite <- Hpaths. unfold FileOrganizer.organizeByTagsOperations.
  rewrite List.map_map. apply List.map_ext_in. intros fileInfo Hin.
  rewrite Forall_forall in Hall.
  destruct (Hall fileInfo (proj2 (list_elem_of_In _ _) Hin)) as (-> & _).
  reflexivity.
Qed.

(** X16: for a file that [processFiles] has read, [determineFileType]
    answers tasks, journal or notes, and never meetings or projects: the
    records carry neither [headings] nor [tags]. *)
Theorem determineFileType_of_processed
    (matter : string -> option MarkdownUtils.Parsed)
    (statOf : string -> FileProcessor.FileStats) (onProgress : bool)
    (filePaths : list string) (w : Effect.World) :
  exists w' processed,
    FileProcessor.processFiles matter statOf onProgress filePaths w
    = (w', Effect.Returns processed)
    /\ Forall (fun fileInfo =>
                 In (FileOrganizer.determineFileType fileInfo)
                    ["tasks"; "journal"; "notes"])
              (FileProcessor.results processed).
Proof.
  destruct (processFiles_run matter statOf onProgress filePaths w)
    as (w' & processed & Hrun & Hfs & Hpaths & Hall & Herr).
  exists w', processed. split; [exact Hrun|].
  eapply Forall_impl; [exact Hall|].
  intros fileInfo (Htags & Hhead & _). unfold FileOrganizer.determineFileType.
  rewrite Htags, Hhead.
  repeat match goal with
         | |- context [if ?c then _ else _] => destruct c
         end; cbn; auto.
Qed.

(** ** Trailing white space *)
Section Whitespace.
Import JS Effect FileProcessor BatchProcessor.

Lemma split_cons sep c s :
  split sep (String c s)
  = if Ascii.eqb c sep then "" :: split sep s
    else match split sep s with
         | h :: t => String c h :: t
         | [] => [String c ""]
         end.
Proof. reflexivity. Qed.

Lemma split_nonempty sep s : split sep s <> [].
Proof.
  induction s as [|c s IH]; [discriminate|]. rewrite split_cons.
  destruct (Ascii.eqb c sep); [discriminate|].
  destruct (split sep s); [contradiction | discriminate].
Qed.

Lemma split_no_sep sep s :
  Forall (fun l => includes sep l = false) (split sep s).
Proof.
  induction s as [|c s IH]; [repeat constructor|]. rewrite split_cons.
  destruct (Ascii.eqb c sep) eqn:E; [constructor; [reflexivity | exact IH]|].
  destruct (split sep s) as [|h t] eqn:Hs; [contradiction (split_nonempty sep s)|].
  apply Forall_cons in IH as [Hh Ht]. constructor; [|exact Ht].
  cbn [includes]. rewrite E, Hh. reflexivity.
Qed.

Lemma join_cons sep x y l :
  join sep (x :: y :: l) = x +:+ String sep (join sep (y :: l)).
Proof. reflexivity. Qed.

Lemma join_split sep s : join sep (split sep s) = s.
Proof.
  induction s as [|c s IH]; [reflexivity|]. rewrite split_cons.
  destruct (Ascii.eqb c sep) eqn:E.
  - apply Ascii.eqb_eq in E as ->.
    destruct (split sep s) as [|h t] eqn:Hs; [contradiction (split_nonempty sep s)|].
    rewrite join_cons, IH. reflexivity.
  - destruct (split sep s) as [|h [|h' t]] eqn:Hs;
      [contradiction (split_nonempty sep s)| |].
    + cbn [join] in *. rewrite IH. reflexivity.
    + rewrite join_cons in *. rewrite append_cons, IH. reflexivity.
Qed.

Lemma split_app_sep sep x s :
  includes sep x = false ->
  split sep (x +:+ String sep s) = x :: split sep s.
Proof.
  induction x as [|c x IH]; intros H.
  - rewrite append_nil_l, split_cons, Ascii.eqb_refl. reflexivity.
  - cbn [includes] in H. apply orb_false_iff in H as [Hc Hx].
    rewrite append_cons, split_cons, Hc, (IH Hx). reflexivity.
Qed.

Lemma split_whole sep x : includes sep x = false -> split sep x = [x].
Proof.
  induction x as [|c x IH]; intros H; [reflexivity|].
  cbn [includes] in H. apply orb_false_iff in H as [Hc Hx].
  rewrite split_cons, Hc, (IH Hx). reflexivity.
Qed.

Lemma split_join sep l :
  l <> [] -> Forall (fun x => includes sep x = false) l ->
  split sep (join sep l) = l.
Proof.
  induction l as [|x l IH]; intros Hne Hall; [contradiction|].
  apply Forall_cons in Hall as [Hx Hl].
  destruct l as [|y l]; [apply split_whole, Hx|].
  rewrite join_cons, (split_app_sep _ _ _ Hx), IH; [reflexivity | discriminate | exact Hl].
Qed.

Lemma includes_trimEnd c s : includes c s = false -> includes c (trimEnd s) = false.
Proof.
  induction s as [|d s IH]; [auto|]. cbn [includes trimEnd].
  intros [Hd Hs]%orb_false_iff. specialize (IH Hs).
  destruct (trimEnd s) as [|e t].
  - destruct (isWhiteSpace d); cbn [includes]; rewrite ?Hd; reflexivity.
  - cbn [includes] in *. rewrite Hd, IH. reflexivity.
Qed.

Lemma trimEnd_idempotent s : trimEnd (trimEnd s) = trimEnd s.
Proof.
  induction s as [|c s IH]; [reflexivity|]. cbn [trimEnd].
  destruct (trimEnd s) as [|d t] eqn:E.
  - destruct (isWhiteSpace c) eqn:W; [reflexivity|]. cbn [trimEnd]. rewrite W.
    reflexivity.
  - change (trimEnd (String c (String d t))) with
      (match trimEnd (String d t) with
       | "" => if isWhiteSpace c then "" else String c ""
       | x => String c x
       end).
    rewrite IH. reflexivity.
Qed.

Lemma split_cleanedContent content :
  split newline (cleanedContent content)
  = List.map trimEnd (split newline content).
Proof.
  unfold cleanedContent. apply split_join.
  - destruct (split newline content) eqn:E; [contradiction (split_nonempty _ _ E)|].
    discriminate.
  - apply Forall_forall. intros x Hx.
    apply list_elem_of_In, in_map_iff in Hx as (l & <- & Hl).
    apply includes_trimEnd.
    pose proof (split_no_sep newline content) as H. rewrite Forall_forall in H.
    apply H, list_elem_of_In, Hl.
Qed.

Lemma map_fixed {A} (f : A -> A) (l : list A) :
  List.map f l = l <-> Forall (fun x => f x = x) l.
Proof.
  induction l as [|x l IH]; cbn [List.map].
  - split; [constructor | reflexivity].
  - rewrite Forall_cons, <- IH. split; [intros [= -> ->]; auto | intros [-> ->]; reflexivity].
Qed.

End Whitespace.

(** X17: the text [removeTrailingWhitespace] writes has the lines of the
    content, each without the white space that ended it, a carriage return
    included.  Cleaning a cleaned text changes nothing, and a text is left
    as it is exactly when none of its lines ends with white space. *)
Theorem cleanedContent_lines (content : string) :
  JS.split JS.newline (BatchProcessor.cleanedContent content)
    = List.map JS.trimEnd (JS.split JS.newline content)
  /\ BatchProcessor.cleanedContent (BatchProcessor.cleanedContent content)
     = BatchProcessor.cleanedContent content
  /\ (BatchProcessor.cleanedContent content = content
      <-> Forall (fun line => JS.trimEnd line = line)
                 (JS.split JS.newline content))
  /\ Forall (fun line => JS.endsWith JS.carriageReturn line = false)
            (JS.split JS.newline (BatchProcessor.cleanedContent content)).
Proof.
  split; [apply split_cleanedContent|]. split; [|split].
  - unfold BatchProcessor.cleanedContent at 1. rewrite split_cleanedContent.
    unfold BatchProcessor.cleanedContent. f_equal.
    rewrite List.map_map. apply List.map_ext. intros l. apply trimEnd_idempotent.
  - rewrite <- map_fixed. unfold BatchProcessor.cleanedContent. split.
    + intros H. rewrite <- (split_cleanedContent content).
      unfold BatchProcessor.cleanedContent. rewrite H. reflexivity.
    + intros ->. apply join_split.
  - rewrite split_cleanedContent. apply Forall_forall. intros x Hx.
    apply list_elem_of_In, in_map_iff in Hx as (l & <- & _).
    destruct (JS.endsWith JS.carriageReturn (JS.trimEnd l)) eqn:E; [|reflexivity].
    apply endsWith_cr in E as [l' E].
    pose proof (trimEnd_idempotent l) as H. rewrite E in H.
    exfalso. clear -H.
    assert (T : forall s, JS.trimEnd (s +:+ String JS.carriageReturn "") = JS.trimEnd s).
    { induction s as [|c s IH]; [reflexivity|].
      rewrite append_cons. cbn [JS.trimEnd]. rewrite IH. reflexivity. }
    rewrite T in H. apply (f_equal String.length) in H.
    rewrite append_length in H. cbn [String.length] in H.
    pose proof (trimEnd_length l') as L. lia.
Qed.

(** ** Cleaning up the files that were read *)
Section Cleanup.
Import JS Effect FileProcessor BatchProcessor.

Lemma updateFile_run now filePath newContent w :
  updateFile now filePath newContent w
  = match files w !! filePath with
    | Some old =>
        ({| files := <[filePath := newContent]>
                       (<[filePath +:+ ".backup." +:+ numberToString now := old]>
                          (files w));
            log := log w ++ [LogInfo ("Updated file: " +:+ filePath)] |},
         Returns {| success := true;
                    backupPath := filePath +:+ ".backup." +:+ numberToString now |})
    | None =>
        ({| files := files w;
            log := log w ++ [LogError ("Error updating file " +:+ filePath +:+ ":")] |},
         Throws (ENOENT filePath))
    end.
Proof.
  unfold updateFile, tryCatch, bind, copy, writeFile, logLine, ret, throw.
  destruct (files w !! filePath); reflexivity.
Qed.

Lemma deleteFile_backup_run now filePath w :
  deleteFile now filePath true w
  = let backup := filePath +:+ ".deleted." +:+ numberToString now in
    match files w !! filePath, files w !! backup with
    | Some text, None =>
        ({| files := <[backup := text]> (delete filePath (files w));
            log := log w ++ [LogInfo ("File moved to backup: " +:+ backup)] |},
         Returns {| deleted := true; deletedTo := Some backup |})
    | Some _, Some _ =>
        ({| files := files w;
            log := log w ++ [LogError ("Error deleting file " +:+ filePath +:+ ":")] |},
         Throws (EEXIST backup))
    | None, _ =>
        ({| files := files w;
            log := log w ++ [LogError ("Error deleting file " +:+ filePath +:+ ":")] |},
         Throws (ENOENT filePath))
    end.
Proof.
  unfold deleteFile, tryCatch, bind, move, logLine, ret, throw. cbv zeta.
  destruct (files w !! filePath);
    [destruct (files w !! (filePath +:+ ".deleted." +:+ numberToString now))|];
    reflexivity.
Qed.

(** The one record [processFiles] gives for the one path of a file. *)
Lemma processFiles_one matter statOf filePath text w :
  files w !! filePath = Some text ->
  exists w1 fileInfo,
    processFiles matter statOf false [filePath] w
    = (w1, Returns {| results := [fileInfo]; errors := [] |})
    /\ files w1 = files w
    /\ path fileInfo = filePath
    /\ content fileInfo
       = MarkdownUtils.content (MarkdownUtils.parseMarkdown matter text).
Proof.
  intros Hfile. unfold processFiles. cbn [forOf length]. unfold bind, processOne, tryCatch.
  unfold bind. rewrite processFile_run, Hfile. cbv zeta. cbn [ret results errors app].
  eexists _, _. split; [reflexivity|]. cbn [path content]. auto.
Qed.

End Cleanup.





(** X20: on a path at which nothing is read (no file there, and none below
    it), [updateFile] and [updateFileFrontmatter] throw, whichever error the
    library reports, and change no file. *)
Theorem missing_file_outcomes
    (matter : string -> option MarkdownUtils.Parsed) (now : Z)
    (filePath newContent : string) (newFrontmatter : JS.object)
    (w : Effect.World) :
  Effect.nothingAt (Effect.files w) filePath ->
  (exists w' e, FileProcessor.updateFile now filePath newContent w
                = (w', Effect.Throws e)
                /\ Effect.files w' = Effect.files w)
  /\ (exists w' e, FileProcessor.updateFileFrontmatter matter now filePath
                     newFrontmatter w
                   = (w', Effect.Throws e)
                   /\ Effect.files w' = Effect.files w).
Proof.
  intros Hnothing.
  assert (Hfile : Effect.files w !! filePath = None).
  { apply Hnothing. left. reflexivity. }
  split.
  - rewrite updateFile_run, Hfile. eexists _, _. split; reflexivity.
  - unfold FileProcessor.updateFileFrontmatter, Effect.tryCatch, Effect.bind,
      Effect.readFile, Effect.logLine, Effect.throw.
    rewrite Hfile. eexists _, _. split; reflexivity.
Qed.

Lemma missing_file_outcomes_witness :
  exists w' e,
    FileProcessor.updateFileFrontmatter (fun _ => None) 1700000000000
      "gone.md" [("title", JS.VStr "T")]
      {| Effect.files := {[ "n.md" := "Body" ]}; Effect.log := [] |}
    = (w', Effect.Throws e)
    /\ Effect.files w' = {[ "n.md" := "Body" ]}.
Proof.
  destruct (missing_file_outcomes (fun _ => None) 1700000000000 "gone.md" ""
              [("title", JS.VStr "T")]
              {| Effect.files := {[ "n.md" := "Body" ]}; Effect.log := [] |})
    as (_ & H).
  - intros q Hq. cbn [Effect.files]. apply lookup_singleton_ne.
    intros <-. destruct Hq as [Hq | Hq]; [discriminate Hq|].
    vm_compute in Hq. discriminate Hq.
  - exact H.
Defined.

(** ** The current vault *)
Section Current.
Import JS Effect VaultManager.

Lemma analyzeDirectory_returns nocase dirPath target :
  exists info,
    analyzeDirectory nocase dirPath target = Returns info
    /\ path info = dirPath.
Proof.
  unfold analyzeDirectory. destruct target; cbn; eexists; split; reflexivity.
Qed.

(** What a sequence of selections keeps true. *)
Lemma setCurrentVaultWithHistory_run nocase writeOk vaultPath target st :
  exists s d result,
    setCurrentVaultWithHistory nocase writeOk vaultPath target st
    = Returns (s, d, result)
    /\ (if result
        then exists info,
               currentVault s = Some info /\ isVault info = true
               /\ path info = vaultPath
               /\ recentVaults (manager s)
                  = firstn 10
                      (vaultPath
                       :: List.filter (fun p => negb (String.eqb p vaultPath))
                            (recentVaults (manager (fst st))))
        else s = fst st /\ d = snd st).
Proof.
  unfold setCurrentVaultWithHistory, setCurrentVault.
  destruct (analyzeDirectory_returns nocase vaultPath target) as (info & -> & Hpath).
  destruct (isVault info) eqn:Hv.
  - eexists _, _, true. split; [reflexivity|]. exists info. cbn. auto.
  - eexists _, _, false. split; [reflexivity|]. auto.
Qed.

Lemma selectAll_run nocase calls : forall st,
  exists s d,
    selectAll nocase calls st = Returns (s, d)
    /\ ((s = fst st /\ d = snd st)
        \/ exists info,
             currentVault s = Some info /\ isVault info = true
             /\ head (recentVaults (manager s)) = Some (path info)).
Proof.
  induction calls as [|c calls IH]; intros st; cbn [selectAll].
  - exists (fst st), (snd st). destruct st. auto.
  - destruct (setCurrentVaultWithHistory_run nocase (callWriteOk c) (callPath c)
                (callTarget c) st) as (s1 & d1 & result & -> & Hcase).
    destruct (IH (s1, d1)) as (s & d & Hrun & Hend).
    exists s, d. split; [exact Hrun|].
    destruct Hend as [[-> ->] | Hend]; [|right; exact Hend].
    cbn [fst snd]. destruct result.
    + right. destruct Hcase as (info & Hcur & Hv & Hpath & Hrecent).
      exists info. rewrite Hrecent, Hpath. auto.
    + left. exact Hcase.
Qed.

End Current.



(** ** Frontmatter that survives a round trip *)
Section RoundTrip.
Import JS MarkdownUtils.

Lemma trimStart_fixed s :
  String.length (trimStart s) = String.length s -> trimStart s = s.
Proof.
  destruct s as [|c s]; [reflexivity|]. cbn [trimStart].
  destruct (isWhiteSpace c); [|reflexivity].
  pose proof (trimStart_length s). cbn [String.length]. lia.
Qed.

Lemma trimEnd_cons c s :
  trimEnd (String c s)
  = match trimEnd s with
    | "" => if isWhiteSpace c then "" else String c ""
    | t => String c t
    end.
Proof. reflexivity. Qed.

Lemma trimEnd_fixed s :
  String.length (trimEnd s) = String.length s -> trimEnd s = s.
Proof.
  induction s as [|c s IH]; [reflexivity|]. rewrite trimEnd_cons.
  pose proof (trimEnd_length s) as L.
  destruct (trimEnd s) as [|d t] eqn:E.
  - destruct (isWhiteSpace c); cbn [String.length] in *; [lia|].
    intros H. destruct s; [reflexivity | cbn [String.length] in *; lia].
  - cbn [String.length] in *. intros H. rewrite IH by lia. reflexivity.
Qed.

Lemma trim_fixed s : trim s = s -> trimStart s = s /\ trimEnd s = s.
Proof.
  unfold trim. intros H.
  pose proof (trimStart_length s) as L1.
  pose proof (trimEnd_length (trimStart s)) as L2.
  assert (Hs : trimStart s = s).
  { apply trimStart_fixed. apply (f_equal String.length) in H. lia. }
  rewrite Hs in H. auto.
Qed.

Lemma trimStart_app k x :
  k <> "" -> trimStart k = k -> trimStart (k +:+ x) = k +:+ x.
Proof.
  destruct k as [|c k]; [contradiction|]. intros _. rewrite append_cons.
  cbn [trimStart]. destruct (isWhiteSpace c); [|reflexivity].
  intros H. apply (f_equal String.length) in H.
  pose proof (trimStart_length k). cbn [String.length] in H. lia.
Qed.

Lemma trimEnd_app a b : trimEnd b <> "" -> trimEnd (a +:+ b) = a +:+ trimEnd b.
Proof.
  intros Hb. induction a as [|c a IH]; [reflexivity|].
  rewrite !append_cons, trimEnd_cons, IH.
  destruct (a +:+ trimEnd b) eqn:E; [|reflexivity].
  destruct a; [contradiction | discriminate E].
Qed.

Lemma includes_app c a b : includes c (a +:+ b) = includes c a || includes c b.
Proof.
  induction a as [|d a IH]; [reflexivity|]. rewrite append_cons. cbn [includes].
  rewrite IH, orb_assoc. reflexivity.
Qed.

Lemma cutAt_app c k r :
  includes c k = false -> cutAt c (k +:+ String c r) = Some (k, r).
Proof.
  induction k as [|d k IH]; intros H.
  - rewrite append_nil_l. cbn [cutAt]. rewrite Ascii.eqb_refl. reflexivity.
  - cbn [includes] in H. apply orb_false_iff in H as [Hd Hk].
    rewrite append_cons. cbn [cutAt]. rewrite Hd, (IH Hk). reflexivity.
Qed.

(** The line [stringifyYaml] prints for a plain key and a stable value is
    read back as that key with that value. *)
Lemma parseYamlLine_printed acc k v :
  isPlainKey k = true -> isStableValue v = true ->
  parseYamlLine acc (k +:+ ": " +:+ stringifyYamlValue v) = set acc k v
  /\ includes newline (k +:+ ": " +:+ stringifyYamlValue v) = false.
Proof.
  unfold isPlainKey, isStableValue. cbv zeta.
  rewrite !andb_true_iff, !negb_true_iff.
  intros [[[[[Hne Htrim] Hcolon] Hnl] Hhash] _] [[[_ Vnl] Vtrim] Vparse].
  apply String.eqb_neq in Hne. apply String.eqb_eq in Htrim, Vtrim.
  apply value_eqb_eq in Vparse.
  set (sv := stringifyYamlValue v) in *.
  destruct (trim_fixed _ Htrim) as [Ks Ke]. destruct (trim_fixed _ Vtrim) as [Vs Ve].
  split; [|rewrite !includes_app, Hnl, Vnl; reflexivity].
  assert (Htail : trimEnd (": " +:+ sv) = String ":" (trimEnd (String " " sv))).
  { change (": " +:+ sv) with (String ":" (String " " sv)).
    rewrite trimEnd_cons. destruct (trimEnd (String " " sv)); reflexivity. }
  assert (Htrimmed : trim (k +:+ ": " +:+ sv)
                     = k +:+ String ":" (trimEnd (String " " sv))).
  { unfold trim. rewrite (trimStart_app _ _ Hne Ks).
    rewrite trimEnd_app; rewrite Htail; [reflexivity | discriminate]. }
  unfold parseYamlLine. rewrite Htrimmed.
  assert (E1 : String.eqb (k +:+ String ":" (trimEnd (String " " sv))) "" = false).
  { apply String.eqb_neq. destruct k; [contradiction | discriminate]. }
  assert (E2 : startsWith "#" (k +:+ String ":" (trimEnd (String " " sv))) = false).
  { destruct k as [|c k]; [contradiction|]. rewrite append_cons.
    cbn [startsWith] in Hhash |- *. exact Hhash. }
  rewrite E1, E2. cbn [orb]. rewrite (cutAt_app _ _ _ Hcolon), Htrim.
  assert (Hvalue : trim (trimEnd (String " " sv)) = sv).
  { destruct sv as [|c sv'] eqn:Esv; [reflexivity|].
    rewrite trimEnd_cons, Ve. unfold trim. cbn [trimStart isWhiteSpace].
    fold (trim (String c sv')). exact Vtrim. }
  rewrite Hvalue, Vparse. reflexivity.
Qed.

Lemma stringifyYaml_fold obj : forall acc,
  fold_left
    (fun result kv =>
       result +:+ fst kv +:+ ": " +:+ stringifyYamlValue (snd kv)
         +:+ String newline "")
    obj acc
  = acc +:+ stringifyYaml obj.
Proof.
  unfold stringifyYaml.
  induction obj as [|kv obj IH]; intros acc; cbn [fold_left].
  - rewrite append_nil_r. reflexivity.
  - rewrite IH, (IH ("" +:+ _)). rewrite !append_nil_l, !append_assoc. reflexivity.
Qed.

Lemma parseYamlLike_printed obj : forall acc,
  Forall (fun kv => isPlainKey (fst kv) = true /\ isStableValue (snd kv) = true) obj ->
  fold_left parseYamlLine (split newline (stringifyYaml obj)) acc = spread acc obj.
Proof.
  induction obj as [|[k v] obj IH]; intros acc Hall.
  - reflexivity.
  - apply Forall_cons in Hall as [[Hk Hv] Hall]. cbn [fst snd] in Hk, Hv.
    destruct (parseYamlLine_printed acc k v Hk Hv) as [Hline Hnl].
    unfold stringifyYaml at 1. cbn [fold_left fst snd].
    rewrite stringifyYaml_fold, !append_nil_l.
    replace ((k +:+ ": " +:+ stringifyYamlValue v +:+ String newline "")
             +:+ stringifyYaml obj)
      with ((k +:+ ": " +:+ stringifyYamlValue v)
            +:+ String newline (stringifyYaml obj))
      by (rewrite !append_assoc; reflexivity).
    rewrite (split_app_sep _ _ _ Hnl). cbn [fold_left]. rewrite Hline.
    rewrite (IH _ Hall). reflexivity.
Qed.

Lemma spread_fresh obj : forall acc,
  NoDup (List.map fst acc ++ List.map fst obj) -> spread acc obj = acc ++ obj.
Proof.
  unfold spread.
  induction obj as [|[k v] obj IH]; intros acc Hnd; cbn [fold_left fst snd].
  - rewrite app_nil_r. reflexivity.
  - cbn [List.map fst] in Hnd.
    assert (Hfresh : ~ In k (List.map fst acc)).
    { apply NoDup_app in Hnd as (_ & Hdis & _). intros Hin.
      apply (Hdis k); [apply list_elem_of_In, Hin | left]. }
    rewrite (set_fresh _ _ _ Hfresh), IH.
    + rewrite <- app_assoc. reflexivity.
    + rewrite List.map_app. cbn [List.map fst]. rewrite <- app_assoc. exact Hnd.
Qed.

Lemma endsWith_app_char c s : endsWith c (s +:+ String c "") = true.
Proof.
  induction s as [|d s IH]; [cbn; apply Ascii.eqb_refl|].
  rewrite append_cons. destruct (s +:+ String c "") eqn:E; [destruct s; discriminate E|].
  exact IH.
Qed.

Lemma removeLast_app_char c s : removeLast (s +:+ String c "") = s.
Proof.
  induction s as [|d s IH]; [reflexivity|].
  rewrite append_cons.
  destruct (s +:+ String c "") as [|a t] eqn:E; [destruct s; discriminate E|].
  change (String d (removeLast (String a t)) = String d s). rewrite IH. reflexivity.
Qed.

Lemma escapeQuotes_id s : includes dquote s = false -> escapeQuotes s = s.
Proof.
  induction s as [|c s IH]; [reflexivity|]. cbn [includes escapeQuotes].
  intros [Hc Hs]%orb_false_iff. rewrite Hc, (IH Hs). reflexivity.
Qed.

End RoundTrip.

(** X23: a frontmatter with each key once, plain keys (none of them
    [__proto__] or an integer index, among other things) and values (scalars
    or arrays of scalars, within the numbers of the model) whose printed
    text is read back as the value, is what [parseYamlLike] reads in the
    text [stringifyYaml] prints for it: same keys, same values, same
    order. *)
Theorem stringifyYaml_parseYamlLike_roundtrip (obj : JS.object) :
  JS.wf obj ->
  Forall (fun kv => MarkdownUtils.isPlainKey (fst kv) = true
                    /\ MarkdownUtils.isStableValue (snd kv) = true) obj ->
  MarkdownUtils.parseYamlLike (MarkdownUtils.stringifyYaml obj) = obj.
Proof.
  intros Hwf Hall. unfold MarkdownUtils.parseYamlLike.
  rewrite (parseYamlLike_printed obj [] Hall). apply (spread_fresh obj []).
  exact Hwf.
Qed.

Lemma stringifyYaml_parseYamlLike_roundtrip_witness :
  let obj := [("title", JS.VStr "Plan: week 3"); ("draft", JS.VBool true);
              ("priority", JS.VNum 2); ("tags", JS.VArr [JS.VStr "a"; JS.VStr "b"]);
              ("source", JS.VNull)] in
  MarkdownUtils.parseYamlLike (MarkdownUtils.stringifyYaml obj) = obj.
Proof.
  cbv zeta. apply stringifyYaml_parseYamlLike_roundtrip.
  - unfold JS.wf. cbn [List.map fst]. solve_NoDup.
  - repeat (apply Forall_cons; split; [split; vm_compute; reflexivity|]).
    apply Forall_nil. exact I.
Defined.

(** X24: a string that [stringifyYamlValue] puts between double quotes (it
    holds a colon, a [#] or a line feed) is read back by [parseYamlValue]
    with the backslashes that were put before its double quotes: it is the
    string itself exactly when it holds no double quote. *)
Theorem quoted_string_keeps_backslashes (s : string) :
  JS.includes ":" s || JS.includes "#" s || JS.includes JS.newline s = true ->
  MarkdownUtils.parseYamlValue (MarkdownUtils.stringifyYamlValue (JS.VStr s))
    = JS.VStr (MarkdownUtils.escapeQuotes s)
  /\ (MarkdownUtils.escapeQuotes s = s <-> JS.includes MarkdownUtils.dquote s = false).
Proof.
  intros H. split.
  - cbn [MarkdownUtils.stringifyYamlValue]. rewrite H.
    rewrite parseYamlValue_equation.
    assert (W : MarkdownUtils.isWrapped MarkdownUtils.dquote MarkdownUtils.dquote
                  (String MarkdownUtils.dquote (MarkdownUtils.escapeQuotes s)
                   +:+ String MarkdownUtils.dquote "") = true).
    { unfold MarkdownUtils.isWrapped. rewrite endsWith_app_char, append_cons.
      cbn [JS.startsWith]. rewrite Ascii.eqb_refl. reflexivity. }
    rewrite W. cbn [orb]. rewrite append_cons. cbn [JS.slice1].
    rewrite removeLast_app_char. reflexivity.
  - split; [|apply escapeQuotes_id].
    intros E. destruct (JS.includes MarkdownUtils.dquote s) eqn:I; [|reflexivity].
    exfalso. apply (f_equal String.length) in E. revert I E. clear.
    assert (L : forall t, String.length t <= String.length (MarkdownUtils.escapeQuotes t)).
    { induction t as [|c t IH]; [reflexivity|]. cbn [MarkdownUtils.escapeQuotes].
      destruct (Ascii.eqb c MarkdownUtils.dquote); cbn [String.length]; lia. }
    induction s as [|c s IH]; [discriminate|].
    cbn [JS.includes MarkdownUtils.escapeQuotes].
    destruct (Ascii.eqb c MarkdownUtils.dquote); cbn [orb String.length].
    + intros _ E. pose proof (L s). lia.
    + intros I E. apply IH; [exact I | lia].
Qed.

Lemma quoted_string_keeps_backslashes_witness :
  MarkdownUtils.parseYamlValue
    (MarkdownUtils.stringifyYamlValue (JS.VStr "see: it"))
  = JS.VStr "see: it".
Proof.
  destruct (quoted_string_keeps_backslashes "see: it") as [H _].
  - reflexivity.
  - exact H.
Defined.

(** ** A document that is printed and read again *)
Section Document.
Import JS MarkdownUtils.

Lemma lazyUntilClose_equation t :
  lazyUntilClose t
  = match (if startsWith (String newline "---") t
           then afterSpaceNewline (string_drop 4 t) else None) with
    | Some rest => Some ("", rest)
    | None =>
        match t with
        | "" => None
        | String c t' =>
            match lazyUntilClose t' with
            | Some (g, rest) => Some (String c g, rest)
            | None => None
            end
        end
    end.
Proof. destruct t; reflexivity. Qed.

(** Inside a line the closing fence is not looked for with success. *)
Lemma lazyUntilClose_line l t :
  includes newline l = false ->
  lazyUntilClose (l +:+ t)
  = match lazyUntilClose t with
    | Some (g, rest) => Some (l +:+ g, rest)
    | None => None
    end.
Proof.
  induction l as [|c l IH]; intros H.
  - rewrite append_nil_l. destruct (lazyUntilClose t) as [[g rest]|]; reflexivity.
  - cbn [includes] in H. apply orb_false_iff in H as [Hc Hl].
    rewrite append_cons, lazyUntilClose_equation.
    cbn [startsWith]. rewrite Ascii.eqb_sym, Hc. cbn [andb].
    rewrite (IH Hl). destruct (lazyUntilClose t) as [[g rest]|]; reflexivity.
Qed.

Lemma afterSpaceNewline_colon a x :
  includes newline a = false -> afterSpaceNewline (a +:+ String ":" x) = None.
Proof.
  induction a as [|c a IH]; intros H; [reflexivity|].
  cbn [includes] in H. apply orb_false_iff in H as [Hc Ha].
  rewrite append_cons. cbn [afterSpaceNewline]. rewrite (IH Ha), Hc.
  destruct (isWhiteSpace c); reflexivity.
Qed.

(** A printed line does not close the frontmatter, whatever its key. *)
Lemma no_close_at_line k x :
  includes newline k = false ->
  (if startsWith (String newline "---") (String newline (k +:+ String ":" x))
   then afterSpaceNewline (string_drop 4 (String newline (k +:+ String ":" x)))
   else None) = None.
Proof.
  intros H. cbn [startsWith string_drop]. rewrite Ascii.eqb_refl. cbn [andb].
  destruct k as [|c1 [|c2 [|c3 k]]];
    rewrite ?append_nil_l, ?append_cons; cbn [startsWith string_drop].
  - reflexivity.
  - destruct (Ascii.eqb "-" c1); reflexivity.
  - destruct (Ascii.eqb "-" c1), (Ascii.eqb "-" c2); reflexivity.
  - destruct (Ascii.eqb "-" c1), (Ascii.eqb "-" c2), (Ascii.eqb "-" c3);
      cbn [andb]; try reflexivity.
    apply afterSpaceNewline_colon.
    cbn [includes] in H. repeat (apply orb_false_iff in H as [_ H]). exact H.
Qed.

Lemma lazyUntilClose_lines lines closing rest :
  lines <> [] ->
  Forall (fun l => exists k x, l = k +:+ String ":" x /\ includes newline l = false)
         lines ->
  lazyUntilClose (String newline closing) = Some ("", rest) ->
  lazyUntilClose (join newline lines +:+ String newline closing)
  = Some (join newline lines, rest).
Proof.
  intros Hne Hall Hclose. induction lines as [|l lines IH]; [contradiction|].
  apply Forall_cons in Hall as [(k & x & -> & Hl) Hall].
  destruct lines as [|l2 lines].
  - cbn [join]. rewrite (lazyUntilClose_line _ _ Hl), Hclose, append_nil_r.
    reflexivity.
  - rewrite join_cons, append_assoc, append_cons.
    rewrite (lazyUntilClose_line _ _ Hl).
    specialize (IH ltac:(discriminate) Hall).
    pose proof Hall as Hall2. apply Forall_cons in Hall2 as [(k2 & x2 & E2 & Hl2) _].
    rewrite lazyUntilClose_equation.
    assert (Hnext : exists y, join newline (l2 :: lines) +:+ String newline closing
                              = k2 +:+ String ":" y).
    { destruct lines as [|l3 lines].
      - cbn [join]. rewrite E2, append_assoc, append_cons. eexists. reflexivity.
      - rewrite join_cons, E2, !append_assoc, !append_cons. eexists. reflexivity. }
    destruct Hnext as [y Hy]. rewrite Hy.
    rewrite no_close_at_line.
    + rewrite <- Hy, IH. reflexivity.
    + rewrite E2, includes_app in Hl2. apply orb_false_iff in Hl2 as [Hk _]. exact Hk.
Qed.

Lemma stringifyYaml_lines obj :
  obj <> [] ->
  stringifyYaml obj
  = join newline
      (List.map (fun kv => fst kv +:+ ": " +:+ stringifyYamlValue (snd kv)) obj)
    +:+ String newline "".
Proof.
  induction obj as [|kv obj IH]; intros Hne; [contradiction|].
  unfold stringifyYaml. cbn [fold_left]. rewrite stringifyYaml_fold, append_nil_l.
  destruct obj as [|kv2 obj].
  - cbn [List.map join stringifyYaml fold_left]. unfold stringifyYaml. cbn [fold_left].
    rewrite append_nil_r, !append_assoc. reflexivity.
  - rewrite IH by discriminate. cbn [List.map]. rewrite join_cons.
    rewrite !append_assoc, !append_cons, !append_nil_l. reflexivity.
Qed.

Lemma split_app_last sep g :
  split sep (g +:+ String sep "") = split sep g ++ [""].
Proof.
  induction g as [|c g IH].
  - rewrite append_nil_l, split_cons, Ascii.eqb_refl. reflexivity.
  - rewrite append_cons, !split_cons, IH.
    destruct (Ascii.eqb c sep); [reflexivity|].
    destruct (split sep g) as [|h t] eqn:E; [contradiction (split_nonempty _ _ E)|].
    reflexivity.
Qed.

Lemma parseYamlLike_without_last g :
  parseYamlLike g = parseYamlLike (g +:+ String newline "").
Proof.
  unfold parseYamlLike. rewrite split_app_last, fold_left_app. reflexivity.
Qed.

End Document.

Section Reading.
Import JS MarkdownUtils.

Lemma afterSpaceNewline_blank body :
  afterSpaceNewline (String newline (String newline body))
  = Some (match afterSpaceNewline body with Some r => r | None => body end).
Proof.
  cbn [afterSpaceNewline].
  replace (isWhiteSpace newline) with true by reflexivity.
  rewrite Ascii.eqb_refl.
  destruct (afterSpaceNewline body); reflexivity.
Qed.

Lemma printed_lines obj :
  Forall (fun kv => isPlainKey (fst kv) = true /\ isStableValue (snd kv) = true) obj ->
  Forall (fun l => exists k x, l = k +:+ String ":" x /\ includes newline l = false)
         (List.map (fun kv => fst kv +:+ ": " +:+ stringifyYamlValue (snd kv)) obj).
Proof.
  intros Hall. apply Forall_forall. intros l Hl.
  apply list_elem_of_In, in_map_iff in Hl as ([k v] & <- & Hin).
  rewrite Forall_forall in Hall.
  destruct (Hall (k, v) (proj2 (list_elem_of_In _ _) Hin)) as [Hk Hv].
  cbn [fst snd] in *. exists k, (String " " (stringifyYamlValue v)).
  split; [reflexivity|]. apply (parseYamlLine_printed [] k v Hk Hv).
Qed.

Lemma manualParse_printed kv obj body :
  Forall (fun kv => isPlainKey (fst kv) = true /\ isStableValue (snd kv) = true)
         (kv :: obj) ->
  let lines :=
    join newline
      (List.map (fun kv => fst kv +:+ ": " +:+ stringifyYamlValue (snd kv))
                (kv :: obj)) in
  matchFrontmatter (stringifyMarkdown (kv :: obj) body)
  = Some (lines, match afterSpaceNewline body with Some r => r | None => body end).
Proof.
  intros Hall lines. unfold stringifyMarkdown.
  rewrite (stringifyYaml_lines (kv :: obj)) by discriminate. fold lines.
  unfold matchFrontmatter. rewrite startsWith_app.
  change (string_drop 3 ("---" +:+ ?x)) with x.
  rewrite append_cons, append_assoc, (append_cons newline ""), append_nil_l.
  assert (Hfirst : exists c l, lines = String c l /\ isWhiteSpace c = false).
  { pose proof Hall as H1. apply Forall_cons in H1 as [[Hk _] _].
    unfold isPlainKey in Hk. rewrite !andb_true_iff, !negb_true_iff in Hk.
    destruct Hk as [[[[[Hne Htrim] _] _] _] _].
    apply String.eqb_neq in Hne. apply String.eqb_eq in Htrim.
    apply trim_fixed in Htrim as [Hs _].
    destruct (fst kv) as [|c k] eqn:Ek; [contradiction|].
    assert (Hc : isWhiteSpace c = false).
    { cbn [trimStart] in Hs. destruct (isWhiteSpace c); [|reflexivity].
      apply (f_equal String.length) in Hs. pose proof (trimStart_length k).
      cbn [String.length] in Hs. lia. }
    unfold lines. cbn [List.map]. rewrite Ek.
    destruct obj as [|kv2 obj].
    - cbn [List.map join]. rewrite append_cons. eexists _, _. split; [reflexivity | exact Hc].
    - cbn [List.map]. rewrite join_cons, !append_cons.
      eexists _, _. split; [reflexivity | exact Hc]. }
  destruct Hfirst as (c & l & Hlines & Hc).
  assert (Hall1 : afterSpaceNewlineAll
                    (lines +:+ String newline ("---"
                                 +:+ String newline (String newline body))) = []).
  { rewrite Hlines, append_cons. cbn [afterSpaceNewlineAll]. rewrite Hc. reflexivity. }
  cbn [afterSpaceNewlineAll].
  replace (isWhiteSpace newline) with true by reflexivity.
  rewrite Ascii.eqb_refl, Hall1. cbn [app firstSome].
  unfold lines.
  rewrite (lazyUntilClose_lines _ _
             (match afterSpaceNewline body with Some r => r | None => body end)).
  - reflexivity.
  - discriminate.
  - apply printed_lines, Hall.
  - rewrite lazyUntilClose_equation.
    change (startsWith (String newline "---")
              (String newline ("---" +:+ String newline (String newline body))))
      with true.
    change (string_drop 4 (String newline ("---" +:+ String newline (String newline body))))
      with (String newline (String newline body)).
    rewrite afterSpaceNewline_blank. reflexivity.
Qed.

End Reading.

(** X25: the text [stringifyMarkdown] prints for a frontmatter that is not
    empty, with each key once, plain keys (none of them [__proto__] or an
    integer index) and stable values, is read by [manualParse] as that
    frontmatter, in the same order, with the body
    that was printed, less the white space it starts with up to its last
    line feed: a body that starts with blank lines loses them. *)
Theorem manualParse_stringifyMarkdown_roundtrip (fm : JS.object) (body : string) :
  fm <> [] ->
  JS.wf fm ->
  Forall (fun kv => MarkdownUtils.isPlainKey (fst kv) = true
                    /\ MarkdownUtils.isStableValue (snd kv) = true) fm ->
  let parsed := MarkdownUtils.manualParse (MarkdownUtils.stringifyMarkdown fm body) in
  MarkdownUtils.frontmatter parsed = fm
  /\ MarkdownUtils.content parsed
     = match JS.afterSpaceNewline body with Some rest => rest | None => body end.
Proof.
  intros Hne Hwf Hall. destruct fm as [|kv obj]; [contradiction|].
  cbv zeta. unfold MarkdownUtils.manualParse.
  rewrite (manualParse_printed kv obj body Hall).
  cbn [MarkdownUtils.frontmatter MarkdownUtils.content]. split; [|reflexivity].
  rewrite parseYamlLike_without_last, <- stringifyYaml_lines by discriminate.
  unfold MarkdownUtils.parseYamlLike.
  rewrite (parseYamlLike_printed (kv :: obj) [] Hall).
  apply (spread_fresh (kv :: obj) []). exact Hwf.
Qed.

Lemma manualParse_stringifyMarkdown_roundtrip_witness :
  let fm := [("title", JS.VStr "Plan: week 3"); ("draft", JS.VBool true);
             ("tags", JS.VArr [JS.VStr "a"; JS.VStr "b"])] in
  let body := String JS.newline ("  " +:+ String JS.newline "Text") in
  let parsed := MarkdownUtils.manualParse (MarkdownUtils.stringifyMarkdown fm body) in
  MarkdownUtils.frontmatter parsed = fm
  /\ MarkdownUtils.content parsed = "Text".
Proof.
  cbv zeta.
  apply (manualParse_stringifyMarkdown_roundtrip
           [("title", JS.VStr "Plan: week 3"); ("draft", JS.VBool true);
            ("tags", JS.VArr [JS.VStr "a"; JS.VStr "b"])]
           (String JS.newline ("  " +:+ String JS.newline "Text"))).
  - discriminate.
  - unfold JS.wf. cbn [List.map fst]. solve_NoDup.
  - repeat (apply Forall_cons; split; [split; vm_compute; reflexivity|]).
    apply Forall_nil. exact I.
Defined.

(** ** The names of a renaming *)
Section Renaming.
Import JS FileProcessor FileOrganizer.
Variable pathJoin : list string -> string.

Lemma isoDate_not_empty date name :
  PropertyManager.isoDate date +:+ "-" +:+ name <> ""
  /\ PropertyManager.isoDate date +:+ "-" +:+ name <> name.
Proof.
  split.
  - intros H. apply (f_equal String.length) in H.
    rewrite !append_length in H. cbn [String.length] in H. lia.
  - intros H. apply (f_equal String.length) in H.
    rewrite !append_length in H. cbn [String.length] in H. lia.
Qed.

(** What holds of every operation planned with the pattern [sanitize]. *)
Lemma renameOperations_sanitize fileInfos : forall ops,
  exists more,
    fold_left (planRename pathJoin BySanitize) fileInfos (Some ops)
    = Some (ops ++ more)
    /\ List.map renameFrom more
       = List.map path
           (List.filter
              (fun fileInfo =>
                 negb (String.eqb (FileUtils.sanitizeFilename (name fileInfo)) "")
                 && negb (String.eqb (FileUtils.sanitizeFilename (name fileInfo))
                                     (name fileInfo)))
              fileInfos)
    /\ Forall (fun op => newName op = FileUtils.sanitizeFilename (oldName op)
                         /\ newName op <> "" /\ newName op <> oldName op)
              more.
Proof.
  induction fileInfos as [|fileInfo fileInfos IH]; intros ops; cbn [fold_left].
  - exists []. rewrite app_nil_r. repeat split. constructor.
  - unfold planRename at 2. cbn [generateNewFilename List.filter].
    destruct (negb (String.eqb (FileUtils.sanitizeFilename (name fileInfo)) "")
              && negb (String.eqb (FileUtils.sanitizeFilename (name fileInfo))
                                  (name fileInfo))) eqn:E.
    + match goal with |- context [fold_left _ _ (Some (ops ++ [?op]))] =>
        destruct (IH (ops ++ [op])) as (more & -> & Hfrom & Hall)
      end.
      eexists (_ :: more). rewrite <- app_assoc. split; [reflexivity|].
      cbn [List.map renameFrom]. rewrite Hfrom. split; [reflexivity|].
      constructor; [|exact Hall]. cbn [newName oldName].
      apply andb_true_iff in E as [E1 E2]. apply negb_true_iff in E1, E2.
      apply String.eqb_neq in E1, E2. auto.
    + destruct (IH ops) as (more & -> & Hfrom & Hall). exists more. auto.
Qed.

Lemma renameOperations_datePrefix fileInfos : forall ops,
  exists more,
    fold_left (planRename pathJoin ByDatePrefix) fileInfos (Some ops)
    = Some (ops ++ more)
    /\ List.map renameFrom more = List.map path fileInfos.
Proof.
  induction fileInfos as [|fileInfo fileInfos IH]; intros ops; cbn [fold_left].
  - exists []. rewrite app_nil_r. auto.
  - unfold planRename at 2. cbn [generateNewFilename].
    destruct (isoDate_not_empty (created fileInfo) (name fileInfo)) as [H1 H2].
    apply String.eqb_neq in H1, H2. rewrite H1, H2. cbn [negb andb].
    match goal with |- context [fold_left _ _ (Some (ops ++ [?op]))] =>
      destruct (IH (ops ++ [op])) as (more & -> & Hfrom); exists (op :: more)
    end.
    rewrite <- app_assoc. split; [reflexivity|].
    cbn [List.map renameFrom]. rewrite Hfrom. reflexivity.
Qed.

Lemma renameOperations_heading fileInfos : forall ops,
  Forall (fun fileInfo => headings fileInfo = None) fileInfos ->
  fold_left (planRename pathJoin ByHeading) fileInfos (Some ops) = Some ops.
Proof.
  induction fileInfos as [|fileInfo fileInfos IH]; intros ops Hall; [reflexivity|].
  apply Forall_cons in Hall as [Hh Hall]. cbn [fold_left].
  unfold planRename at 2. cbn [generateNewFilename]. rewrite Hh. apply IH, Hall.
Qed.

End Renaming.

(** X26: what [renameFiles] plans.  With the pattern [sanitize] it renames
    the files whose name is not what [sanitizeFilename] gives for it, unless
    that is empty, each to that sanitized name, so that a name planned is a
    fixed point of [sanitizeFilename]; with the pattern [date-prefix] it
    renames every file, at every run, since the new name is never the old
    one. *)
Theorem renameOperations_plans
    (pathJoin : list string -> string)
    (fileInfos : list FileProcessor.FileInfo) :
  (exists ops,
     FileOrganizer.renameOperations pathJoin fileInfos FileOrganizer.BySanitize
     = Some ops
     /\ List.map FileOrganizer.renameFrom ops
        = List.map FileProcessor.path
            (List.filter
               (fun fileInfo =>
                  negb (String.eqb (FileUtils.sanitizeFilename
                                      (FileProcessor.name fileInfo)) "")
                  && negb (String.eqb (FileUtils.sanitizeFilename
                                         (FileProcessor.name fileInfo))
                                      (FileProcessor.name fileInfo)))
               fileInfos)
     /\ Forall (fun op =>
                  FileOrganizer.newName op
                    = FileUtils.sanitizeFilename (FileOrganizer.oldName op)
                  /\ FileOrganizer.newName op <> ""
                  /\ FileOrganizer.newName op <> FileOrganizer.oldName op
                  /\ FileUtils.sanitizeFilename (FileOrganizer.newName op)
                     = FileOrganizer.newName op)
               ops)
  /\ (exists ops,
        FileOrganizer.renameOperations pathJoin fileInfos FileOrganizer.ByDatePrefix
        = Some ops
        /\ List.map FileOrganizer.renameFrom ops
           = List.map FileProcessor.path fileInfos).
Proof.
  split.
  - destruct (renameOperations_sanitize pathJoin fileInfos [])
      as (ops & Hrun & Hfrom & Hall).
    exists ops. split; [exact Hrun|]. split; [exact Hfrom|].
    eapply Forall_impl; [exact Hall|].
    intros op (H1 & H2 & H3). repeat split; try assumption.
    rewrite H1. apply sanitizeFilename_fixes, sanitizeFilename_isSanitized.
  - destruct (renameOperations_datePrefix pathJoin fileInfos [])
      as (ops & Hrun & Hfrom).
    exists ops. split; [exact Hrun | exact Hfrom].
Qed.

(** X27: with the pattern [heading], [renameFiles] plans no operation for
    the files [processFiles] has read, whatever headings their texts hold:
    the records carry no [headings] field. *)
Theorem renameOperations_heading_plans_nothing
    (pathJoin : list string -> string)
    (matter : string -> option MarkdownUtils.Parsed)
    (statOf : string -> FileProcessor.FileStats) (onProgress : bool)
    (filePaths : list string) (w : Effect.World) :
  exists w' processed,
    FileProcessor.processFiles matter statOf onProgress filePaths w
    = (w', Effect.Returns processed)
    /\ FileOrganizer.renameOperations pathJoin
         (FileProcessor.results processed) FileOrganizer.ByHeading
       = Some [].
Proof.
  destruct (processFiles_run matter statOf onProgress filePaths w)
    as (w' & processed & Hrun & Hfs & Hpaths & Hall & Herr).
  exists w', processed. split; [exact Hrun|].
  apply renameOperations_heading.
  eapply Forall_impl; [exact Hall|]. intros fileInfo (_ & H & _). exact H.
Qed.

(** ** The table of contents *)
Section Contents2.
Import JS MarkdownUtils.

Lemma trimEnd_app_blank a b : trimEnd b = "" -> trimEnd (a +:+ b) = trimEnd a.
Proof.
  intros Hb. induction a as [|c a IH]; [exact Hb|].
  rewrite append_cons, !trimEnd_cons, IH. reflexivity.
Qed.

Lemma trimStart_spaces n x :
  trimStart (repeatString "  " n +:+ x) = trimStart x.
Proof.
  induction n as [|n IH]; [reflexivity|].
  cbn [repeatString]. rewrite append_assoc, !append_cons, append_nil_l.
  cbn [trimStart isWhiteSpace]. exact IH.
Qed.

Lemma fold_tocLine hs : forall acc,
  fold_left (fun toc heading => toc +:+ tocLine heading) hs acc
  = acc +:+ fold_left (fun toc heading => toc +:+ tocLine heading) hs "".
Proof.
  induction hs as [|h hs IH]; intros acc; cbn [fold_left].
  - rewrite append_nil_r. reflexivity.
  - rewrite IH, (IH ("" +:+ _)), append_nil_l, append_assoc. reflexivity.
Qed.

Lemma trimEnd_entry entry rest :
  exists more, trimEnd ((entry +:+ ")") +:+ rest) = (entry +:+ ")") +:+ more.
Proof.
  assert (He : trimEnd (entry +:+ ")") = entry +:+ ")").
  { rewrite trimEnd_app; [reflexivity | discriminate]. }
  destruct (trimEnd rest) as [|c t] eqn:E.
  - exists "". rewrite (trimEnd_app_blank _ _ E), He, append_nil_r. reflexivity.
  - exists (String c t). rewrite trimEnd_app; rewrite E; [reflexivity | discriminate].
Qed.

End Contents2.

(** X28: the table of contents is empty when the text has no heading;
    otherwise it starts with the entry of the first heading without any
    indentation, whatever the level of that heading, since the whole table
    is trimmed. *)
Theorem generateTableOfContents_first_entry (content : string) :
  match MarkdownUtils.extractHeadings content with
  | [] => MarkdownUtils.generateTableOfContents content = ""
  | heading :: _ =>
      JS.startsWith
        ("- [" +:+ MarkdownUtils.text heading +:+ "](#"
           +:+ MarkdownUtils.id heading +:+ ")")
        (MarkdownUtils.generateTableOfContents content) = true
  end.
Proof.
  unfold MarkdownUtils.generateTableOfContents.
  destruct (MarkdownUtils.extractHeadings content) as [|h hs]; [reflexivity|].
  cbn [fold_left]. rewrite fold_tocLine, append_nil_l.
  unfold MarkdownUtils.tocLine, JS.trim.
  rewrite !append_assoc, trimStart_spaces.
  change ("- " +:+ ?x) with (String "-" (String " " x)).
  cbn [JS.trimStart JS.isWhiteSpace].
  set (rest := String JS.newline "" +:+ _).
  replace (String "-" (String " " ("[" +:+ MarkdownUtils.text h +:+ "](#"
             +:+ MarkdownUtils.id h +:+ ")" +:+ rest)))
    with ((("- [" +:+ MarkdownUtils.text h +:+ "](#" +:+ MarkdownUtils.id h)
           +:+ ")") +:+ rest)
    by (rewrite !append_assoc; reflexivity).
  destruct (trimEnd_entry
              ("- [" +:+ MarkdownUtils.text h +:+ "](#" +:+ MarkdownUtils.id h) rest)
    as [more ->].
  rewrite (append_assoc _ ")" ).
  replace (("- [" +:+ MarkdownUtils.text h +:+ "](#" +:+ MarkdownUtils.id h)
           +:+ ")" +:+ more)
    with (("- [" +:+ MarkdownUtils.text h +:+ "](#" +:+ MarkdownUtils.id h +:+ ")")
          +:+ more)
    by (rewrite !append_assoc; reflexivity).
  apply startsWith_app.
Qed.

Example generateTableOfContents_sample :
  MarkdownUtils.generateTableOfContents
    ("## Setup" +:+ String JS.newline
       ("text" +:+ String JS.newline
          ("### First steps" +:+ String JS.newline "# Top")))
  = "- [Setup](#setup)" +:+ String JS.newline
      ("    - [First steps](#first-steps)" +:+ String JS.newline
         "- [Top](#top)").
Proof. vm_compute. reflexivity. Qed.

(** ** The paths the scan returns *)
Section Matches.
Import JS Effect VaultManager.

Lemma hasSuffix_app suffix a b :
  hasSuffix suffix b = true -> hasSuffix suffix (a +:+ b) = true.
Proof.
  intros H. induction a as [|c a IH]; [exact H|].
  rewrite append_cons. cbn [hasSuffix]. rewrite IH. apply orb_true_r.
Qed.

Lemma toLowerCase_app a b : toLowerCase (a +:+ b) = toLowerCase a +:+ toLowerCase b.
Proof.
  induction a as [|c a IH]; [reflexivity|].
  rewrite append_cons. cbn [toLowerCase]. rewrite IH, append_cons. reflexivity.
Qed.

Lemma foldCase_app nocase a b :
  foldCase nocase (a +:+ b) = foldCase nocase a +:+ foldCase nocase b.
Proof. destruct nocase; [apply toLowerCase_app | reflexivity]. Qed.

Lemma startsWith_dot_app n x :
  isHidden n = false -> n <> "" -> isHidden (n +:+ x) = false.
Proof.
  unfold isHidden. destruct n as [|c n]; [contradiction|]. intros H _.
  rewrite append_cons. exact H.
Qed.

Lemma globEntry_matches nocase e :
  Forall (fun p => hasSuffix ".md" (foldCase nocase p) = true
                   /\ isHidden p = false)
         (globEntry nocase e).
Proof.
  induction e as [n|n children IH] using Entry_induction.
  - cbn [globEntry]. unfold matchesStarMd.
    destruct (negb (isHidden n) && hasSuffix ".md" (foldCase nocase n)) eqn:E;
      [|constructor].
    apply andb_true_iff in E as [E1 E2]. apply negb_true_iff in E1.
    constructor; [auto | constructor].
  - cbn [globEntry]. apply Forall_app. split.
    + unfold matchesStarMd.
      destruct (negb (isHidden n) && hasSuffix ".md" (foldCase nocase n)) eqn:E;
        [|constructor].
      apply andb_true_iff in E as [E1 E2]. apply negb_true_iff in E1.
      constructor; [auto | constructor].
    + destruct (isHidden n) eqn:Hn; [constructor|].
      apply Forall_forall. intros p Hp.
      apply list_elem_of_In, in_map_iff in Hp as (q & <- & Hq).
      apply in_flat_map in Hq as (c & Hc & Hq).
      rewrite Forall_forall in IH.
      specialize (IH c (proj2 (list_elem_of_In _ _) Hc)).
      rewrite Forall_forall in IH.
      destruct (IH q (proj2 (list_elem_of_In _ _) Hq)) as [Hs _].
      split.
      * rewrite !foldCase_app. apply hasSuffix_app, hasSuffix_app, Hs.
      * destruct n as [|c0 n]; [|exact Hn].
        rewrite append_nil_l. reflexivity.
Qed.

End Matches.

(** X29: every path the scan of a directory returns ends in [.md] (with
    any case of these letters where the platform compares names without
    regard to case) and does not start with a dot. *)
Theorem glob_matches_end_in_md (nocase : bool) (children : list VaultManager.Entry) :
  Forall (fun p =>
            VaultManager.hasSuffix ".md" (VaultManager.foldCase nocase p) = true
            /\ VaultManager.isHidden p = false)
         (VaultManager.glob nocase children).
Proof.
  unfold VaultManager.glob. apply Forall_forall. intros p Hp.
  apply list_elem_of_In, in_flat_map in Hp as (e & _ & Hp).
  pose proof (globEntry_matches nocase e) as H. rewrite Forall_forall in H.
  apply H, list_elem_of_In, Hp.
Qed.

(** ** Added properties and the merge *)
Section Additions.
Import JS PropertyManager.

Lemma set_app_l b1 b2 k v :
  In k (List.map fst b1) -> set (b1 ++ b2) k v = set b1 k v ++ b2.
Proof.
  induction b1 as [|[k0 v0] b1 IH]; cbn [List.map fst In app set]; [tauto|].
  intros H. destruct (String.eqb k0 k) eqn:E; [reflexivity|].
  rewrite IH; [reflexivity|]. destruct H as [->|H]; [|exact H].
  rewrite String.eqb_refl in E. discriminate E.
Qed.

Lemma set_app_r b1 b2 k v :
  ~ In k (List.map fst b1) -> set (b1 ++ b2) k v = b1 ++ set b2 k v.
Proof.
  induction b1 as [|[k0 v0] b1 IH]; cbn [List.map fst In app set]; [reflexivity|].
  intros H. destruct (String.eqb k0 k) eqn:E.
  - apply String.eqb_eq in E. tauto.
  - rewrite IH by tauto. reflexivity.
Qed.

Lemma keys_set_present o k v :
  In k (List.map fst o) -> List.map fst (set o k v) = List.map fst o.
Proof.
  induction o as [|[k0 v0] o IH]; cbn [List.map fst In set]; [tauto|].
  intros H. destruct (String.eqb k0 k) eqn:E; cbn [List.map fst]; [reflexivity|].
  rewrite IH; [reflexivity|]. destruct H as [->|H]; [|exact H].
  rewrite String.eqb_refl in E. discriminate E.
Qed.

(** An object extends another when it starts with the keys of the other, in
    their order.  Assignments keep that. *)
Lemma set_extends (a b1 b2 : object) k v :
  List.map fst b1 = List.map fst a ->
  exists c1 c2,
    set (b1 ++ b2) k v = c1 ++ c2 /\ List.map fst c1 = List.map fst a.
Proof.
  intros H. destruct (in_dec string_dec k (List.map fst b1)) as [Hin|Hout].
  - exists (set b1 k v), b2. split; [apply set_app_l, Hin|].
    rewrite keys_set_present by exact Hin. exact H.
  - exists b1, (set b2 k v). split; [apply set_app_r, Hout | exact H].
Qed.

Lemma fold_set_head b k v a :
  ~ In k (List.map fst b) ->
  fold_left (fun acc kv => set acc (fst kv) (snd kv)) b ((k, v) :: a)
  = (k, v) :: fold_left (fun acc kv => set acc (fst kv) (snd kv)) b a.
Proof.
  revert a. induction b as [|[k0 v0] b IH]; intros a H; [reflexivity|].
  cbn [List.map fst In] in H. cbn [fold_left fst snd set].
  destruct (String.eqb k k0) eqn:E; [apply String.eqb_eq in E as ->; tauto|].
  apply IH. tauto.
Qed.

Lemma spread_in_place (a : object) : forall b : object,
  NoDup (List.map fst a) -> List.map fst b = List.map fst a -> spread a b = b.
Proof.
  unfold spread. induction a as [|[k v0] a IH]; intros [|[k' v] b] Hnd Hkeys;
    try discriminate Hkeys; [reflexivity|].
  cbn [List.map fst] in Hnd, Hkeys. injection Hkeys as -> Hkeys.
  apply NoDup_cons in Hnd as [Hk Hnd].
  cbn [fold_left fst snd set]. rewrite String.eqb_refl.
  rewrite fold_set_head.
  - rewrite (IH b Hnd Hkeys). reflexivity.
  - rewrite Hkeys. intros Hin. apply Hk, list_elem_of_In, Hin.
Qed.

Lemma spread_extension (a b1 b2 : object) :
  wf (b1 ++ b2) -> List.map fst b1 = List.map fst a ->
  spread a (b1 ++ b2) = b1 ++ b2.
Proof.
  unfold wf. rewrite List.map_app. intros Hnd Hkeys.
  unfold spread. rewrite fold_left_app.
  fold (spread a b1). rewrite spread_in_place.
  - apply spread_fresh, Hnd.
  - rewrite <- Hkeys. apply NoDup_app in Hnd as (H & _). exact H.
  - exact Hkeys.
Qed.

Lemma addMissingProperties_extends fm filePath fileStats :
  exists c1 c2,
    fst (addMissingProperties fm filePath fileStats) = c1 ++ c2
    /\ List.map fst c1 = List.map fst fm.
Proof.
  unfold addMissingProperties.
  assert (Hdate : forall key field (acc : object * list Addition),
            (exists c1 c2, fst acc = c1 ++ c2 /\ List.map fst c1 = List.map fst fm) ->
            exists c1 c2, fst (addDate key field acc) = c1 ++ c2
                          /\ List.map fst c1 = List.map fst fm).
  { intros key field acc (c1 & c2 & Hacc & Hkeys). unfold addDate.
    destruct field as [d|]; [|eauto].
    destruct (falsyAt (fst acc) key); [|eauto].
    cbn [fst]. rewrite Hacc. apply set_extends, Hkeys. }
  assert (Htags : forall (acc : object * list Addition),
            (exists c1 c2, fst acc = c1 ++ c2 /\ List.map fst c1 = List.map fst fm) ->
            exists c1 c2, fst (addTags acc) = c1 ++ c2
                          /\ List.map fst c1 = List.map fst fm).
  { intros acc (c1 & c2 & Hacc & Hkeys). unfold addTags.
    destruct (falsyAt (fst acc) "tags"); [|eauto].
    cbn [fst]. rewrite Hacc. apply set_extends, Hkeys. }
  apply Htags, Hdate, Hdate. exists fm, []. rewrite app_nil_r. auto.
Qed.

Lemma addMissingProperties_wf fm filePath fileStats :
  wf fm -> wf (fst (addMissingProperties fm filePath fileStats)).
Proof.
  intros Hwf. unfold addMissingProperties, addTags, addDate.
  repeat match goal with
         | |- context [match ?x with Some _ => _ | None => _ end] => destruct x
         | |- context [if ?c then _ else _] => destruct c
         end; cbn [fst]; repeat apply wf_set; exact Hwf.
Qed.

End Additions.

(** X30: the frontmatter [addMissingProperties] returns, merged by
    [updateFileFrontmatter] into the frontmatter it was computed from, is
    that frontmatter itself: the write adds the planned properties and keeps
    the others in their place. *)
Theorem addMissingProperties_merge_writes_planned
    (frontmatter : JS.object) (filePath : string)
    (fileStats : option PropertyManager.Stats) :
  JS.wf frontmatter ->
  JS.spread frontmatter
    (fst (PropertyManager.addMissingProperties frontmatter filePath fileStats))
  = fst (PropertyManager.addMissingProperties frontmatter filePath fileStats).
Proof.
  intros Hwf.
  pose proof (addMissingProperties_wf frontmatter filePath fileStats Hwf) as Hwf'.
  destruct (addMissingProperties_extends frontmatter filePath fileStats)
    as (c1 & c2 & Heq & Hkeys).
  rewrite Heq in Hwf' |- *. apply spread_extension; assumption.
Qed.

Lemma addMissingProperties_merge_writes_planned_witness :
  JS.spread [("title", JS.VStr "T"); ("created", JS.VStr "")]
    (fst (PropertyManager.addMissingProperties
            [("title", JS.VStr "T"); ("created", JS.VStr "")] "n.md"
            (Some {| PropertyManager.birthtime := Some 1709251200000%Z;
                     PropertyManager.mtime := None |})))
  = [("title", JS.VStr "T"); ("created", JS.VStr "2024-03-01");
     ("tags", JS.VArr [])].
Proof.
  rewrite (addMissingProperties_merge_writes_planned
             [("title", JS.VStr "T"); ("created", JS.VStr "")] "n.md"
             (Some {| PropertyManager.birthtime := Some 1709251200000%Z;
                      PropertyManager.mtime := None |})).
  - vm_compute. reflexivity.
  - unfold JS.wf. cbn [List.map fst]. solve_NoDup.
Defined.
